(** * jnormcorre: parameter translation, chunk planning and shift aggregation

    A shallow embedding of the orchestration code of the repository:
    - [jnormcorre/correct_stack.py]     ([compute_shifts]),
    - [demos/official_demo_script.py]   ([motion_correct_pipeline], [main]),
    - [jnormcorre/utils/simulate.py]    (the ground-truth profile of
                                         [create_test_data]),
    - [tests/test_motion_correct.py].

    Python integers are [Z]; Python floats are the rationals they denote
    ([Q], with [/] as exact division: the rounding of binary floats is
    not modelled); dictionaries with string keys are [gmap string _];
    exceptions are an error type; the calls a function makes to its
    collaborators (stdout, the [MotionCorrect] class, [np.savez]) are
    recorded in an explicit call log.

    The class [MotionCorrect] of [jnormcorre/motion_correction.py] is a
    parameter of the embedded code ([MotionCorrectClass]); the module
    [SpecModel] gives the instance that the specification describes. *)

From Stdlib Require Import ZArith QArith Qround Lia Lqa List Ascii String.
From stdpp Require Import gmap strings list list_numbers fin_maps pretty.

Local Open Scope Z_scope.
Local Set Warnings "-register-all".

(* ===================================================================== *)
(** * Python values and builtins                                          *)
(* ===================================================================== *)

Module Py.

(** The exceptions that can leave the modelled code. *)
Inductive exn : Type :=
| ZeroDivisionError
| ValueError
| TypeError
| IndexError
| ConfigurationError
| EngineFailure
| DataAccessError.

Inductive result (A : Type) : Type :=
| Ok (a : A)
| Err (e : exn).
Arguments Ok {A} a.
Arguments Err {A} e.

Definition is_ok {A} (r : result A) : bool :=
  match r with Ok _ => true | Err _ => false end.

Definition rbind {A B} (r : result A) (f : A -> result B) : result B :=
  match r with Ok a => f a | Err e => Err e end.

(** Values that travel through keyword dictionaries. *)
Inductive pyval : Type :=
| PyNone
| PyBool (b : bool)
| PyInt (n : Z)
| PyFloat (x : Q)
| PyTuple (xs : list pyval)
| PyList (xs : list pyval)
| PySliceAll.                       (* slice(None) *)

(** [int(x)] on a float: truncation toward zero. *)
Definition py_int (x : Q) : Z := Z.quot (Qnum x) (Zpos (Qden x)).

(** Truncation toward zero: the floor of a non-negative float, the
    ceiling of a non-positive one. *)
Definition truncates (x : Q) : Prop :=
  ((0 <= x)%Q -> py_int x = Qfloor x) /\ ((x <= 0)%Q -> py_int x = Qceiling x).

(** [a / b] (true division): raises on a zero divisor. *)
Definition py_truediv (a b : Q) : result Q :=
  if Qeq_bool b 0 then Err ZeroDivisionError else Ok (a / b)%Q.

(** [math.ceil(x)] and [int(np.ceil(x))]. *)
Definition py_ceil (x : Q) : Z := Qceiling x.

(** [min(a, b)] on integers. *)
Definition py_min (a b : Z) : Z := if b <? a then b else a.

(** [round(x)] on a float and [np.round]: half to even. *)
Definition py_round (x : Q) : Z :=
  let f := Qfloor x in
  let r := (x - inject_Z f)%Q in
  match (r ?= 1 # 2)%Q with
  | Lt => f
  | Gt => f + 1
  | Eq => if Z.even f then f else f + 1
  end.

(** [[int(a / b) for a, b in zip(xs, ys)]]: stops at the shorter
    sequence, raises at the first zero divisor. *)
Fixpoint int_div_zip (xs ys : list Q) : result (list Z) :=
  match xs, ys with
  | a :: xs', b :: ys' =>
      rbind (py_truediv a b) (fun q =>
      rbind (int_div_zip xs' ys') (fun rest =>
      Ok (py_int q :: rest)))
  | _, _ => Ok []
  end.

End Py.
Export Py.

(* ===================================================================== *)
(** * numpy arrays                                                        *)
(* ===================================================================== *)

Module Np.

(** An n-dimensional array: its shape and its entries by index. *)
Record ndarray : Type := { shape : list Z; item : list Z -> Q }.

(** [a.T]: the axes in reverse order. *)
Definition ndarray_T (a : ndarray) : ndarray :=
  {| shape := rev (shape a); item := fun idx => item a (rev idx) |}.

(** [np.zeros(shape)]. *)
Definition zeros (shape : list Z) : ndarray :=
  {| shape := shape; item := fun _ => 0%Q |}.

(** A 2-D array as its list of rows. *)
Definition matrix : Type := list (list Q).

(** [np.vstack(rows)] on 1-D arrays: needs at least one row, and rows
    of one length. *)
Definition vstack (rows : list (list Q)) : result matrix :=
  match rows with
  | [] => Err ValueError
  | r :: rest =>
      if forallb (fun r' => Nat.eqb (length r') (length r)) rest
      then Ok rows else Err ValueError
  end.

(** [m.T] on a 2-D array. *)
Definition transpose (m : matrix) : matrix :=
  match m with
  | [] => []
  | r :: _ => map (fun j => map (fun row => nth j row 0%Q) m) (seq 0 (length r))
  end.

(** [- m]. *)
Definition neg (m : matrix) : matrix := map (map Qopp) m.

(** [a, b = xs]. *)
Definition unpack2 {A} (xs : list A) : result (A * A) :=
  match xs with [a; b] => Ok (a, b) | _ => Err ValueError end.

(** [a, b, c = xs]. *)
Definition unpack3 {A} (xs : list A) : result (A * A * A) :=
  match xs with [a; b; c] => Ok (a, b, c) | _ => Err ValueError end.

(** What [np.savez] stores under a key. *)
Inductive npval : Type :=
| NpNone
| NpArray (rows : matrix).

End Np.
Export Np.

(* ===================================================================== *)
(** * Collaborators and the call log                                      *)
(* ===================================================================== *)

(** [jnormcorre.motion_correction.MotionCorrect], as the callers use it:
    the constructor, [motion_correct] (which updates the object and
    returns the frame corrector and the target file), and the three shift
    attributes. The class is a parameter of the code below. *)
Record MotionCorrectClass : Type := {
  corrector : Type;
  frame_corrector : Type;
  mc_init : ndarray -> gmap string pyval -> result corrector;
  mc_motion_correct :
    corrector -> option ndarray -> bool ->
    result (corrector * (frame_corrector * option string));
  shifts_rig : corrector -> list (list Q);
  x_shifts_els : corrector -> matrix;
  y_shifts_els : corrector -> matrix
}.

(** The calls the orchestration code makes, in program order. *)
Inductive call : Type :=
| CallDisplay (msg : string)
| CallInit (data : ndarray) (kwargs : gmap string pyval)
| CallMotionCorrect (template : option ndarray) (save_movie : bool)
| CallSavez (file : string) (archive : gmap string npval).


(** A computation: the calls made so far and a value or an exception. *)
Definition run (A : Type) : Type := (list call * result A)%type.

Definition run_ret {A} (a : A) : run A := ([], Ok a).

Definition run_bind {A B} (m : run A) (f : A -> run B) : run B :=
  match m with
  | (l, Ok a) => let '(l', r) := f a in (l ++ l', r)
  | (l, Err e) => (l, Err e)
  end.

Definition emit (c : call) : run unit := ([c], Ok tt).
Definition lift {A} (r : result A) : run A := ([], r).

Notation "'do' x <- m ; k" := (run_bind m (fun x => k))
  (at level 10, x name, m at level 100, k at level 200).
Notation "'do' ' p <- m ; k" := (run_bind m (fun x => match x with p => k end))
  (at level 10, p pattern, m at level 100, k at level 200).
Notation "m ;; k" := (run_bind m (fun _ => k))
  (at level 100, k at level 200, right associativity).

Definition calls {A} (m : run A) : list call := fst m.
Definition outcome {A} (m : run A) : result A := snd m.

(* ===================================================================== *)
(** * jnormcorre/correct_stack.py                                         *)
(* ===================================================================== *)

Module CorrectStack.

(** A physical quantity as [compute_shifts] accepts it: a float, or a
    tuple of floats. *)
Inductive phys : Type :=
| Scalar (x : Q)
| Tuple (xs : list Q).

(** [if not isinstance(v, tuple): v = (v, v)]. *)
Definition broadcast (v : phys) : list Q :=
  match v with
  | Scalar x => [x; x]
  | Tuple xs => xs
  end.

(** The first argument of [zip] must be iterable. *)
Definition iterable (v : phys) : result (list Q) :=
  match v with
  | Scalar _ => Err TypeError
  | Tuple xs => Ok xs
  end.

Record args : Type := {
  stack : ndarray;
  pixel_size_um : phys;
  max_shift_um : phys;
  max_deviation_rigid : pyval;
  patch_motion_um : phys;
  overlaps : pyval;
  splits : Z;
  gSig_filt : pyval
}.

(** The signature's defaults. *)
Definition with_defaults (stack : ndarray) (pixel_size_um : phys) : args :=
  {| stack := stack;
     pixel_size_um := pixel_size_um;
     max_shift_um := Tuple [12; 12]%Q;
     max_deviation_rigid := PyInt 3;
     patch_motion_um := Tuple [100; 100]%Q;
     overlaps := PyTuple [PyInt 24; PyInt 24];
     splits := 200;
     gSig_filt := PyNone |}.

(** The same call with another [pixel_size_um], or another
    [max_shift_um]. *)
Definition set_pixel_size_um (v : phys) (a : args) : args :=
  {| stack := stack a;
     pixel_size_um := v;
     max_shift_um := max_shift_um a;
     max_deviation_rigid := max_deviation_rigid a;
     patch_motion_um := patch_motion_um a;
     overlaps := overlaps a;
     splits := splits a;
     gSig_filt := gSig_filt a |}.

Definition set_max_shift_um (v : phys) (a : args) : args :=
  {| stack := stack a;
     pixel_size_um := pixel_size_um a;
     max_shift_um := v;
     max_deviation_rigid := max_deviation_rigid a;
     patch_motion_um := patch_motion_um a;
     overlaps := overlaps a;
     splits := splits a;
     gSig_filt := gSig_filt a |}.

(** Lines 36-37: the number of temporal chunks. *)
Definition num_chunks (nt splits : Z) : result Z :=
  rbind (py_truediv (inject_Z nt) (inject_Z splits)) (fun q => Ok (py_ceil q)).

(** Lines 39-45: the pixel-unit parameters, as integer sequences. *)
Definition translate (a : args) : result (list Z * list Z) :=
  let pixel_size_um := broadcast (pixel_size_um a) in
  let max_shift_um := broadcast (max_shift_um a) in
  rbind (int_div_zip max_shift_um pixel_size_um) (fun max_shifts =>
  rbind (iterable (patch_motion_um a)) (fun patch =>
  rbind (int_div_zip patch pixel_size_um) (fun strides =>
  Ok (max_shifts, strides)))).

(** Lines 47-63: the keyword dictionary. *)
Definition mc_dict (a : args) (splits : Z) (max_shifts strides : list Z)
  : gmap string pyval :=
  <["max_deviation_rigid" := max_deviation_rigid a]> (
  <["overlaps" := overlaps a]> (
  <["gSig_filt" := gSig_filt a]> (
  <["strides" := PyTuple (PyInt <$> strides)]> (
  <["max_shifts" := PyList (PyInt <$> max_shifts)]> (
  <["indices" := PyTuple [PySliceAll; PySliceAll]]> (
  <["upsample_factor_grid" := PyInt 4]> (
  <["splits_rig" := PyInt splits]> (
  <["splits_els" := PyInt splits]> (
  <["num_splits_to_process_rig" := PyNone]> (
  <["num_splits_to_process_els" := PyNone]> (
  <["nonneg_movie" := PyBool true]> (
  <["niter_els" := PyInt 1]> (
  <["niter_rig" := PyInt 4]> (
  <["min_mov" := PyInt (-5)]> ∅)))))))))))))).

(** Lines 36-63 together: everything computed before the engine is
    called. *)
Definition configure (a : args) : result (gmap string pyval) :=
  rbind (unpack3 (shape (stack a))) (fun '(nx, xy, nt) =>
  rbind (num_chunks nt (splits a)) (fun splits =>
  rbind (translate a) (fun '(max_shifts, strides) =>
  Ok (mc_dict a splits max_shifts strides)))).

(** A rigid shift record [(first, second)] as a 1-D array. *)
Definition record_row (d : Q * Q) : list Q := [fst d; snd d].

(** Line 68: [shifts_y, shifts_x = - np.vstack(corrector.shifts_rig).T],
    returned as [(shifts_x, shifts_y)]. *)
Definition unpack_shifts (records : list (list Q)) : result (list Q * list Q) :=
  rbind (vstack records) (fun m =>
  rbind (unpack2 (neg (transpose m))) (fun '(shifts_y, shifts_x) =>
  Ok (shifts_x, shifts_y))).

Section WithEngine.
Variable MotionCorrect : MotionCorrectClass.

Definition compute_shifts (a : args) : run (list Q * list Q) :=
  do mc_dict <- lift (configure a);
  let kwargs := <["pw_rigid" := PyBool false]> mc_dict in
  emit (CallInit (ndarray_T (stack a)) kwargs) ;;
  do corrector <- lift (mc_init MotionCorrect (ndarray_T (stack a)) kwargs);
  emit (CallMotionCorrect None false) ;;
  do '(corrector, _) <- lift (mc_motion_correct MotionCorrect corrector None false);
  lift (unpack_shifts (shifts_rig MotionCorrect corrector)).

End WithEngine.

(** The constants no argument of [compute_shifts] reaches. *)
Definition fixed_constants (kwargs : gmap string pyval) : Prop :=
  kwargs !! "pw_rigid" = Some (PyBool false)
  /\ kwargs !! "niter_rig" = Some (PyInt 4)
  /\ kwargs !! "niter_els" = Some (PyInt 1)
  /\ kwargs !! "upsample_factor_grid" = Some (PyInt 4)
  /\ kwargs !! "min_mov" = Some (PyInt (-5))
  /\ kwargs !! "num_splits_to_process_rig" = Some PyNone.

(** A call of a rigid-only run that materializes no movie: the
    constructor on [stack.T] with the fixed constants, or
    [motion_correct(save_movie=False)]. *)
Definition rigid_only_call (a : args) (c : call) : Prop :=
  match c with
  | CallInit data kwargs => data = ndarray_T (stack a) /\ fixed_constants kwargs
  | CallMotionCorrect template save_movie => template = None /\ save_movie = false
  | CallDisplay _ | CallSavez _ _ => False
  end.

End CorrectStack.

(* ===================================================================== *)
(** * demos/official_demo_script.py                                       *)
(* ===================================================================== *)

Module Demo.

(** [display(msg)]: one line on stdout (the time tag is left out). *)
Definition display (msg : string) : run unit := emit (CallDisplay msg).

(** [os.path.join(a, b)] for a relative [b]. *)
Definition path_join (a b : string) : string :=
  match a with
  | EmptyString => b
  | _ => match String.get (Nat.pred (String.length a)) a with
         | Some "/"%char => a +:+ b
         | _ => a +:+ "/" +:+ b
         end
  end.

Definition dquote : string := String (Ascii.ascii_of_nat 34) EmptyString.

Record args : Type := {
  lazy_dataset : ndarray;
  outdir : string;
  max_shifts : pyval;
  max_deviation_rigid : pyval;
  frames_per_split : Z;
  num_splits_to_process_els : Z;
  num_splits_to_process_rig : Z;
  pw_rigid : bool;
  strides : pyval;
  overlaps : pyval;
  niter_rig : pyval;
  gSig_filt : pyval;
  save_movie : bool;
  template : option ndarray
}.

(** The signature's defaults. *)
Definition with_defaults (lazy_dataset : ndarray) (outdir : string)
    (max_shifts : pyval) : args :=
  {| lazy_dataset := lazy_dataset;
     outdir := outdir;
     max_shifts := max_shifts;
     max_deviation_rigid := PyInt 3;
     frames_per_split := 1000;
     num_splits_to_process_els := 5;
     num_splits_to_process_rig := 5;
     pw_rigid := false;
     strides := PyTuple [PyInt 30; PyInt 30];
     overlaps := PyTuple [PyInt 10; PyInt 10];
     niter_rig := PyInt 4;
     gSig_filt := PyNone;
     save_movie := true;
     template := None |}.

(** Line 112: [lazy_dataset.shape[0]]. *)
Definition total_frames (d : ndarray) : result Z :=
  match shape d with
  | t :: _ => Ok t
  | [] => Err IndexError
  end.

(** Line 113: [math.ceil(total_frames / frames_per_split)]. (The float
    quotient of two integers below [2^53] has the ceiling of the exact
    quotient.) *)
Definition num_chunks (total_frames frames_per_split : Z) : result Z :=
  rbind (py_truediv (inject_Z total_frames) (inject_Z frames_per_split))
        (fun q => Ok (py_ceil q)).

(** Lines 106-133: the keyword dictionary, in assignment order. *)
Definition mc_dict (a : args) (splits : Z) : gmap string pyval :=
  let d0 : gmap string pyval := <["upsample_factor_grid" := PyInt 4]> ∅ in
  let d1 := <["strides" := strides a]> d0 in
  let d2 := <["overlaps" := overlaps a]> d1 in
  let d3 := <["max_shifts" := max_shifts a]> d2 in
  let d4 := <["max_deviation_rigid" := max_deviation_rigid a]> d3 in
  let d5 :=
    if pw_rigid a then
      <["overlaps" := overlaps a]> (
      <["strides" := strides a]> (
      <["niter_els" := PyInt 1]> (
      <["pw_rigid" := PyBool true]> d4)))
    else <["pw_rigid" := PyBool false]> d4 in
  let d6 := <["niter_rig" := niter_rig a]> d5 in
  let d7 := <["num_splits_to_process_els" :=
                PyInt (py_min (num_splits_to_process_els a) splits)]> d6 in
  let d8 := <["num_splits_to_process_rig" :=
                PyInt (py_min (num_splits_to_process_rig a) splits)]> d7 in
  let d9 := <["gSig_filt" := gSig_filt a]> d8 in
  let d10 := <["splits_els" := PyInt splits]> d9 in
  <["splits_rig" := PyInt splits]> d10.

Section WithEngine.
Variable MotionCorrect : MotionCorrectClass.

(** Lines 146-149: the archive handed to [np.savez]. *)
Definition shift_archive (pw_rigid : bool) (c : corrector MotionCorrect)
  : gmap string npval :=
  <["y_shifts_els" :=
      if pw_rigid then NpArray (y_shifts_els MotionCorrect c) else NpNone]> (
  <["x_shifts_els" :=
      if pw_rigid then NpArray (x_shifts_els MotionCorrect c) else NpNone]> (
  <["shifts_rig" := NpArray (shifts_rig MotionCorrect c)]> ∅)).

Definition motion_correct_pipeline (a : args)
  : run (frame_corrector MotionCorrect * option string) :=
  display "Running motion correction..." ;;
  do total_frames <- lift (total_frames (lazy_dataset a));
  do splits <- lift (num_chunks total_frames (frames_per_split a));
  display ("Number of chunks is " +:+ pretty splits) ;;
  let mc_dict := mc_dict a splits in
  emit (CallInit (lazy_dataset a) mc_dict) ;;
  do corrector <- lift (mc_init MotionCorrect (lazy_dataset a) mc_dict);
  emit (CallMotionCorrect (template a) (save_movie a)) ;;
  do '(corrector, (corrector_obj, target_file)) <-
    lift (mc_motion_correct MotionCorrect corrector (template a) (save_movie a));
  display "Motion correction completed." ;;
  display ("Saving computed shifts to (" +:+ outdir a +:+ ")...") ;;
  emit (CallSavez (path_join (outdir a) "shifts.npz")
                  (shift_archive (pw_rigid a) corrector)) ;;
  display ("Shifts saved as " +:+ dquote +:+ "shifts.npz" +:+ dquote +:+ ".") ;;
  run_ret (corrector_obj, target_file).

End WithEngine.

(** Lines 161-188 of [main], over the physical constants it fixes:
    the pixel-unit parameters handed to the pipeline. *)
Record parameters : Type := {
  p_max_shifts : pyval;
  p_pw_rigid : bool;
  p_strides : pyval;
  p_overlaps : pyval
}.

Definition overlaps_of (strides : list Z) : result pyval :=
  match strides with
  | s0 :: s1 :: _ =>
      Ok (PyTuple [PyInt (py_round (inject_Z s0 / 4)%Q);
                   PyInt (py_round (inject_Z s1 / 4)%Q)])
  | _ => Err IndexError
  end.

Definition physical_parameters (dxy patch_motion_um max_shift_um : list Q)
  : result parameters :=
  rbind (int_div_zip patch_motion_um dxy) (fun strides =>
  rbind (int_div_zip max_shift_um dxy) (fun max_shifts =>
  rbind (overlaps_of strides) (fun overlaps =>
  Ok {| p_max_shifts := PyList (PyInt <$> max_shifts);
        p_pw_rigid := true;
        p_strides := PyTuple (PyInt <$> strides);
        p_overlaps := overlaps |}))).

Definition pixel_parameters : result parameters :=
  let strides := [30; 30] in
  rbind (overlaps_of strides) (fun overlaps =>
  Ok {| p_max_shifts := PyTuple [PyInt 6; PyInt 6];
        p_pw_rigid := true;
        p_strides := PyTuple (PyInt <$> strides);
        p_overlaps := overlaps |}).

Definition main_parameters (physical_params : bool) : result parameters :=
  if physical_params
  then physical_parameters [2; 2]%Q [50; 50]%Q [12; 12]%Q
  else pixel_parameters.

(** [main], over the dataset that [TiffArray(filename)] opens. *)
Definition main (MotionCorrect : MotionCorrectClass) (lazy_dataset : ndarray)
  : run (frame_corrector MotionCorrect * option string) :=
  do p <- lift (main_parameters true);
  motion_correct_pipeline MotionCorrect
    {| lazy_dataset := lazy_dataset;
       outdir := ".";
       max_shifts := p_max_shifts p;
       max_deviation_rigid := PyInt 3;
       frames_per_split := 1000;
       num_splits_to_process_els := 5;
       num_splits_to_process_rig := 5;
       pw_rigid := p_pw_rigid p;
       strides := p_strides p;
       overlaps := p_overlaps p;
       niter_rig := PyInt 4;
       gSig_filt := PyNone;
       save_movie := true;
       template := None |}.

End Demo.

(* ===================================================================== *)
(** * jnormcorre/utils/simulate.py and tests/test_motion_correct.py       *)
(* ===================================================================== *)

Module Simulate.

(** [np.linspace(start, stop, num)]. *)
Definition linspace (start stop : Q) (num : nat) : list Q :=
  match num with
  | O => []
  | S O => [start]
  | S n =>
      let step := ((stop - start) / inject_Z (Z.of_nat n))%Q in
      map (fun i => (start + inject_Z (Z.of_nat i) * step)%Q) (seq 0 num)
  end.

(** Lines 9-10 of [create_test_data]: the ground-truth profile
    [np.round(np.linspace(0, maxv, nt)).astype(int)]. *)
Definition shift_profile (maxv : Q) (nt : nat) : list Z :=
  map py_round (linspace 0 maxv nt).

(** The two profiles [create_test_data] returns next to the data. *)
Definition create_test_data_shifts (nt : nat) (maxx maxy : Q) : list Z * list Z :=
  (shift_profile maxx nt, shift_profile maxy nt).

Definition qsum (xs : list Q) : Q := fold_right Qplus 0%Q xs.

Definition mean (xs : list Q) : Q := (qsum xs / inject_Z (Z.of_nat (length xs)))%Q.

(** Sum of products of deviations from the means. *)
Definition codev (xs ys : list Q) : Q :=
  let mx := mean xs in
  let my := mean ys in
  qsum (zip_with (fun x y => ((x - mx) * (y - my))%Q) xs ys).

(** [np.corrcoef(xs, ys)[0, 1] > t] for [0 <= t]: the Pearson
    coefficient is [codev xs ys / sqrt (codev xs xs * codev ys ys)];
    with a zero variance it is not a number, and the comparison is
    false. *)
Definition corr_exceeds (t : Q) (xs ys : list Q) : bool :=
  let sxy := codev xs ys in
  let sxx := codev xs xs in
  let syy := codev ys ys in
  Nat.eqb (length xs) (length ys)
  && negb (Qeq_bool (sxx * syy) 0)
  && Qle_bool 0 sxy
  && negb (Qle_bool (sxy * sxy) (t * t * (sxx * syy))).

End Simulate.

Module TestMotionCorrect.

(** The call of line 9:
    [compute_shifts(dat, pixel_size_um=1., max_shift_um=6., splits=4)]. *)
Definition test_args (dat : ndarray) : CorrectStack.args :=
  {| CorrectStack.stack := dat;
     CorrectStack.pixel_size_um := CorrectStack.Scalar 1;
     CorrectStack.max_shift_um := CorrectStack.Scalar 6;
     CorrectStack.max_deviation_rigid := PyInt 3;
     CorrectStack.patch_motion_um := CorrectStack.Tuple [100; 100]%Q;
     CorrectStack.overlaps := PyTuple [PyInt 24; PyInt 24];
     CorrectStack.splits := 4;
     CorrectStack.gSig_filt := PyNone |}.

(** Lines 8-11, over the noisy stack [dat] that [create_test_data]
    draws: the test passes when the recovered x profile correlates with
    the ground truth above 0.95. *)
Definition test_motion_correct_simple_rigid
    (MotionCorrect : MotionCorrectClass) (dat : ndarray) : result bool :=
  let '(shifts_x, shifts_y) := Simulate.create_test_data_shifts 500 10 0 in
  rbind (outcome (CorrectStack.compute_shifts MotionCorrect (test_args dat)))
    (fun '(rec_shifts_x, rec_shifts_y) =>
       Ok (Simulate.corr_exceeds (95 # 100) (inject_Z <$> shifts_x) rec_shifts_x)).

End TestMotionCorrect.

(* ===================================================================== *)
(** * The engine side, from the specification                             *)
(* ===================================================================== *)

(** [jnormcorre/motion_correction.py] is not part of the sources at hand;
    this module models what the callers use of it, from the
    specification. *)
Module SpecModel.

(** Modelled from the spec: [ceil(T / frames_per_split)] on integers
    (section 4.2, ChunkPlanner). *)
Definition ceil_div (T f : Z) : Z := - ((- T) / f).

(** Modelled from the spec: a Chunk (section 3), the half-open frame
    range [[start, stop)]. *)
Definition chunk : Type := (Z * Z)%type.
Definition chunk_len (c : chunk) : Z := snd c - fst c.
Definition chunk_frames (c : chunk) : list Z := seqZ (fst c) (chunk_len c).

(** Modelled from the spec: chunk [i] of the plan starts at
    [i * frames_per_split] and holds [frames_per_split] frames, or stops
    at [T] (section 3: the last chunk is possibly shorter). *)
Definition nth_chunk (T frames_per_split i : Z) : chunk :=
  (i * frames_per_split, Z.min ((i + 1) * frames_per_split) T).

(** Modelled from the spec: [plan(T, frames_per_split)] of the
    ChunkPlanner (sections 3 and 4.2), which the missing
    [motion_correction] module performs: [ceil(T / frames_per_split)]
    chunks, in frame order. *)
Definition plan (T frames_per_split : Z) : list chunk :=
  nth_chunk T frames_per_split <$> seqZ 0 (ceil_div T frames_per_split).

(** Modelled from the spec: the chunks of an engine that is given the
    chunk count [splits] instead of the chunk length, as the callers of
    the missing [MotionCorrect] do ([splits_rig], [splits_els]): the
    plan for the chunk length [ceil(T / splits)]. *)
Definition chunks_for_count (T splits : Z) : list chunk :=
  plan T (ceil_div T splits).

(** Modelled from the spec: a pair of integers ([strides], [overlaps]),
    given as a tuple or a list. *)
Definition as_int_pair (v : pyval) : option (Z * Z) :=
  match v with
  | PyTuple [PyInt a; PyInt b] | PyList [PyInt a; PyInt b] => Some (a, b)
  | _ => None
  end.

(** Modelled from the spec: typed reads of the configuration options
    (section 6). *)
Definition kw_bool (kw : gmap string pyval) (k : string) : result bool :=
  match kw !! k with Some (PyBool b) => Ok b | _ => Err TypeError end.
Definition kw_int (kw : gmap string pyval) (k : string) : result Z :=
  match kw !! k with Some (PyInt n) => Ok n | _ => Err TypeError end.
Definition kw_int_pair (kw : gmap string pyval) (k : string) : result (Z * Z) :=
  match kw !! k with
  | Some v => match as_int_pair v with Some p => Ok p | None => Err TypeError end
  | None => Err TypeError
  end.

(** Modelled from the spec: the geometric invariant of
    RegistrationConfig (sections 3, 4.1 and 7), checked by the missing
    constructor: with [pw_rigid], [strides[i] + overlaps[i]] must be
    below FOV dimension [i] on both axes. *)
Definition geometry_ok (strides overlaps fov : Z * Z) : bool :=
  (fst strides + fst overlaps <? fst fov)
  && (snd strides + snd overlaps <? snd fov).

(** Modelled from the spec: frame [t] of a [(T, H, W)] Dataset
    (section 3). *)
Definition frame (data : ndarray) (t : Z) : ndarray :=
  {| shape := tail (shape data); item := fun idx => item data (t :: idx) |}.

(** Modelled from the spec: a pass over a sequence that stops at the
    first failure (section 7: no per-frame skip). *)
Fixpoint mapM {A B} (f : A -> result B) (xs : list A) : result (list B) :=
  match xs with
  | [] => Ok []
  | x :: xs' => rbind (f x) (fun y => rbind (mapM f xs') (fun ys => Ok (y :: ys)))
  end.

Section Engine.
(** The Registration Engine and the template estimator are opaque
    capabilities (sections 1 and 6). *)
Variable estimate_template :
  ndarray -> gmap string pyval -> option ndarray -> ndarray.
Variable register : ndarray -> ndarray -> result (Q * Q).
Variable register_patches :
  ndarray -> ndarray -> gmap string pyval -> result (list (Q * Q)).
Variable movie_file : string.

Record state : Type := {
  st_data : ndarray;
  st_frames : Z;
  st_config : gmap string pyval;
  st_pw_rigid : bool;
  st_splits_rig : Z;
  st_shifts_rig : list (list Q);
  st_x_shifts_els : matrix;
  st_y_shifts_els : matrix
}.

(** Modelled from the spec: the missing [MotionCorrect] constructor.
    It looks at the shape of the dataset only, and validates the
    configuration eagerly (sections 3, 4.1, 4.3 and 7): first, when
    [pw_rigid] is set, the patch geometry, then [niter_rig], then the
    chunk count. *)
Definition init (data : ndarray) (kw : gmap string pyval) : result state :=
  rbind (unpack3 (shape data)) (fun '(T, H, W) =>
  rbind (kw_bool kw "pw_rigid") (fun pw_rigid =>
  rbind (if pw_rigid : bool then
           rbind (kw_int_pair kw "strides") (fun strides =>
           rbind (kw_int_pair kw "overlaps") (fun overlaps =>
           if geometry_ok strides overlaps (H, W)
           then Ok tt else Err ConfigurationError))
         else Ok tt) (fun _ =>
  rbind (kw_int kw "niter_rig") (fun niter_rig =>
  if niter_rig <? 1 then Err ConfigurationError else
  rbind (kw_int kw "splits_rig") (fun splits_rig =>
  if splits_rig <? 1 then Err ConfigurationError else
  Ok {| st_data := data;
        st_frames := T;
        st_config := kw;
        st_pw_rigid := pw_rigid;
        st_splits_rig := splits_rig;
        st_shifts_rig := [];
        st_x_shifts_els := [];
        st_y_shifts_els := [] |}))))).

(** Modelled from the spec: the RigidCorrector (section 4.4) over the
    chunks of the plan: every frame of every chunk is registered
    against the template, one displacement per frame, in frame
    order; an engine failure is fatal (section 7). *)
Definition rigid_correct (data template : ndarray) (chunks : list chunk)
  : result (list (Q * Q)) :=
  rbind (mapM (fun c => mapM (fun t => register (frame data t) template)
                             (chunk_frames c)) chunks)
        (fun per_chunk => Ok (concat per_chunk)).

(** Modelled from the spec: the PiecewiseRigidCorrector (section 4.5),
    one displacement field per frame. *)
Definition patch_correct (data template : ndarray) (kw : gmap string pyval)
    (chunks : list chunk) : result (list (list (Q * Q))) :=
  rbind (mapM (fun c => mapM (fun t => register_patches (frame data t) template kw)
                             (chunk_frames c)) chunks)
        (fun per_chunk => Ok (concat per_chunk)).

(** Modelled from the spec: the missing [motion_correct] method: the
    template is estimated, all chunks are registered rigidly and, with
    [pw_rigid], patch by patch (sections 4.3 to 4.7). The engine is
    given the chunk count [splits_rig]. *)
Definition motion_correct (s : state) (template : option ndarray)
    (save_movie : bool) : result (state * ((ndarray * gmap string pyval) * option string)) :=
  let tmpl := estimate_template (st_data s) (st_config s) template in
  let chunks := chunks_for_count (st_frames s) (st_splits_rig s) in
  rbind (rigid_correct (st_data s) tmpl chunks) (fun rigid =>
  rbind (if st_pw_rigid s
         then patch_correct (st_data s) tmpl (st_config s) chunks
         else Ok []) (fun fields =>
  Ok ({| st_data := st_data s;
         st_frames := st_frames s;
         st_config := st_config s;
         st_pw_rigid := st_pw_rigid s;
         st_splits_rig := st_splits_rig s;
         st_shifts_rig := CorrectStack.record_row <$> rigid;
         st_x_shifts_els := map (map snd) fields;
         st_y_shifts_els := map (map fst) fields |},
      ((tmpl, st_config s), if save_movie then Some movie_file else None)))).

Definition MotionCorrect : MotionCorrectClass :=
  {| corrector := state;
     frame_corrector := (ndarray * gmap string pyval)%type;
     mc_init := init;
     mc_motion_correct := motion_correct;
     shifts_rig := st_shifts_rig;
     x_shifts_els := st_x_shifts_els;
     y_shifts_els := st_y_shifts_els |}.

End Engine.

End SpecModel.

(* ===================================================================== *)
(** * Small concrete inputs                                               *)
(* ===================================================================== *)

Module Toy.

(** An engine whose registration finds the displacement [(1, 2)] on
    every frame and two patches per frame. *)
Definition engine : MotionCorrectClass :=
  SpecModel.MotionCorrect
    (fun data _ _ => zeros (tail (shape data)))
    (fun _ _ => Ok (1, 2)%Q)
    (fun _ _ _ => Ok [(1, 2); (3, 4)]%Q)
    "registered.tif".

(** A stack of 2 frames of 3 by 2 pixels, in [(x, y, t)] order. *)
Definition stack : ndarray := zeros [3; 2; 2].

(** A lazy dataset of 10 frames of 64 by 64 pixels. *)
Definition dataset : ndarray := zeros [10; 64; 64].

Definition pipeline_args (pw_rigid : bool) (strides overlaps : Z) : Demo.args :=
  {| Demo.lazy_dataset := dataset;
     Demo.outdir := "out";
     Demo.max_shifts := PyTuple [PyInt 6; PyInt 6];
     Demo.max_deviation_rigid := PyInt 3;
     Demo.frames_per_split := 4;
     Demo.num_splits_to_process_els := 5;
     Demo.num_splits_to_process_rig := 5;
     Demo.pw_rigid := pw_rigid;
     Demo.strides := PyTuple [PyInt strides; PyInt strides];
     Demo.overlaps := PyTuple [PyInt overlaps; PyInt overlaps];
     Demo.niter_rig := PyInt 4;
     Demo.gSig_filt := PyNone;
     Demo.save_movie := true;
     Demo.template := None |}.

End Toy.

(* ===================================================================== *)
(** * More of numpy: slices and assignment                                *)
(* ===================================================================== *)

Module NpSlice.

(** The bounds a slice [start:stop] selects on an axis of length [n]:
    a negative bound counts from the end, every bound is clipped to
    [0, n], a missing bound is the end of the axis on its side. *)
Definition clip_index (n v : Z) : Z :=
  if v <? 0 then Z.max 0 (v + n) else Z.min v n.

Definition slice_bounds (n : Z) (start stop : option Z) : Z * Z :=
  (match start with Some v => clip_index n v | None => 0 end,
   match stop with Some v => clip_index n v | None => n end).

(** The number of entries between the bounds. *)
Definition slice_len (b : Z * Z) : Z := Z.max 0 (snd b - fst b).

(** Assignment broadcasts a source of the rank of its target: each
    source dimension is the target's or 1. *)
Fixpoint broadcastable (src tgt : list Z) : bool :=
  match src, tgt with
  | [], [] => true
  | r :: src', t :: tgt' => ((r =? t) || (r =? 1)) && broadcastable src' tgt'
  | _, _ => false
  end.

(** The source entry that lands on a target index. *)
Fixpoint bcast_index (src idx : list Z) : list Z :=
  match src, idx with
  | r :: src', i :: idx' => (if r =? 1 then 0 else i) :: bcast_index src' idx'
  | _, _ => []
  end.

(** [a.transpose(1, 2, 0)]: a 3-D array with its first axis moved last. *)
Definition transpose_120 (a : ndarray) : result ndarray :=
  match shape a with
  | [s0; s1; s2] =>
      Ok {| shape := [s1; s2; s0];
            item := fun idx =>
              match idx with
              | [i; j; k] => item a [k; i; j]
              | _ => 0%Q
              end |}
  | _ => Err ValueError
  end.

(** [a[:, :, f].T]: frame [f] along the third axis (a negative [f]
    counts from the end), with its axes reversed. *)
Definition take_frame (a : ndarray) (f : Z) : result ndarray :=
  match shape a with
  | n0 :: n1 :: n2 :: rest =>
      if (- n2 <=? f) && (f <? n2) then
        let f' := if f <? 0 then f + n2 else f in
        Ok (ndarray_T
              {| shape := n0 :: n1 :: rest;
                 item := fun idx =>
                   match idx with
                   | i :: j :: r => item a (i :: j :: f' :: r)
                   | _ => 0%Q
                   end |})
      else Err IndexError
  | _ => Err IndexError
  end.

End NpSlice.
Export NpSlice.

(* ===================================================================== *)
(** * jnormcorre/utils/diagnostics.py                                     *)
(* ===================================================================== *)

Module Diagnostics.

Section WithTifffile.
(** [tifffile.imread(file)] and [tifffile.imread(file, key=frame_list)],
    and the conversion of an entry to [np.float32]. *)
Variable imread : string -> option (list Z) -> result ndarray.
Variable float32 : Q -> Q.

(** [dst[:, start:stop, :] = src] on a 3-D [dst] of [float32]. *)
Definition assign_columns (dst : ndarray) (start stop : option Z) (src : ndarray)
  : result ndarray :=
  match shape dst with
  | [n0; n1; n2] =>
      let b := slice_bounds n1 start stop in
      if broadcastable (shape src) [n0; slice_len b; n2] then
        Ok {| shape := shape dst;
              item := fun idx =>
                match idx with
                | [x; y; t] =>
                    if (fst b <=? y) && (y <? snd b)
                    then float32 (item src (bcast_index (shape src) [x; y - fst b; t]))
                    else item dst idx
                | _ => item dst idx
                end |}
      else Err ValueError
  | _ => Err IndexError
  end.

Definition motion_correction_diagnostic
    (original_file registered_file : string) (frame_list : option (list Z))
  : result ndarray :=
  rbind (rbind (imread original_file frame_list) transpose_120) (fun original_movie =>
  rbind (rbind (imread registered_file frame_list) transpose_120) (fun registered_movie =>
  rbind (unpack3 (shape original_movie)) (fun '(d1, d2, T) =>
  let display_movie := zeros [d1; d2 * 2; T] in
  rbind (assign_columns display_movie None (Some d2) original_movie) (fun display_movie =>
  rbind (assign_columns display_movie (Some d2) None registered_movie) (fun display_movie =>
  Ok display_movie))))).

End WithTifffile.

End Diagnostics.

(* ===================================================================== *)
(** * The plots of jnormcorre/utils/simulate.py                           *)
(* ===================================================================== *)

Module SimulatePlots.

(** What the plotting functions ask of matplotlib: a grid of axes, a
    title on the axes at a position, an image on the axes at a position. *)
Inductive plot_call : Type :=
| Subplots (rows cols : nat)
| SetTitle (ax : list nat) (title : Z)
| Imshow (ax : list nat) (image : ndarray).

Definition plot (A : Type) : Type := (list plot_call * result A)%type.

Definition plot_bind {A B} (m : plot A) (f : A -> plot B) : plot B :=
  match m with
  | (l, Ok a) => let '(l', r) := f a in (l ++ l', r)
  | (l, Err e) => (l, Err e)
  end.

Definition draw (c : plot_call) : plot unit := ([c], Ok tt).
Definition plot_lift {A} (r : result A) : plot A := ([], r).
Definition plot_ret {A} (a : A) : plot A := ([], Ok a).

(** [dat.shape[2]]. *)
Definition shape2 (dat : ndarray) : result Z :=
  match shape dat with
  | _ :: _ :: n2 :: _ => Ok n2
  | _ => Err IndexError
  end.

(** [np.linspace(0, nt - 1, n, endpoint=True).astype(int)]. *)
Definition frame_indices (nt : Z) (n : nat) : list Z :=
  py_int <$> Simulate.linspace 0 (inject_Z (nt - 1)) n.

(** A [for] loop over [enumerate(xs)], from position [i]. *)
Fixpoint for_each {A} (body : nat -> A -> plot unit) (i : nat) (xs : list A)
  : plot unit :=
  match xs with
  | [] => plot_ret tt
  | x :: xs' => plot_bind (body i x) (fun _ => for_each body (S i) xs')
  end.

(** [plot_test_data(dat, axs)], with [axs] a 1-D array of axes given by
    its length; it returns [axs]. *)
Definition plot_test_data (dat : ndarray) (axs : option nat) : plot nat :=
  plot_bind (match axs with
             | None => plot_bind (draw (Subplots 1 4)) (fun _ => plot_ret 4%nat)
             | Some n => plot_ret n
             end) (fun axs =>
  plot_bind (plot_lift (shape2 dat)) (fun nt =>
  plot_bind (for_each (fun i frame_i =>
               plot_bind (draw (SetTitle [i] frame_i)) (fun _ =>
               plot_bind (plot_lift (take_frame dat frame_i)) (fun image =>
               draw (Imshow [i] image))))
             0 (frame_indices nt axs)) (fun _ =>
  plot_ret axs))).

(** [axs[r, c]] on a grid of axes. *)
Definition axes_at (grid : nat * nat) (r c : nat) : result (list nat) :=
  if (r <? fst grid)%nat && (c <? snd grid)%nat then Ok [r; c] else Err IndexError.

(** [plot_test_data_and_corrected_test_data(dat, dat_corr, axs)], with
    [axs] a 2-D array of axes given by its numbers of rows and columns;
    [len(axs)] is its number of rows. *)
Definition plot_test_data_and_corrected_test_data
    (dat dat_corr : ndarray) (axs : option (nat * nat)) : plot (nat * nat) :=
  plot_bind (match axs with
             | None => plot_bind (draw (Subplots 2 4)) (fun _ => plot_ret (2, 4)%nat)
             | Some g => plot_ret g
             end) (fun axs =>
  plot_bind (plot_lift (shape2 dat)) (fun nt =>
  plot_bind (for_each (fun i frame_i =>
               plot_bind (plot_lift (axes_at axs 0 i)) (fun ax0 =>
               plot_bind (draw (SetTitle ax0 frame_i)) (fun _ =>
               plot_bind (plot_lift (axes_at axs 0 i)) (fun ax0 =>
               plot_bind (plot_lift (take_frame dat frame_i)) (fun image =>
               plot_bind (draw (Imshow ax0 image)) (fun _ =>
               plot_bind (plot_lift (axes_at axs 1 i)) (fun ax1 =>
               plot_bind (plot_lift (take_frame dat_corr frame_i)) (fun image =>
               draw (Imshow ax1 image)))))))))
             0 (frame_indices nt (fst axs))) (fun _ =>
  plot_ret axs))).

(** The titles and the images of a log, each with its axes. *)
Definition titles (l : list plot_call) : list (list nat * Z) :=
  omap (fun c => match c with SetTitle ax t => Some (ax, t) | _ => None end) l.

Definition images (l : list plot_call) : list (list nat * ndarray) :=
  omap (fun c => match c with Imshow ax image => Some (ax, image) | _ => None end) l.

(** The grid positions a log draws on. *)
Definition drawn_on (c : plot_call) : list (list nat) :=
  match c with
  | Subplots _ _ => []
  | SetTitle ax _ | Imshow ax _ => [ax]
  end.

End SimulatePlots.

(* ===================================================================== *)
(** * Reading the call log                                                *)
(* ===================================================================== *)

Module CallLog.




(** An engine that accepts everything and holds the given records. *)
Definition recording_engine (records : list (list Q)) : MotionCorrectClass :=
  {| corrector := unit;
     frame_corrector := unit;
     mc_init := fun _ _ => Ok tt;
     mc_motion_correct := fun _ _ _ => Ok (tt, (tt, None));
     shifts_rig := fun _ => records;
     x_shifts_els := fun _ => [];
     y_shifts_els := fun _ => [] |}.

End CallLog.

(* ===================================================================== *)
(** * Vocabulary for the statements                                       *)
(* ===================================================================== *)

Module Vocabulary.

(** A float other than zero. *)
Definition nonzero (q : Q) : Prop := ~ (q == 0)%Q.

(** A 1-D array of two entries as a pair. *)
Definition row_pair (row : list Q) : Q * Q := (nth 0 row 0%Q, nth 1 row 0%Q).

(** A sequence of [n] integers that starts at 0 (when not empty), ends
    at [top] (when it has two entries or more), never decreases and stays
    within [0, top]. *)
Definition rises_to (top : Z) (n : nat) (l : list Z) : Prop :=
  length l = n
  /\ (forall (i : nat) (v : Z), l !! i = Some v -> 0 <= v <= top)
  /\ (forall (i j : nat) (v w : Z),
        (i <= j)%nat -> l !! i = Some v -> l !! j = Some w -> v <= w)
  /\ ((1 <= n)%nat -> l !! 0%nat = Some 0)
  /\ ((2 <= n)%nat -> l !! (n - 1)%nat = Some top).

End Vocabulary.
Export Vocabulary.

(* ===================================================================== *)
(** * A configuration without a chunk length                              *)
(* ===================================================================== *)

Module Edge.

(** [Toy.pipeline_args] with [frames_per_split=0]. *)
Definition zero_split_args (pw_rigid : bool) (strides overlaps : Z) : Demo.args :=
  {| Demo.lazy_dataset := Toy.dataset;
     Demo.outdir := "out";
     Demo.max_shifts := PyTuple [PyInt 6; PyInt 6];
     Demo.max_deviation_rigid := PyInt 3;
     Demo.frames_per_split := 0;
     Demo.num_splits_to_process_els := 5;
     Demo.num_splits_to_process_rig := 5;
     Demo.pw_rigid := pw_rigid;
     Demo.strides := PyTuple [PyInt strides; PyInt strides];
     Demo.overlaps := PyTuple [PyInt overlaps; PyInt overlaps];
     Demo.niter_rig := PyInt 4;
     Demo.gSig_filt := PyNone;
     Demo.save_movie := true;
     Demo.template := None |}.

End Edge.

(* ===================================================================== *)
(** * The data of jnormcorre/utils/simulate.py                            *)
(* ===================================================================== *)

Module SimulateData.

Section WithGenerator.
(** numpy's global generator: its state after [np.random.seed(seed)],
    and the entries and the next state that a draw of a given size
    yields, for [np.random.uniform(low, high, size)] and
    [np.random.normal(loc, scale, size)]. *)
Variable rng : Type.
Variable seed_rng : Z -> rng.
Variable uniform : rng -> Q -> Q -> list Z -> (list Z -> Q) * rng.
Variable normal : rng -> Q -> Q -> list Z -> (list Z -> Q) * rng.

(** [np.random.seed(seed)]: the seed is between 0 and 2**32 - 1. *)
Definition np_random_seed (seed : Z) : result rng :=
  if (0 <=? seed) && (seed <? 2 ^ 32) then Ok (seed_rng seed) else Err ValueError.

(** [np.random.uniform(low, high, size)]: no dimension is negative. *)
Definition np_random_uniform (g : rng) (low high : Q) (size : list Z)
  : result (ndarray * rng) :=
  if forallb (Z.leb 0) size
  then Ok ({| shape := size; item := fst (uniform g low high size) |},
           snd (uniform g low high size))
  else Err ValueError.

(** [np.random.normal(loc, scale, size)]: the scale is not negative, and
    no dimension is. *)
Definition np_random_normal (g : rng) (loc scale : Q) (size : list Z)
  : result (ndarray * rng) :=
  if Qle_bool 0 scale && forallb (Z.leb 0) size
  then Ok ({| shape := size; item := fst (normal g loc scale size) |},
           snd (normal g loc scale size))
  else Err ValueError.

(** Whether [v] is among the entries that the bounds [b] select. *)
Definition selects (b : Z * Z) (v : Z) : bool := (fst b <=? v) && (v <? snd b).

(** [dst[x0:x1, y0:y1, i] = src] on a 3-D [dst], for a frame [i] counted
    from the start. *)
Definition assign_patch (dst : ndarray) (x0 x1 y0 y1 : Z) (i : nat) (src : ndarray)
  : result ndarray :=
  match shape dst with
  | [n0; n1; n2] =>
      if Z.of_nat i <? n2 then
        let bx := slice_bounds n0 (Some x0) (Some x1) in
        let by_ := slice_bounds n1 (Some y0) (Some y1) in
        if broadcastable (shape src) [slice_len bx; slice_len by_] then
          Ok {| shape := shape dst;
                item := fun idx =>
                  match idx with
                  | [x; y; t] =>
                      if selects bx x && selects by_ y && (t =? Z.of_nat i)
                      then item src (bcast_index (shape src) [x - fst bx; y - fst by_])
                      else item dst idx
                  | _ => item dst idx
                  end |}
        else Err ValueError
      else Err IndexError
  | _ => Err IndexError
  end.

(** The inner loop of [create_test_data] on frame [i]: one draw and one
    assignment per pair of offsets. *)
Fixpoint place_patches (sx sy : Z) (noise_std : Q) (i : nat) (shift_x shift_y : Z)
    (offs : list (Z * Z)) (st : ndarray * rng) : result (ndarray * rng) :=
  match offs with
  | [] => Ok st
  | (offx, offy) :: offs' =>
      rbind (np_random_normal (snd st) 1 noise_std [sx; sy]) (fun '(patch, g) =>
      rbind (assign_patch (fst st)
               (offx + shift_x) (offx + shift_x + sx)
               (offy + shift_y) (offy + shift_y + sy) i patch) (fun dat =>
      place_patches sx sy noise_std i shift_x shift_y offs' (dat, g)))
  end.

(** The outer loop, over [enumerate(zip(shifts_x, shifts_y))] from
    frame [i]. *)
Fixpoint place_frames (sx sy : Z) (noise_std : Q) (offs : list (Z * Z)) (i : nat)
    (shifts : list (Z * Z)) (st : ndarray * rng) : result (ndarray * rng) :=
  match shifts with
  | [] => Ok st
  | (shift_x, shift_y) :: shifts' =>
      rbind (place_patches sx sy noise_std i shift_x shift_y offs st)
            (place_frames sx sy noise_std offs (S i) shifts')
  end.

(** [create_test_data(nx, ny, nt, sx, sy, offxs, offys, maxx, maxy,
    noise_std, seed)]. *)
Definition create_test_data (nx ny : Z) (nt : nat) (sx sy : Z) (offxs offys : list Z)
    (maxx maxy noise_std : Q) (seed : Z) : result (ndarray * list Z * list Z) :=
  rbind (np_random_seed seed) (fun g =>
  rbind (np_random_uniform g 0 noise_std [nx; ny; Z.of_nat nt]) (fun st =>
  let shifts_x := Simulate.shift_profile maxx nt in
  let shifts_y := Simulate.shift_profile maxy nt in
  rbind (place_frames sx sy noise_std (zip offxs offys) 0
           (zip shifts_x shifts_y) st) (fun st =>
  Ok (fst st, shifts_x, shifts_y)))).

(** The generator after [k] more draws of patches. *)
Fixpoint rng_after (sx sy : Z) (noise_std : Q) (k : nat) (g : rng) : rng :=
  match k with
  | O => g
  | S k' => snd (normal (rng_after sx sy noise_std k' g) 1 noise_std [sx; sy])
  end.

(** The background, and the generator after it is drawn. *)
Definition background (nx ny : Z) (nt : nat) (noise_std : Q) (seed : Z)
  : (list Z -> Q) * rng :=
  uniform (seed_rng seed) 0 noise_std [nx; ny; Z.of_nat nt].

End WithGenerator.

(** Pixel [(x, y)] lies on the patch of [sx] by [sy] pixels whose corner
    is [(a, c)]. *)
Definition on_patch (sx sy a c x y : Z) : Prop :=
  a <= x < a + sx /\ c <= y < c + sy.

End SimulateData.
(* ===================================================================== *)
(** * The definitions on small inputs                                     *)
(* ===================================================================== *)

Example py_int_pos : py_int (7 # 2) = 3. Proof. reflexivity. Qed.
Example py_int_neg : py_int (-7 # 2) = -3. Proof. reflexivity. Qed.
Example py_round_half_even : map py_round [1 # 2; 3 # 2; 5 # 2; -1 # 2]%Q = [0; 2; 2; 0].
Proof. reflexivity. Qed.
Example int_div_zip_demo : int_div_zip [12; 12]%Q [2; 2]%Q = Ok [6; 6].
Proof. reflexivity. Qed.
Example main_parameters_physical :
  Demo.main_parameters true =
  Ok {| Demo.p_max_shifts := PyList [PyInt 6; PyInt 6];
        Demo.p_pw_rigid := true;
        Demo.p_strides := PyTuple [PyInt 25; PyInt 25];
        Demo.p_overlaps := PyTuple [PyInt 6; PyInt 6] |}.
Proof. reflexivity. Qed.
Example shift_profile_small : Simulate.shift_profile 10 5 = [0; 2; 5; 8; 10].
Proof. reflexivity. Qed.
Example corr_exceeds_affine :
  Simulate.corr_exceeds (95 # 100) [0; 1; 2; 3]%Q [1; 3; 5; 7]%Q = true.
Proof. reflexivity. Qed.
Example plan_10_4 : SpecModel.plan 10 4 = [(0, 4); (4, 8); (8, 10)].
Proof. reflexivity. Qed.
Example plan_8_4 : SpecModel.plan 8 4 = [(0, 4); (4, 8)].
Proof. reflexivity. Qed.
Example qfloor_neg : Qfloor (-7 # 2) = -4. Proof. reflexivity. Qed.
Example unpack_shifts_three :
  CorrectStack.unpack_shifts [[1; 2]; [3; 4]; [5; 6]]%Q
  = Ok ([-2 # 1; -4 # 1; -6 # 1], [-1 # 1; -3 # 1; -5 # 1]).
Proof. reflexivity. Qed.
Example unpack_shifts_empty : CorrectStack.unpack_shifts [] = Err ValueError.
Proof. reflexivity. Qed.
Example unpack_shifts_triples :
  CorrectStack.unpack_shifts [[1; 2; 3]; [4; 5; 6]]%Q = Err ValueError.
Proof. reflexivity. Qed.
Example translate_zero_pixel :
  CorrectStack.translate
    (CorrectStack.with_defaults Toy.stack (CorrectStack.Scalar 0))
  = Err ZeroDivisionError.
Proof. reflexivity. Qed.
Example configure_flat_stack :
  CorrectStack.configure
    (CorrectStack.with_defaults (zeros [3; 2]) (CorrectStack.Scalar 1))
  = Err ValueError.
Proof. reflexivity. Qed.
Example compute_shifts_toy :
  outcome (CorrectStack.compute_shifts Toy.engine
             (CorrectStack.with_defaults Toy.stack (CorrectStack.Scalar 1)))
  = Ok ([-2 # 1; -2 # 1], [-1 # 1; -1 # 1]).
Proof. reflexivity. Qed.
Example pipeline_toy_completes :
  is_ok (outcome (Demo.motion_correct_pipeline Toy.engine
                    (Toy.pipeline_args false 30 10))) = true
  /\ length (calls (Demo.motion_correct_pipeline Toy.engine
                      (Toy.pipeline_args false 30 10))) = 8%nat.
Proof. split; reflexivity. Qed.
Example pipeline_toy_rigid_geometry_unchecked :
  is_ok (outcome (Demo.motion_correct_pipeline Toy.engine
                    (Toy.pipeline_args false 48 16))) = true.
Proof. reflexivity. Qed.
Example pipeline_toy_rejected :
  outcome (Demo.motion_correct_pipeline Toy.engine (Toy.pipeline_args true 48 16))
  = Err ConfigurationError.
Proof. reflexivity. Qed.
Example chunks_for_count_9_3 :
  SpecModel.chunks_for_count 9 3 = [(0, 3); (3, 6); (6, 9)].
Proof. reflexivity. Qed.

(* ===================================================================== *)
(** * Chunk planning                                                      *)
(* ===================================================================== *)

Section ChunkPlanning.
Import SpecModel.

Lemma py_truediv_nonzero (a b : Z) :
  b <> 0 -> py_truediv (inject_Z a) (inject_Z b) = Ok (inject_Z a / inject_Z b)%Q.
Proof.
  intros Hb. unfold py_truediv.
  destruct (Qeq_bool (inject_Z b) 0) eqn:E; [|reflexivity].
  apply Qeq_bool_eq in E. unfold Qeq in E. simpl in E. lia.
Qed.

Lemma py_ceil_div (a b : Z) :
  py_ceil (inject_Z a / inject_Z b) = ceil_div a b.
Proof.
  unfold py_ceil, Qceiling, ceil_div. f_equal.
  rewrite Zdiv_Qdiv. apply Qfloor_comp.
  rewrite inject_Z_opp. unfold Qdiv. ring.
Qed.

(** [ceil_div T f] is the least [n] with [T <= n * f]. *)
Lemma ceil_div_bounds (T f : Z) :
  0 < f -> (ceil_div T f - 1) * f < T <= ceil_div T f * f.
Proof.
  intros Hf. unfold ceil_div.
  pose proof (Z.div_mod (- T) f ltac:(lia)) as E.
  pose proof (Z.mod_pos_bound (- T) f Hf) as B.
  nia.
Qed.

Lemma ceil_div_unique (T f n : Z) :
  0 < f -> (n - 1) * f < T <= n * f -> n = ceil_div T f.
Proof.
  intros Hf Hn. pose proof (ceil_div_bounds T f Hf). nia.
Qed.

Lemma ceil_div_nonneg (T f : Z) : 0 <= T -> 0 < f -> 0 <= ceil_div T f.
Proof. intros HT Hf. pose proof (ceil_div_bounds T f Hf). nia. Qed.

Lemma ceil_div_pos (T f : Z) : 0 < T -> 0 < f -> 0 < ceil_div T f.
Proof. intros HT Hf. pose proof (ceil_div_bounds T f Hf). nia. Qed.

Lemma demo_num_chunks_ceil (T f : Z) :
  f <> 0 -> Demo.num_chunks T f = Ok (ceil_div T f).
Proof.
  intros Hf. unfold Demo.num_chunks.
  rewrite py_truediv_nonzero by assumption. simpl. by rewrite py_ceil_div.
Qed.

Lemma stack_num_chunks_ceil (T f : Z) :
  f <> 0 -> CorrectStack.num_chunks T f = Ok (ceil_div T f).
Proof.
  intros Hf. unfold CorrectStack.num_chunks.
  rewrite py_truediv_nonzero by assumption. simpl. by rewrite py_ceil_div.
Qed.

Lemma plan_prefix (T f : Z) (k : nat) :
  0 < f -> Z.of_nat k <= ceil_div T f ->
  concat (chunk_frames <$> (nth_chunk T f <$> seqZ 0 (Z.of_nat k)))
  = seqZ 0 (Z.min (Z.of_nat k * f) T).
Proof.
  intros Hf. pose proof (ceil_div_bounds T f Hf) as B.
  induction k as [|k IH]; intros Hk.
  - change (Z.of_nat 0) with 0. rewrite (seqZ_nil 0 0) by lia.
    symmetry. apply seqZ_nil. lia.
  - rewrite seqZ_S, !fmap_app, concat_app, IH by lia. simpl.
    rewrite app_nil_r. unfold chunk_frames, chunk_len, nth_chunk. simpl.
    assert (Z.of_nat k * f < T) by nia.
    rewrite Z.min_l by lia.
    rewrite <- (seqZ_app 0) by lia. f_equal. lia.
Qed.

Lemma plan_partition (T f : Z) :
  0 <= T -> 0 < f -> concat (chunk_frames <$> plan T f) = seqZ 0 T.
Proof.
  intros HT Hf. unfold plan.
  pose proof (ceil_div_nonneg T f HT Hf) as Hn.
  pose proof (ceil_div_bounds T f Hf) as B.
  rewrite <- (Z2Nat.id (ceil_div T f)) at 1 by lia.
  rewrite plan_prefix by lia. f_equal. lia.
Qed.

Lemma plan_length (T f : Z) : length (plan T f) = Z.to_nat (ceil_div T f).
Proof. unfold plan. by rewrite length_fmap, length_seqZ. Qed.

Lemma plan_chunk_sizes (T f : Z) :
  0 < f -> Forall (fun c => 0 < chunk_len c <= f) (plan T f).
Proof.
  intros Hf. pose proof (ceil_div_bounds T f Hf) as B.
  unfold plan. apply Forall_fmap, Forall_forall. intros i Hi.
  apply elem_of_seqZ in Hi. unfold chunk_len. simpl. nia.
Qed.

(** A chunk count made by [ceil_div] is recovered from the chunk length
    it induces, which does not exceed the requested length. *)
Lemma ceil_div_count (T f : Z) :
  0 < T -> 0 < f ->
  ceil_div T (ceil_div T f) <= f
  /\ ceil_div T (ceil_div T (ceil_div T f)) = ceil_div T f.
Proof.
  intros HT Hf.
  pose proof (ceil_div_bounds T f Hf) as Bn.
  pose proof (ceil_div_pos T f HT Hf) as Hn.
  pose proof (ceil_div_bounds T (ceil_div T f) Hn) as Bs.
  pose proof (ceil_div_pos T (ceil_div T f) HT Hn) as Hs.
  assert (ceil_div T (ceil_div T f) <= f) as Hle by nia.
  split; [exact Hle|].
  symmetry. apply ceil_div_unique; [exact Hs|]. nia.
Qed.

(** C1. For every frame count [T > 0] and every [frames_per_split > 0],
    the chunk count both entry points compute is [ceil(T /
    frames_per_split)] (the least [n] with [T <= n * frames_per_split]);
    the plan for that chunk length, and the chunks an engine makes from
    that count, each have that many chunks, every chunk non-empty and at
    most [frames_per_split] long, and their frame ranges laid end to end
    are exactly [0, 1, ..., T - 1]: contiguous, with no gap and no
    overlap. *)
Theorem chunk_plan_partitions (T frames_per_split : Z) :
  0 < T -> 0 < frames_per_split ->
  exists n : Z,
    Demo.num_chunks T frames_per_split = Ok n
    /\ CorrectStack.num_chunks T frames_per_split = Ok n
    /\ (n - 1) * frames_per_split < T <= n * frames_per_split
    /\ Forall (fun chunks =>
                 length chunks = Z.to_nat n
                 /\ concat (chunk_frames <$> chunks) = seqZ 0 T
                 /\ Forall (fun c => 0 < chunk_len c <= frames_per_split) chunks)
              [plan T frames_per_split; chunks_for_count T n].
Proof.
  intros HT Hf. exists (ceil_div T frames_per_split).
  split; [apply demo_num_chunks_ceil; lia|].
  split; [apply stack_num_chunks_ceil; lia|].
  split; [by apply ceil_div_bounds|].
  destruct (ceil_div_count T frames_per_split HT Hf) as [Hle Hcnt].
  pose proof (ceil_div_pos T frames_per_split HT Hf) as Hn.
  pose proof (ceil_div_pos T _ HT Hn) as Hs.
  repeat constructor.
  - apply plan_length.
  - apply plan_partition; lia.
  - by apply plan_chunk_sizes.
  - unfold chunks_for_count. by rewrite plan_length, Hcnt.
  - unfold chunks_for_count. apply plan_partition; lia.
  - unfold chunks_for_count.
    eapply Forall_impl; [by apply plan_chunk_sizes|].
    simpl. intros c ?. lia.
Qed.

Lemma chunk_plan_partitions_witness :
  exists n : Z,
    Demo.num_chunks 9 4 = Ok n
    /\ CorrectStack.num_chunks 9 4 = Ok n
    /\ (n - 1) * 4 < 9 <= n * 4
    /\ Forall (fun chunks =>
                 length chunks = Z.to_nat n
                 /\ concat (chunk_frames <$> chunks) = seqZ 0 9
                 /\ Forall (fun c => 0 < chunk_len c <= 4) chunks)
              [plan 9 4; chunks_for_count 9 n].
Proof. apply (chunk_plan_partitions 9 4); lia. Defined.

End ChunkPlanning.


(* ===================================================================== *)
(** * Sampling counts                                                     *)
(* ===================================================================== *)

Section SamplingCounts.

Lemma py_min_spec (a b : Z) : py_min a b = Z.min a b.
Proof. unfold py_min. destruct (Z.ltb_spec b a); lia. Qed.

Lemma demo_mc_dict_rig (a : Demo.args) (n : Z) :
  Demo.mc_dict a n !! "num_splits_to_process_rig"
  = Some (PyInt (py_min (Demo.num_splits_to_process_rig a) n)).
Proof. unfold Demo.mc_dict. by simplify_map_eq. Qed.

Lemma demo_mc_dict_els (a : Demo.args) (n : Z) :
  Demo.mc_dict a n !! "num_splits_to_process_els"
  = Some (PyInt (py_min (Demo.num_splits_to_process_els a) n)).
Proof. unfold Demo.mc_dict. by simplify_map_eq. Qed.

(** The pipeline reaches the constructor with the dictionary of
    [Demo.mc_dict] whenever the chunk count can be computed. *)
Lemma pipeline_reaches_init (E : MotionCorrectClass) (a : Demo.args) (T n : Z) :
  Demo.total_frames (Demo.lazy_dataset a) = Ok T ->
  Demo.num_chunks T (Demo.frames_per_split a) = Ok n ->
  exists rest,
    calls (Demo.motion_correct_pipeline E a)
    = CallDisplay "Running motion correction..."
      :: CallDisplay ("Number of chunks is " +:+ pretty n)
      :: CallInit (Demo.lazy_dataset a) (Demo.mc_dict a n) :: rest.
Proof.
  intros HT Hn.
  unfold Demo.motion_correct_pipeline, calls, Demo.display, emit, lift, run_bind, run_ret.
  rewrite HT, Hn. simpl.
  destruct (mc_init E _ _) as [c|e]; simpl; [|by eexists].
  destruct (mc_motion_correct E c _ _) as [[c' [o t]]|e]; simpl; by eexists.
Qed.

(** C2. For every requested sampling count and every chunk count, the
    [num_splits_to_process_rig] and [num_splits_to_process_els] entries the
    pipeline hands to the constructor never exceed the chunk count, equal
    the request when the request is at most the chunk count, and equal the
    chunk count when the request is larger; the clipping raises nothing:
    whatever the requests, the pipeline goes on to call the constructor
    with that dictionary. *)
Theorem sampling_counts_saturate (a : Demo.args) (num_chunks : Z) :
  exists rig els : Z,
    Demo.mc_dict a num_chunks !! "num_splits_to_process_rig" = Some (PyInt rig)
    /\ Demo.mc_dict a num_chunks !! "num_splits_to_process_els" = Some (PyInt els)
    /\ rig <= num_chunks /\ els <= num_chunks
    /\ (Demo.num_splits_to_process_rig a <= num_chunks ->
        rig = Demo.num_splits_to_process_rig a)
    /\ (Demo.num_splits_to_process_els a <= num_chunks ->
        els = Demo.num_splits_to_process_els a)
    /\ (num_chunks < Demo.num_splits_to_process_rig a -> rig = num_chunks)
    /\ (num_chunks < Demo.num_splits_to_process_els a -> els = num_chunks)
    /\ (forall (E : MotionCorrectClass) (T : Z),
          Demo.total_frames (Demo.lazy_dataset a) = Ok T ->
          Demo.num_chunks T (Demo.frames_per_split a) = Ok num_chunks ->
          In (CallInit (Demo.lazy_dataset a) (Demo.mc_dict a num_chunks))
             (calls (Demo.motion_correct_pipeline E a))).
Proof.
  exists (py_min (Demo.num_splits_to_process_rig a) num_chunks),
         (py_min (Demo.num_splits_to_process_els a) num_chunks).
  rewrite demo_mc_dict_rig, demo_mc_dict_els, !py_min_spec.
  repeat split; try lia.
  intros E T HT Hn.
  destruct (pipeline_reaches_init E a T num_chunks HT Hn) as [rest ->].
  simpl. auto.
Qed.

End SamplingCounts.


(* ===================================================================== *)
(** * Parameter translation                                               *)
(* ===================================================================== *)

Section ParameterTranslation.
Import CorrectStack.

(** On a non-negative float, truncation toward zero is the floor. *)
Lemma py_int_floor (x : Q) : (0 <= x)%Q -> py_int x = Qfloor x.
Proof.
  destruct x as [n d]. unfold Qle, py_int, Qfloor. simpl. intros H.
  apply Z.quot_div_nonneg; lia.
Qed.

Lemma Qdiv_nonneg (a b : Q) : (0 <= a)%Q -> (0 < b)%Q -> (0 <= a / b)%Q.
Proof.
  intros Ha Hb. apply Qle_shift_div_l; [assumption|].
  by rewrite Qmult_0_l.
Qed.

Lemma py_truediv_pos (a b : Q) : (0 < b)%Q -> py_truediv a b = Ok (a / b)%Q.
Proof.
  intros Hb. unfold py_truediv.
  destruct (Qeq_bool b 0) eqn:E; [|reflexivity].
  apply Qeq_bool_eq in E. rewrite E in Hb. by apply Qlt_irrefl in Hb.
Qed.

Lemma py_int_ceiling (x : Q) : (x <= 0)%Q -> py_int x = Qceiling x.
Proof.
  destruct x as [n d]. unfold Qle, py_int, Qceiling, Qfloor. simpl. intros H.
  rewrite <- (Z.opp_involutive n) at 1.
  rewrite Z.quot_opp_l by lia. f_equal.
  apply Z.quot_div_nonneg; lia.
Qed.

Lemma py_int_truncates (x : Q) : truncates x.
Proof. split; [apply py_int_floor | apply py_int_ceiling]. Qed.

(** The list comprehension [[int(a / b) for a, b in zip(xs, ys)]] on
    positive [ys]. *)
Lemma int_div_zip_pos (xs ys : list Q) :
  Forall (Qlt 0) ys ->
  int_div_zip xs ys = Ok (zip_with (fun a b => py_int (a / b)) xs ys).
Proof.
  revert ys. induction xs as [|a xs IH]; intros ys Hys; [by destruct ys|].
  destruct Hys as [|b ys Hb Hys]; [done|].
  simpl. rewrite py_truediv_pos by assumption. simpl.
  by rewrite IH by assumption.
Qed.

Lemma int_div_zip_floor (xs ys : list Q) :
  Forall (Qle 0) xs -> Forall (Qlt 0) ys ->
  int_div_zip xs ys = Ok (zip_with (fun a b => Qfloor (a / b)) xs ys).
Proof.
  intros Hxs Hys. rewrite int_div_zip_pos by assumption. f_equal.
  revert ys Hys. induction Hxs as [|a xs Ha Hxs IH]; intros ys Hys; [done|].
  destruct Hys as [|b ys Hb Hys]; [done|]. simpl.
  rewrite IH by assumption.
  by rewrite py_int_floor by (by apply Qdiv_nonneg).
Qed.

Lemma broadcast_scalar (s : Q) : broadcast (Scalar s) = broadcast (Tuple [s; s]).
Proof. reflexivity. Qed.

Lemma translate_set_pixel_size (a : args) (s : Q) :
  translate (set_pixel_size_um (Scalar s) a)
  = translate (set_pixel_size_um (Tuple [s; s]) a).
Proof. reflexivity. Qed.

Lemma translate_set_max_shift (a : args) (s : Q) :
  translate (set_max_shift_um (Scalar s) a)
  = translate (set_max_shift_um (Tuple [s; s]) a).
Proof. reflexivity. Qed.

Lemma configure_set_pixel_size (a : args) (s : Q) :
  configure (set_pixel_size_um (Scalar s) a)
  = configure (set_pixel_size_um (Tuple [s; s]) a).
Proof. reflexivity. Qed.

Lemma configure_set_max_shift (a : args) (s : Q) :
  configure (set_max_shift_um (Scalar s) a)
  = configure (set_max_shift_um (Tuple [s; s]) a).
Proof. reflexivity. Qed.

(** A scalar [patch_motion_um] is not broadcast: [zip] refuses it. *)
Lemma translate_scalar_patch (a : args) (s : Q) :
  patch_motion_um a = Scalar s ->
  Forall (Qlt 0) (broadcast (pixel_size_um a)) ->
  Forall (Qle 0) (broadcast (max_shift_um a)) ->
  translate a = Err TypeError.
Proof.
  intros Hp Hpix Hmax. unfold translate.
  rewrite (int_div_zip_floor _ _ Hmax Hpix), Hp. reflexivity.
Qed.

(** C3. With positive pixel sizes, the translation of [compute_shifts]
    and the one of the demo's [main] produce, for [max_shifts] and for
    [strides] alike and on each axis, the integer [int(physical_value /
    pixel_size)]: the quotient truncated toward zero. For a non-negative
    physical quantity (maximum shift, patch size) it is
    [floor(physical_value / pixel_size)]. *)
Theorem translation_is_floor_division
    (a : args) (px py mx my sx sy : Q) :
  broadcast (pixel_size_um a) = [px; py] ->
  broadcast (max_shift_um a) = [mx; my] ->
  patch_motion_um a = Tuple [sx; sy] ->
  (0 < px)%Q -> (0 < py)%Q ->
  translate a
  = Ok ([py_int (mx / px); py_int (my / py)],
        [py_int (sx / px); py_int (sy / py)])
  /\ (exists overlaps,
        Demo.physical_parameters [px; py] [sx; sy] [mx; my]
        = Ok {| Demo.p_max_shifts :=
                  PyList [PyInt (py_int (mx / px)); PyInt (py_int (my / py))];
                Demo.p_pw_rigid := true;
                Demo.p_strides :=
                  PyTuple [PyInt (py_int (sx / px)); PyInt (py_int (sy / py))];
                Demo.p_overlaps := overlaps |})
  /\ Forall truncates [mx / px; my / py; sx / px; sy / py]%Q
  /\ ((0 <= mx)%Q -> py_int (mx / px) = Qfloor (mx / px))
  /\ ((0 <= my)%Q -> py_int (my / py) = Qfloor (my / py))
  /\ ((0 <= sx)%Q -> py_int (sx / px) = Qfloor (sx / px))
  /\ ((0 <= sy)%Q -> py_int (sy / py) = Qfloor (sy / py)).
Proof.
  intros Hpix Hmax Hpatch Hpx Hpy.
  assert (Forall (Qlt 0) [px; py]) as Fp by (repeat constructor; assumption).
  split; [|split; [|split]].
  - unfold translate. cbv zeta. rewrite Hpatch, Hpix, Hmax.
    rewrite (int_div_zip_pos _ _ Fp). cbn [rbind iterable].
    by rewrite (int_div_zip_pos _ _ Fp).
  - unfold Demo.physical_parameters.
    rewrite !(int_div_zip_pos _ _ Fp).
    cbn [rbind zip_with Demo.overlaps_of fmap list_fmap]. by eexists.
  - repeat constructor; apply py_int_truncates.
  - repeat split; intros; apply py_int_floor; by apply Qdiv_nonneg.
Qed.

Lemma translation_is_floor_division_witness :
  translate (TestMotionCorrect.test_args (zeros [30; 20; 500]))
  = Ok ([py_int (6 / 1); py_int (6 / 1)], [py_int (100 / 1); py_int (100 / 1)])
  /\ (exists overlaps,
        Demo.physical_parameters [1; 1]%Q [100; 100]%Q [6; 6]%Q
        = Ok {| Demo.p_max_shifts :=
                  PyList [PyInt (py_int (6 / 1)); PyInt (py_int (6 / 1))];
                Demo.p_pw_rigid := true;
                Demo.p_strides :=
                  PyTuple [PyInt (py_int (100 / 1)); PyInt (py_int (100 / 1))];
                Demo.p_overlaps := overlaps |})
  /\ Forall truncates [6 / 1; 6 / 1; 100 / 1; 100 / 1]%Q
  /\ ((0 <= 6)%Q -> py_int (6 / 1) = Qfloor (6 / 1))
  /\ ((0 <= 6)%Q -> py_int (6 / 1) = Qfloor (6 / 1))
  /\ ((0 <= 100)%Q -> py_int (100 / 1) = Qfloor (100 / 1))
  /\ ((0 <= 100)%Q -> py_int (100 / 1) = Qfloor (100 / 1)).
Proof.
  apply (translation_is_floor_division
           (TestMotionCorrect.test_args (zeros [30; 20; 500])) 1 1 6 6 100 100);
    reflexivity.
Defined.

(** C4. A scalar [pixel_size_um] or [max_shift_um] gives the same run of
    [compute_shifts] (the same calls, with the same [max_shifts] and
    [strides], and the same outcome) as the 2-tuple that repeats it, for
    every engine; so do the translation and the whole configuration. *)
Theorem scalar_broadcasts_like_pair
    (E : MotionCorrectClass) (a : args) (s : Q) :
  compute_shifts E (set_pixel_size_um (Scalar s) a)
  = compute_shifts E (set_pixel_size_um (Tuple [s; s]) a)
  /\ compute_shifts E (set_max_shift_um (Scalar s) a)
     = compute_shifts E (set_max_shift_um (Tuple [s; s]) a)
  /\ translate (set_pixel_size_um (Scalar s) a)
     = translate (set_pixel_size_um (Tuple [s; s]) a)
  /\ translate (set_max_shift_um (Scalar s) a)
     = translate (set_max_shift_um (Tuple [s; s]) a)
  /\ configure (set_pixel_size_um (Scalar s) a)
     = configure (set_pixel_size_um (Tuple [s; s]) a)
  /\ configure (set_max_shift_um (Scalar s) a)
     = configure (set_max_shift_um (Tuple [s; s]) a).
Proof.
  split; [|split].
  - unfold compute_shifts. by rewrite configure_set_pixel_size.
  - unfold compute_shifts. by rewrite configure_set_max_shift.
  - repeat split;
      auto using translate_set_pixel_size, translate_set_max_shift,
                 configure_set_pixel_size, configure_set_max_shift.
Qed.

End ParameterTranslation.

(* ===================================================================== *)
(** * The shifts [compute_shifts] returns                                 *)
(* ===================================================================== *)

Section ReturnedShifts.
Import CorrectStack.

Lemma vstack_records (recs : list (Q * Q)) :
  recs <> [] -> vstack (record_row <$> recs) = Ok (record_row <$> recs).
Proof.
  destruct recs as [|d recs]; [done|]. intros _.
  assert (forall r : list Q, length r = 2%nat ->
          forallb (fun r' => Nat.eqb (length r') (length r)) (record_row <$> recs)
          = true) as H.
  { intros r ->. induction recs as [|d' recs IH]; [done|]. exact IH. }
  rewrite fmap_cons. unfold vstack. by rewrite H.
Qed.

Lemma transpose_records (recs : list (Q * Q)) :
  recs <> [] -> transpose (record_row <$> recs) = [fst <$> recs; snd <$> recs].
Proof.
  destruct recs as [|d recs]; [done|]. intros _.
  unfold transpose. simpl. f_equal; [|f_equal]; f_equal;
    rewrite <- list_fmap_compose; reflexivity.
Qed.

Lemma unpack_shifts_records (recs : list (Q * Q)) :
  recs <> [] ->
  unpack_shifts (record_row <$> recs)
  = Ok ((fun d => - snd d)%Q <$> recs, (fun d => - fst d)%Q <$> recs).
Proof.
  intros Hne. unfold unpack_shifts.
  rewrite (vstack_records _ Hne). cbn [rbind].
  rewrite (transpose_records _ Hne). unfold neg. cbn [map unpack2 rbind].
  by rewrite <- !list_fmap_compose.
Qed.

(** [compute_shifts], call by call. *)
Lemma compute_shifts_unfold (E : MotionCorrectClass) (a : args) :
  compute_shifts E a
  = match configure a with
    | Err e => ([], Err e)
    | Ok kw =>
        let kwargs := <["pw_rigid" := PyBool false]> kw in
        let c_init := CallInit (ndarray_T (stack a)) kwargs in
        match mc_init E (ndarray_T (stack a)) kwargs with
        | Err e => ([c_init], Err e)
        | Ok c =>
            match mc_motion_correct E c None false with
            | Err e => ([c_init; CallMotionCorrect None false], Err e)
            | Ok (c', _) =>
                ([c_init; CallMotionCorrect None false],
                 unpack_shifts (shifts_rig E c'))
            end
        end
    end.
Proof.
  unfold compute_shifts, emit, lift, run_bind.
  destruct (configure a) as [kw|e]; [|done]. simpl.
  destruct (mc_init E _ _) as [c|e]; [|done]. simpl.
  destruct (mc_motion_correct E c None false) as [[c' r]|e]; [|done]. simpl.
  by destruct (unpack_shifts _).
Qed.

(** C9. Whatever the stack, once the engine has accumulated the rigid
    records [recs] (each a pair, at least one), [compute_shifts] returns
    [(shifts_x, shifts_y)] where [shifts_y] is the negated first component
    of each record and [shifts_x] the negated second component, record by
    record. *)
Theorem returned_shifts_negate_and_swap
    (E : MotionCorrectClass) (a : args) (kw : gmap string pyval)
    (c0 c1 : corrector E) (r : frame_corrector E * option string)
    (recs : list (Q * Q)) :
  configure a = Ok kw ->
  mc_init E (ndarray_T (stack a)) (<["pw_rigid" := PyBool false]> kw) = Ok c0 ->
  mc_motion_correct E c0 None false = Ok (c1, r) ->
  shifts_rig E c1 = record_row <$> recs ->
  recs <> [] ->
  outcome (compute_shifts E a)
  = Ok ((fun d => - snd d)%Q <$> recs, (fun d => - fst d)%Q <$> recs).
Proof.
  intros Hcfg Hinit Hmc Hrig Hne.
  rewrite compute_shifts_unfold, Hcfg. cbv zeta. rewrite Hinit, Hmc, Hrig.
  unfold outcome. simpl. by apply unpack_shifts_records.
Qed.

Lemma returned_shifts_negate_and_swap_witness :
  outcome (compute_shifts Toy.engine (with_defaults Toy.stack (Scalar 1)))
  = Ok ((fun d => - snd d)%Q <$> [(1, 2); (1, 2)]%Q,
        (fun d => - fst d)%Q <$> [(1, 2); (1, 2)]%Q).
Proof.
  eapply (returned_shifts_negate_and_swap
            Toy.engine (with_defaults Toy.stack (Scalar 1))).
  - reflexivity.
  - reflexivity.
  - reflexivity.
  - reflexivity.
  - discriminate.
Defined.

End ReturnedShifts.

(* ===================================================================== *)
(** * [compute_shifts] is rigid-only                                      *)
(* ===================================================================== *)

Section RigidOnly.
Import CorrectStack.

Lemma configure_inv (a : args) (kw : gmap string pyval) :
  configure a = Ok kw ->
  exists (n : Z) (max_shifts strides : list Z),
    kw = mc_dict a n max_shifts strides.
Proof.
  unfold configure. intros H.
  destruct (unpack3 _) as [[[nx ny] nt]|e]; [|done]. simpl in H.
  destruct (num_chunks _ _) as [n|e]; [|done]. simpl in H.
  destruct (translate a) as [[ms st]|e]; [|done]. simpl in H.
  injection H as <-. by exists n, ms, st.
Qed.

Lemma mc_dict_fixed_constants (a : args) (n : Z) (ms st : list Z) :
  fixed_constants (<["pw_rigid" := PyBool false]> (mc_dict a n ms st)).
Proof. unfold fixed_constants, mc_dict. repeat split; by simplify_map_eq. Qed.

Lemma compute_shifts_calls_rigid_only (E : MotionCorrectClass) (a : args) :
  Forall (rigid_only_call a) (calls (compute_shifts E a)).
Proof.
  rewrite compute_shifts_unfold.
  destruct (configure a) as [kw|e] eqn:Hcfg; [|by constructor].
  destruct (configure_inv a kw Hcfg) as (n & ms & st & ->).
  pose proof (mc_dict_fixed_constants a n ms st) as Hk.
  cbv zeta.
  destruct (mc_init E _ _) as [c|e]; [|by repeat constructor].
  destruct (mc_motion_correct E c None false) as [[c' r]|e];
    by repeat constructor.
Qed.

Lemma compute_shifts_first_call (E : MotionCorrectClass) (a : args)
    (kw : gmap string pyval) :
  configure a = Ok kw ->
  exists rest,
    calls (compute_shifts E a)
    = CallInit (ndarray_T (stack a)) (<["pw_rigid" := PyBool false]> kw) :: rest.
Proof.
  intros Hcfg. rewrite compute_shifts_unfold, Hcfg. cbv zeta.
  destruct (mc_init E _ _) as [c|e]; [|by eexists].
  destruct (mc_motion_correct E c None false) as [[c' r]|e]; by eexists.
Qed.


End RigidOnly.

(* ===================================================================== *)
(** * The pipeline, call by call                                          *)
(* ===================================================================== *)

Section Pipeline.
Import Demo.

Lemma pipeline_unfold (E : MotionCorrectClass) (a : args) :
  motion_correct_pipeline E a
  = match total_frames (lazy_dataset a) with
    | Err e => ([CallDisplay "Running motion correction..."], Err e)
    | Ok T =>
        match num_chunks T (frames_per_split a) with
        | Err e => ([CallDisplay "Running motion correction..."], Err e)
        | Ok n =>
            let pre :=
              [CallDisplay "Running motion correction...";
               CallDisplay ("Number of chunks is " +:+ pretty n);
               CallInit (lazy_dataset a) (mc_dict a n)] in
            match mc_init E (lazy_dataset a) (mc_dict a n) with
            | Err e => (pre, Err e)
            | Ok c =>
                let run_mc := CallMotionCorrect (template a) (save_movie a) in
                match mc_motion_correct E c (template a) (save_movie a) with
                | Err e => (pre ++ [run_mc], Err e)
                | Ok (c', r) =>
                    (pre ++
                     [run_mc;
                      CallDisplay "Motion correction completed.";
                      CallDisplay ("Saving computed shifts to (" +:+ outdir a +:+ ")...");
                      CallSavez (path_join (outdir a) "shifts.npz")
                                (shift_archive E (pw_rigid a) c');
                      CallDisplay ("Shifts saved as " +:+ dquote +:+ "shifts.npz"
                                   +:+ dquote +:+ ".")],
                     Ok r)
                end
            end
        end
    end.
Proof.
  unfold motion_correct_pipeline, display, emit, lift, run_bind, run_ret.
  destruct (total_frames _) as [T|e]; [|done]. simpl.
  destruct (num_chunks _ _) as [n|e]; [|done]. simpl.
  destruct (mc_init E _ _) as [c|e]; [|done]. simpl.
  destruct (mc_motion_correct E c _ _) as [[c' [o t]]|e]; done.
Qed.






Lemma demo_mc_dict_pw_rigid (a : args) (n : Z) :
  mc_dict a n !! "pw_rigid" = Some (PyBool (pw_rigid a)).
Proof. unfold mc_dict. destruct (pw_rigid a); by simplify_map_eq. Qed.

Lemma demo_mc_dict_strides (a : args) (n : Z) :
  mc_dict a n !! "strides" = Some (strides a).
Proof. unfold mc_dict. destruct (pw_rigid a); by simplify_map_eq. Qed.

Lemma demo_mc_dict_overlaps (a : args) (n : Z) :
  mc_dict a n !! "overlaps" = Some (overlaps a).
Proof. unfold mc_dict. destruct (pw_rigid a); by simplify_map_eq. Qed.

Lemma demo_mc_dict_niter_rig (a : args) (n : Z) :
  mc_dict a n !! "niter_rig" = Some (niter_rig a).
Proof. unfold mc_dict. destruct (pw_rigid a); by simplify_map_eq. Qed.


End Pipeline.

(* ===================================================================== *)
(** * Validation and persisted shifts, with the engine of the spec        *)
(* ===================================================================== *)

Section SpecEngine.
Import Demo SpecModel.

Variable estimate_template :
  ndarray -> gmap string pyval -> option ndarray -> ndarray.
Variable register : ndarray -> ndarray -> result (Q * Q).
Variable register_patches :
  ndarray -> ndarray -> gmap string pyval -> result (list (Q * Q)).
Variable movie_file : string.

Local Abbreviation SM :=
  (SpecModel.MotionCorrect estimate_template register register_patches movie_file).

(** The constructor rejects a violated patch geometry, whatever the
    frames hold. *)
Lemma init_rejects_geometry (data : ndarray) (kw : gmap string pyval)
    (vs vo : pyval) (T H W s0 s1 o0 o1 : Z) :
  shape data = [T; H; W] ->
  kw !! "pw_rigid" = Some (PyBool true) ->
  kw !! "strides" = Some vs -> as_int_pair vs = Some (s0, s1) ->
  kw !! "overlaps" = Some vo -> as_int_pair vo = Some (o0, o1) ->
  s0 + o0 >= H \/ s1 + o1 >= W ->
  init data kw = Err ConfigurationError.
Proof.
  intros Hsh Hpw Hs Hs' Ho Ho' Hviol.
  unfold init, kw_bool, kw_int_pair. rewrite Hsh, Hpw, Hs, Hs', Ho, Ho'.
  cbn [unpack3 rbind]. unfold geometry_ok. cbn [fst snd].
  destruct (Z.ltb_spec (s0 + o0) H), (Z.ltb_spec (s1 + o1) W); try done; lia.
Qed.

(** C5, as amended. With [pw_rigid=True], a [frames_per_split] that is
    not zero and [strides[i] + overlaps[i] >= FOV_dim[i]]
    on some axis, the pipeline stops with [ConfigurationError] at the
    constructor: it has printed its two messages and called the
    constructor with the caller's own [strides] and [overlaps], and
    nothing else: [motion_correct] is never called (no frame is read,
    nothing is registered) and nothing is saved. The constructor rejects
    every dataset of that shape, whatever its frames. *)
Theorem invalid_geometry_fails_before_any_work
    (a : args) (T H W s0 s1 o0 o1 : Z) :
  pw_rigid a = true ->
  shape (lazy_dataset a) = [T; H; W] ->
  as_int_pair (strides a) = Some (s0, s1) ->
  as_int_pair (overlaps a) = Some (o0, o1) ->
  frames_per_split a <> 0 ->
  s0 + o0 >= H \/ s1 + o1 >= W ->
  exists n : Z,
    motion_correct_pipeline SM a
    = ([CallDisplay "Running motion correction...";
        CallDisplay ("Number of chunks is " +:+ pretty n);
        CallInit (lazy_dataset a) (mc_dict a n)],
       Err ConfigurationError)
    /\ mc_dict a n !! "pw_rigid" = Some (PyBool true)
    /\ mc_dict a n !! "strides" = Some (strides a)
    /\ mc_dict a n !! "overlaps" = Some (overlaps a)
    /\ (forall data : ndarray,
          shape data = shape (lazy_dataset a) ->
          mc_init SM data (mc_dict a n) = Err ConfigurationError).
Proof.
  intros Hpw Hsh Hs Ho Hf Hviol.
  exists (ceil_div T (frames_per_split a)).
  set (n := ceil_div T (frames_per_split a)).
  assert (mc_dict a n !! "pw_rigid" = Some (PyBool true)) as Kpw
    by (by rewrite demo_mc_dict_pw_rigid, Hpw).
  pose proof (demo_mc_dict_strides a n) as Ks.
  pose proof (demo_mc_dict_overlaps a n) as Ko.
  assert (forall data : ndarray,
            shape data = shape (lazy_dataset a) ->
            mc_init SM data (mc_dict a n) = Err ConfigurationError) as Hrej.
  { intros data Hd. simpl.
    eapply init_rejects_geometry; eauto. by rewrite Hd. }
  repeat split; try done.
  rewrite pipeline_unfold. unfold total_frames. rewrite Hsh.
  rewrite demo_num_chunks_ceil by done. cbv zeta. fold n.
  by rewrite (Hrej (lazy_dataset a) eq_refl).
Qed.








End SpecEngine.

Lemma invalid_geometry_fails_before_any_work_witness :
  exists n : Z,
    Demo.motion_correct_pipeline Toy.engine (Toy.pipeline_args true 48 16)
    = ([CallDisplay "Running motion correction...";
        CallDisplay ("Number of chunks is " +:+ pretty n);
        CallInit Toy.dataset (Demo.mc_dict (Toy.pipeline_args true 48 16) n)],
       Err ConfigurationError)
    /\ Demo.mc_dict (Toy.pipeline_args true 48 16) n !! "pw_rigid" = Some (PyBool true)
    /\ Demo.mc_dict (Toy.pipeline_args true 48 16) n !! "strides"
       = Some (PyTuple [PyInt 48; PyInt 48])
    /\ Demo.mc_dict (Toy.pipeline_args true 48 16) n !! "overlaps"
       = Some (PyTuple [PyInt 16; PyInt 16])
    /\ (forall data : ndarray,
          shape data = [10; 64; 64] ->
          mc_init Toy.engine data (Demo.mc_dict (Toy.pipeline_args true 48 16) n)
          = Err ConfigurationError).
Proof.
  apply (invalid_geometry_fails_before_any_work _ _ _ _
           (Toy.pipeline_args true 48 16) 10 64 64 48 48 16 16);
    try reflexivity; [discriminate | left; vm_compute; discriminate].
Defined.


(** C5, as stated, fails. A configuration with [pw_rigid=True],
    [strides + overlaps = 48 + 16 >= 64] on both axes of the field of
    view, and [frames_per_split=0]: the pipeline raises
    [ZeroDivisionError] when it computes the number of chunks, after its
    first message; the constructor, which would have raised
    [ConfigurationError], is never called. *)
Lemma zero_chunk_length_counterexample :
  Demo.pw_rigid (Edge.zero_split_args true 48 16) = true
  /\ shape (Demo.lazy_dataset (Edge.zero_split_args true 48 16)) = [10; 64; 64]
  /\ SpecModel.as_int_pair (Demo.strides (Edge.zero_split_args true 48 16))
     = Some (48, 48)
  /\ SpecModel.as_int_pair (Demo.overlaps (Edge.zero_split_args true 48 16))
     = Some (16, 16)
  /\ 48 + 16 >= 64
  /\ Demo.motion_correct_pipeline Toy.engine (Edge.zero_split_args true 48 16)
     = ([CallDisplay "Running motion correction..."], Err ZeroDivisionError)
  /\ outcome (Demo.motion_correct_pipeline Toy.engine (Edge.zero_split_args true 48 16))
     <> Err ConfigurationError
  /\ (forall data kw,
        ~ In (CallInit data kw)
             (calls (Demo.motion_correct_pipeline Toy.engine
                       (Edge.zero_split_args true 48 16)))).
Proof.
  assert (Demo.motion_correct_pipeline Toy.engine (Edge.zero_split_args true 48 16)
          = ([CallDisplay "Running motion correction..."], Err ZeroDivisionError))
    as Hrun by reflexivity.
  repeat split; try reflexivity; try lia.
  - by rewrite Hrun.
  - intros data kw. rewrite Hrun. cbn [calls fst In]. by intros [|].
Qed.

(* ===================================================================== *)
(** * The end-to-end scenario of the test                                 *)
(* ===================================================================== *)

Section Scenario.
Import CorrectStack SpecModel.

Lemma sum_of_equal (v : Z) (lens : list Z) :
  Forall (eq v) lens -> foldr Z.add 0 lens = Z.of_nat (length lens) * v.
Proof.
  induction 1 as [|x lens <- _ IH]; [done|].
  cbn [foldr length]. rewrite IH. lia.
Qed.

Lemma scenario_chunk_lengths :
  chunks_for_count 500 125 = plan 500 4
  /\ chunk_len <$> plan 500 4 = replicate 125 4.
Proof. split; vm_compute; reflexivity. Qed.

Lemma scenario_configure (item : list Z -> Q) :
  configure (TestMotionCorrect.test_args {| shape := [30; 20; 500]; item := item |})
  = Ok (mc_dict (TestMotionCorrect.test_args {| shape := [30; 20; 500]; item := item |})
                125 [6; 6] [100; 100]).
Proof. reflexivity. Qed.

(** C7, as stated, fails. With 500 frames and [splits=4], the number
    handed to the engine is 125 and it is the chunk count ([splits_rig]);
    125 chunks of 125 frames do not add up to 500 frames, and the chunks
    made from that count have 4 frames each, not 125. *)
Lemma chunks_of_125_frames_counterexample :
  (exists kw,
     configure (TestMotionCorrect.test_args (zeros [30; 20; 500])) = Ok kw
     /\ kw !! "splits_rig" = Some (PyInt 125))
  /\ (forall lens : list Z,
        length lens = 125%nat -> foldr Z.add 0 lens = 500 ->
        ~ Forall (eq 125) lens)
  /\ chunk_len <$> chunks_for_count 500 125 = replicate 125 4
  /\ ~ Forall (fun c => chunk_len c = 125) (chunks_for_count 500 125).
Proof.
  destruct scenario_chunk_lengths as [Hp Hl].
  split; [|split; [|split]].
  - eexists. split; [apply scenario_configure|]. reflexivity.
  - intros lens Hlen Hsum H. apply sum_of_equal in H. lia.
  - by rewrite Hp.
  - rewrite Hp. intros H.
    apply (proj2 (Forall_fmap chunk_len (fun x : Z => x = 125) (plan 500 4))) in H.
    rewrite Hl in H. by apply Forall_cons in H as [? _].
Qed.

(** C7, amended. In the end-to-end scenario (a stack of shape
    [(30, 20, 500)], [splits=4]), the value 4 is the number of frames per
    chunk and 125 is the number of chunks: [compute_shifts] hands the
    engine the chunk count [ceil(500 / 4) = 125] as [splits_rig] and
    [splits_els]; 125 chunks of one length that add up to the 500 frames
    have 4 frames each, and so have the chunks made from that count, which
    cover the 500 frames in order; the run is rigid-only
    ([pw_rigid=False], no movie). *)
Theorem scenario_has_125_chunks_of_4_frames
    (E : MotionCorrectClass) (item : list Z -> Q) :
  (exists kw,
     configure (TestMotionCorrect.test_args {| shape := [30; 20; 500]; item := item |})
     = Ok kw
     /\ kw !! "splits_rig" = Some (PyInt 125)
     /\ kw !! "splits_els" = Some (PyInt 125)
     /\ exists rest,
          calls (compute_shifts E
                   (TestMotionCorrect.test_args {| shape := [30; 20; 500]; item := item |}))
          = CallInit (ndarray_T {| shape := [30; 20; 500]; item := item |})
                     (<["pw_rigid" := PyBool false]> kw) :: rest)
  /\ num_chunks 500 4 = Ok 125
  /\ (forall (v : Z) (lens : list Z),
        length lens = 125%nat -> Forall (eq v) lens ->
        foldr Z.add 0 lens = 500 -> v = 4)
  /\ chunk_len <$> chunks_for_count 500 125 = replicate 125 4
  /\ concat (chunk_frames <$> chunks_for_count 500 125) = seqZ 0 500
  /\ Forall (rigid_only_call
               (TestMotionCorrect.test_args {| shape := [30; 20; 500]; item := item |}))
            (calls (compute_shifts E
                      (TestMotionCorrect.test_args {| shape := [30; 20; 500]; item := item |}))).
Proof.
  destruct scenario_chunk_lengths as [Hp Hl].
  split.
  { eexists. split; [apply scenario_configure|].
    split; [reflexivity|]. split; [reflexivity|].
    apply compute_shifts_first_call, scenario_configure. }
  split; [reflexivity|].
  split.
  { intros v lens Hlen H Hsum. apply sum_of_equal in H. lia. }
  split; [by rewrite Hp|].
  split; [rewrite Hp; apply plan_partition; lia|].
  apply compute_shifts_calls_rigid_only.
Qed.

End Scenario.

(* ===================================================================== *)
(** * The ground truth of the test                                        *)
(* ===================================================================== *)

Section GroundTruth.
Import Simulate.

Lemma profile_y_flat : snd (create_test_data_shifts 500 10 0) = replicate 500 0.
Proof. vm_compute. reflexivity. Qed.

Lemma profile_x_ends :
  length (fst (create_test_data_shifts 500 10 0)) = 500%nat
  /\ head (fst (create_test_data_shifts 500 10 0)) = Some 0
  /\ last (fst (create_test_data_shifts 500 10 0)) = Some 10.
Proof. vm_compute. auto. Qed.

(** Against a profile without variance the correlation is not a number,
    and exceeds nothing. *)
Lemma corr_exceeds_zero_variance (t : Q) (xs ys : list Q) :
  (codev xs xs == 0)%Q -> corr_exceeds t xs ys = false.
Proof.
  intros H. unfold corr_exceeds.
  assert (Qeq_bool (codev xs xs * codev ys ys) 0 = true) as ->.
  { apply Qeq_bool_iff. rewrite H. ring. }
  simpl. by rewrite andb_false_r.
Qed.

Lemma codev_flat_profile :
  (codev (inject_Z <$> replicate 500 0%Z) (inject_Z <$> replicate 500 0%Z) == 0)%Q.
Proof. vm_compute. reflexivity. Qed.

(** X1, on the scenario of C8. The y profile that
    [create_test_data(30, 20, 500, 5, 5, (1, 10),
    (1, 4), 10, 0)] returns is constant (500 zeros), so no recovered
    sequence has a Pearson correlation with it above any threshold: the
    coefficient is not a number. The x profile runs from 0 to 10 over the
    500 frames; it is the one the test correlates. *)
Theorem flat_y_profile_has_no_correlation :
  snd (create_test_data_shifts 500 10 0) = replicate 500 0
  /\ (forall (t : Q) (recovered : list Q),
        corr_exceeds t (inject_Z <$> snd (create_test_data_shifts 500 10 0)) recovered
        = false)
  /\ length (fst (create_test_data_shifts 500 10 0)) = 500%nat
  /\ head (fst (create_test_data_shifts 500 10 0)) = Some 0
  /\ last (fst (create_test_data_shifts 500 10 0)) = Some 10.
Proof.
  split; [apply profile_y_flat|]. split; [|apply profile_x_ends].
  intros t recovered. rewrite profile_y_flat.
  apply corr_exceeds_zero_variance, codev_flat_profile.
Qed.

End GroundTruth.

(* ===================================================================== *)
(** * When [compute_shifts] fails on its own                              *)
(* ===================================================================== *)

Section ConfigureFailures.
Import CorrectStack.

Lemma py_truediv_ok_iff (a b : Q) :
  (exists q, py_truediv a b = Ok q) <-> nonzero b.
Proof.
  unfold py_truediv, nonzero. destruct (Qeq_bool b 0) eqn:E.
  - apply Qeq_bool_iff in E. split; [by intros [q ?]|]. by intros H.
  - split; [|by eexists]. intros _ H. apply Qeq_bool_iff in H. congruence.
Qed.

Lemma py_truediv_err (a b : Q) (e : exn) :
  py_truediv a b = Err e -> e = ZeroDivisionError.
Proof. unfold py_truediv. destruct (Qeq_bool b 0); congruence. Qed.

Lemma int_div_zip_ok_iff (xs ys : list Q) :
  (exists zs, int_div_zip xs ys = Ok zs) <-> Forall nonzero (take (length xs) ys).
Proof.
  revert ys. induction xs as [|a xs IH]; intros ys.
  { split; [constructor|]. intros _. by destruct ys; eexists. }
  destruct ys as [|b ys]; [split; [constructor|by eexists]|].
  cbn [int_div_zip length take]. split.
  - intros [zs H].
    destruct (py_truediv a b) as [q|e] eqn:Hq; [|done]. cbn [rbind] in H.
    destruct (int_div_zip xs ys) as [rest|e] eqn:Hr; [|done].
    constructor; [apply (py_truediv_ok_iff a b); by eexists|].
    apply IH. by eexists.
  - intros H. apply Forall_cons in H as [Hb Hys].
    apply (py_truediv_ok_iff a b) in Hb as [q ->].
    apply IH in Hys as [rest ->]. by eexists.
Qed.

Lemma int_div_zip_err (xs ys : list Q) (e : exn) :
  int_div_zip xs ys = Err e -> e = ZeroDivisionError.
Proof.
  revert ys. induction xs as [|a xs IH]; intros ys; [by destruct ys|].
  destruct ys as [|b ys]; [done|]. cbn [int_div_zip].
  destruct (py_truediv a b) as [q|e'] eqn:Hq.
  - cbn [rbind]. destruct (int_div_zip xs ys) as [rest|e'] eqn:Hr; [done|].
    cbn [rbind]. intros [= <-]. by eapply IH.
  - cbn [rbind]. intros [= <-]. by eapply py_truediv_err.
Qed.

Lemma int_div_zip_length (xs ys : list Q) (zs : list Z) :
  int_div_zip xs ys = Ok zs -> length zs = Nat.min (length xs) (length ys).
Proof.
  revert ys zs. induction xs as [|a xs IH]; intros ys zs.
  { destruct ys; by intros [= <-]. }
  destruct ys as [|b ys]; [by intros [= <-]|]. cbn [int_div_zip].
  destruct (py_truediv a b) as [q|e]; [|done]. cbn [rbind].
  destruct (int_div_zip xs ys) as [rest|e] eqn:Hr; [|done]. cbn [rbind].
  intros [= <-]. simpl. by rewrite (IH ys rest).
Qed.

Lemma num_chunks_ok_iff (nt s : Z) :
  (exists n, num_chunks nt s = Ok n) <-> s <> 0.
Proof.
  split.
  - intros [n H] ->. by vm_compute in H.
  - intros Hs. rewrite stack_num_chunks_ceil by done. by eexists.
Qed.

Lemma num_chunks_zero_split (nt : Z) : num_chunks nt 0 = Err ZeroDivisionError.
Proof. reflexivity. Qed.

Lemma unpack3_ok_iff {A} (xs : list A) :
  (exists r, unpack3 xs = Ok r) <-> length xs = 3%nat.
Proof.
  destruct xs as [|a [|b [|c [|d xs]]]]; simpl; split; try done;
    try (by intros [? ?]); by eexists.
Qed.

Lemma translate_ok_iff (a : args) :
  (exists r, translate a = Ok r) <->
  Forall nonzero (take (length (broadcast (max_shift_um a)))
                       (broadcast (pixel_size_um a)))
  /\ exists patch,
       patch_motion_um a = Tuple patch
       /\ Forall nonzero (take (length patch) (broadcast (pixel_size_um a))).
Proof.
  unfold translate. cbv zeta. split.
  - intros [r H].
    destruct (int_div_zip (broadcast (max_shift_um a)) _) as [ms|e] eqn:Hms; [|done].
    cbn [rbind] in H.
    destruct (patch_motion_um a) as [s|patch]; [done|]. cbn [iterable rbind] in H.
    destruct (int_div_zip patch _) as [st|e] eqn:Hst; [|done].
    split; [apply int_div_zip_ok_iff; by eexists|].
    exists patch. split; [done|]. apply int_div_zip_ok_iff. by eexists.
  - intros [Hms (patch & -> & Hst)].
    apply int_div_zip_ok_iff in Hms as [ms Hms].
    apply int_div_zip_ok_iff in Hst as [st Hst].
    rewrite Hms. cbn [rbind iterable]. rewrite Hst. by eexists.
Qed.

Lemma translate_err (a : args) (e : exn) :
  translate a = Err e -> e = ZeroDivisionError \/ e = TypeError.
Proof.
  unfold translate. cbv zeta.
  destruct (int_div_zip (broadcast (max_shift_um a)) _) as [ms|e'] eqn:Hms.
  - cbn [rbind]. destruct (patch_motion_um a) as [s|patch].
    + cbn [iterable rbind]. intros [= <-]. by right.
    + cbn [iterable rbind].
      destruct (int_div_zip patch _) as [st|e'] eqn:Hst; [done|].
      cbn [rbind]. intros [= <-]. left. by eapply int_div_zip_err.
  - cbn [rbind]. intros [= <-]. left. by eapply int_div_zip_err.
Qed.

(** X2. The configuration of [compute_shifts] succeeds exactly when the
    stack is 3-D, [splits] is not zero, [patch_motion_um] is a tuple, and
    the pixel sizes that [zip] pairs with a maximum shift or with a
    patch size are not zero. Otherwise it raises [ValueError] (shape),
    [ZeroDivisionError] or [TypeError] (a scalar [patch_motion_um]), and
    [compute_shifts] raises the same without having called the engine. *)
Theorem configure_succeeds_iff (a : args) :
  ((exists kw, configure a = Ok kw) <->
     length (shape (stack a)) = 3%nat
     /\ splits a <> 0
     /\ Forall nonzero (take (length (broadcast (max_shift_um a)))
                             (broadcast (pixel_size_um a)))
     /\ exists patch,
          patch_motion_um a = Tuple patch
          /\ Forall nonzero (take (length patch) (broadcast (pixel_size_um a))))
  /\ (forall e, configure a = Err e ->
        e = ValueError \/ e = ZeroDivisionError \/ e = TypeError)
  /\ (forall (E : MotionCorrectClass) e,
        configure a = Err e -> compute_shifts E a = ([], Err e)).
Proof.
  split; [|split].
  - unfold configure. split.
    + intros [kw H].
      destruct (unpack3 _) as [[[nx ny] nt]|e] eqn:Hu; [|done]. cbn [rbind] in H.
      destruct (num_chunks nt (splits a)) as [n|e] eqn:Hn; [|done]. cbn [rbind] in H.
      destruct (translate a) as [r|e] eqn:Ht; [|done].
      split; [apply unpack3_ok_iff; by eexists|].
      split; [apply (num_chunks_ok_iff nt); by eexists|].
      apply translate_ok_iff. by eexists.
    + intros (Hu & Hs & Ht).
      apply unpack3_ok_iff in Hu as [[[nx ny] nt] ->]. cbn [rbind].
      apply (num_chunks_ok_iff nt) in Hs as [n ->]. cbn [rbind].
      apply translate_ok_iff in Ht as [[ms st] ->]. by eexists.
  - intros e. unfold configure.
    destruct (unpack3 _) as [[[nx ny] nt]|e'] eqn:Hu.
    + cbn [rbind]. destruct (Z.eq_dec (splits a) 0) as [->|Hs].
      * rewrite num_chunks_zero_split. cbn [rbind]. intros [= <-]. auto.
      * rewrite stack_num_chunks_ceil by done. cbn [rbind].
        destruct (translate a) as [[ms st]|e'] eqn:Ht; [done|].
        cbn [rbind]. intros [= <-]. destruct (translate_err _ _ Ht); auto.
    + cbn [rbind]. intros [= <-]. left.
      unfold unpack3 in Hu.
      destruct (shape (stack a)) as [|? [|? [|? [|? ?]]]]; simpl in Hu; congruence.
  - intros E e H. by rewrite compute_shifts_unfold, H.
Qed.

End ConfigureFailures.

(* ===================================================================== *)
(** * When the returned shifts exist                                      *)
(* ===================================================================== *)

Section ShiftUnpacking.
Import CorrectStack.

Lemma rows_of_pairs (records : list (list Q)) :
  Forall (fun row => length row = 2%nat) records ->
  records = record_row <$> (row_pair <$> records).
Proof.
  induction 1 as [|row records Hrow _ IH]; [done|].
  cbn [fmap list_fmap]. f_equal; [|exact IH].
  by destruct row as [|a [|b [|c row]]].
Qed.

Lemma length_transpose (m : matrix) (r : list Q) :
  length (transpose (r :: m)) = length r.
Proof. unfold transpose. by rewrite length_map, length_seq. Qed.

Lemma vstack_ok_inv (records m : list (list Q)) :
  vstack records = Ok m ->
  m = records
  /\ exists r rest, records = r :: rest
       /\ Forall (fun row => length row = length r) records.
Proof.
  destruct records as [|r rest]; [done|]. unfold vstack.
  destruct (forallb _ rest) eqn:Hall; [|done]. intros [= <-].
  split; [done|]. exists r, rest. split; [done|].
  constructor; [done|]. apply Forall_forall. intros row Hrow.
  rewrite forallb_forall in Hall. apply Nat.eqb_eq, Hall.
  by apply list_elem_of_In.
Qed.

Lemma unpack_shifts_err (records : list (list Q)) (e : exn) :
  unpack_shifts records = Err e -> e = ValueError.
Proof.
  unfold unpack_shifts. destruct (vstack records) as [m|e'] eqn:Hv.
  - cbn [rbind]. unfold unpack2.
    destruct (neg (transpose m)) as [|a [|b [|c l]]]; simpl; congruence.
  - cbn [rbind]. intros [= <-]. unfold vstack in Hv.
    destruct records as [|r rest]; [congruence|].
    destruct (forallb _ rest); congruence.
Qed.

(** X3. The shifts of [compute_shifts] can be unpacked exactly when the
    engine holds at least one record and every record has two entries;
    otherwise [ValueError] is raised. When they can, [shifts_x] and
    [shifts_y] have one entry per record, in the order of the records:
    for the record [(first, second)], [-second] in [shifts_x] and
    [-first] in [shifts_y]. *)
Theorem unpack_shifts_succeeds_iff (records : list (list Q)) :
  ((exists r, unpack_shifts records = Ok r) <->
     records <> [] /\ Forall (fun row => length row = 2%nat) records)
  /\ (forall e, unpack_shifts records = Err e -> e = ValueError)
  /\ (forall shifts_x shifts_y,
        unpack_shifts records = Ok (shifts_x, shifts_y) ->
        length shifts_x = length records
        /\ length shifts_y = length records
        /\ forall (i : nat) (row : list Q),
             records !! i = Some row ->
             exists first second,
               row = [first; second]
               /\ shifts_x !! i = Some (- second)%Q
               /\ shifts_y !! i = Some (- first)%Q).
Proof.
  assert (forall r, unpack_shifts records = Ok r ->
            records <> [] /\ Forall (fun row => length row = 2%nat) records) as Hinv.
  { intros r H. unfold unpack_shifts in H.
    destruct (vstack records) as [m|e] eqn:Hv; [|done]. cbn [rbind] in H.
    apply vstack_ok_inv in Hv as (-> & r0 & rest & -> & Hall).
    split; [done|].
    assert (length r0 = 2%nat) as H2.
    { rewrite <- (length_transpose rest r0).
      unfold neg, unpack2 in H. rewrite <- (length_map (map Qopp)).
      by destruct (map (map Qopp) (transpose (r0 :: rest))) as [|? [|? [|? ?]]]. }
    by rewrite <- H2. }
  split; [|split].
  - split; [intros [r H]; by eapply Hinv|].
    intros [Hne Hall]. rewrite (rows_of_pairs _ Hall).
    rewrite unpack_shifts_records; [by eexists|].
    by destruct records.
  - apply unpack_shifts_err.
  - intros shifts_x shifts_y H.
    destruct (Hinv _ H) as [Hne Hall].
    rewrite (rows_of_pairs _ Hall) in H.
    rewrite unpack_shifts_records in H by (by destruct records).
    injection H as <- <-. rewrite !length_fmap.
    split; [done|]. split; [done|].
    intros i row Hi.
    pose proof (Forall_lookup_1 _ _ _ _ Hall Hi) as Hlen.
    destruct row as [|first [|second [|c row]]]; try done.
    exists first, second. split; [done|].
    rewrite !list_lookup_fmap, Hi. by split.
Qed.

End ShiftUnpacking.

(* ===================================================================== *)
(** * The order of the pipeline's calls                                   *)
(* ===================================================================== *)

Section PipelineOrder.
Import Demo CallLog.


(** X5. The pipeline reaches the constructor exactly when the dataset
    has a first dimension and [frames_per_split] is not zero. Otherwise
    it has printed its first message only and raises [IndexError] (no
    dimension) or [ZeroDivisionError] (zero chunk length). *)
Theorem pipeline_reaches_constructor_iff (E : MotionCorrectClass) (a : args) :
  ((exists data kw,
       In (CallInit data kw) (calls (motion_correct_pipeline E a)))
     <-> shape (lazy_dataset a) <> [] /\ frames_per_split a <> 0)
  /\ (shape (lazy_dataset a) = [] ->
      motion_correct_pipeline E a
      = ([CallDisplay "Running motion correction..."], Err IndexError))
  /\ (shape (lazy_dataset a) <> [] -> frames_per_split a = 0 ->
      motion_correct_pipeline E a
      = ([CallDisplay "Running motion correction..."], Err ZeroDivisionError)).
Proof.
  assert (shape (lazy_dataset a) = [] ->
          motion_correct_pipeline E a
          = ([CallDisplay "Running motion correction..."], Err IndexError)) as H1.
  { intros Hs. rewrite pipeline_unfold. unfold total_frames. by rewrite Hs. }
  assert (shape (lazy_dataset a) <> [] -> frames_per_split a = 0 ->
          motion_correct_pipeline E a
          = ([CallDisplay "Running motion correction..."], Err ZeroDivisionError))
    as H2.
  { intros Hs Hf. rewrite pipeline_unfold. unfold total_frames.
    destruct (shape (lazy_dataset a)) as [|T rest]; [done|].
    by rewrite Hf. }
  split; [|by split]. split.
  - intros (data & kw & Hin).
    destruct (shape (lazy_dataset a)) as [|T rest] eqn:Hs.
    { rewrite H1 in Hin by done. simpl in Hin. by destruct Hin. }
    split; [done|]. intros Hf.
    rewrite H2 in Hin by done. simpl in Hin. by destruct Hin.
  - intros [Hs Hf].
    destruct (shape (lazy_dataset a)) as [|T rest] eqn:Hs'; [done|].
    destruct (pipeline_reaches_init E a T (SpecModel.ceil_div T (frames_per_split a)))
      as [rest' ->].
    + unfold total_frames. by rewrite Hs'.
    + by apply demo_num_chunks_ceil.
    + do 2 eexists. simpl. eauto.
Qed.

End PipelineOrder.

(* ===================================================================== *)
(** * Pixel values against physical values                                *)
(* ===================================================================== *)

Section PixelBounds.
Import CorrectStack.





(** X7. Tuples of different lengths are not refused: when the
    translation succeeds, [max_shifts] has as many entries as the shorter
    of [max_shift_um] and [pixel_size_um] (after broadcasting), and
    [strides] as many as the shorter of [patch_motion_um] and
    [pixel_size_um]. *)
Theorem translation_zips_to_the_shorter
    (a : args) (max_shifts strides : list Z) :
  translate a = Ok (max_shifts, strides) ->
  length max_shifts
  = Nat.min (length (broadcast (max_shift_um a)))
            (length (broadcast (pixel_size_um a)))
  /\ exists patch,
       patch_motion_um a = Tuple patch
       /\ length strides
          = Nat.min (length patch) (length (broadcast (pixel_size_um a))).
Proof.
  unfold translate. cbv zeta.
  destruct (int_div_zip (broadcast (max_shift_um a)) _) as [ms|e] eqn:Hms; [|done].
  cbn [rbind]. destruct (patch_motion_um a) as [s|patch]; [done|].
  cbn [iterable rbind].
  destruct (int_div_zip patch _) as [st|e] eqn:Hst; [|done].
  cbn [rbind]. intros [= <- <-].
  split; [by apply int_div_zip_length|].
  exists patch. split; [done|]. by apply int_div_zip_length.
Qed.

Lemma translation_zips_to_the_shorter_witness :
  length [6]
  = Nat.min (length (broadcast (max_shift_um (with_defaults Toy.stack (Tuple [2]%Q)))))
            (length (broadcast (pixel_size_um (with_defaults Toy.stack (Tuple [2]%Q)))))
  /\ exists patch,
       patch_motion_um (with_defaults Toy.stack (Tuple [2]%Q)) = Tuple patch
       /\ length [50]
          = Nat.min (length patch)
                    (length (broadcast (pixel_size_um (with_defaults Toy.stack (Tuple [2]%Q))))).
Proof.
  apply (translation_zips_to_the_shorter
           (with_defaults Toy.stack (Tuple [2]%Q)) [6] [50]).
  reflexivity.
Defined.

End PixelBounds.

(* ===================================================================== *)
(** * The options each entry point passes                                 *)
(* ===================================================================== *)

Section PassedOptions.

(** Whether a key is bound in a dictionary built by assignments, for
    each of the assigned keys in turn. *)
Ltac in_keys :=
  solve [apply list_elem_of_In; simpl; repeat (first [left; reflexivity | right])].

Ltac not_in_keys H :=
  apply list_elem_of_In in H; simpl in H;
  repeat (destruct H as [H|H]; [congruence|]); exact H.

Ltac key_cases bound unbound :=
  repeat (rewrite lookup_insert; case_decide;
          [subst; split; [intros _; bound | intros _; by eexists]|]);
  rewrite lookup_empty; split;
    [by intros [? ?] | let Hin := fresh "Hin" in intros Hin; exfalso; unbound Hin].

(** X8. The options the two entry points hand to the constructor. The
    pipeline passes twelve options, and [niter_els] besides exactly when
    [pw_rigid] is set; it never passes [min_mov], [nonneg_movie] or
    [indices]. [compute_shifts] always passes the same sixteen options,
    [niter_els] among them although its run is rigid. Both give the two
    chunk counts [splits_rig] and [splits_els] one value. *)
Theorem options_passed_to_the_engine
    (p : Demo.args) (c : CorrectStack.args) (n : Z) (ms st : list Z) :
  dom (Demo.mc_dict p n)
  = list_to_set ["upsample_factor_grid"; "strides"; "overlaps"; "max_shifts";
                 "max_deviation_rigid"; "pw_rigid"; "niter_rig";
                 "num_splits_to_process_els"; "num_splits_to_process_rig";
                 "gSig_filt"; "splits_els"; "splits_rig"]
    ∪ (if Demo.pw_rigid p then {["niter_els"]} else ∅)
  /\ dom (<["pw_rigid" := PyBool false]> (CorrectStack.mc_dict c n ms st))
     = list_to_set ["pw_rigid"; "min_mov"; "niter_rig"; "niter_els"; "nonneg_movie";
                    "num_splits_to_process_els"; "num_splits_to_process_rig";
                    "splits_els"; "splits_rig"; "upsample_factor_grid"; "indices";
                    "max_shifts"; "strides"; "gSig_filt"; "overlaps";
                    "max_deviation_rigid"]
  /\ Demo.mc_dict p n !! "splits_els" = Demo.mc_dict p n !! "splits_rig"
  /\ CorrectStack.mc_dict c n ms st !! "splits_els"
     = CorrectStack.mc_dict c n ms st !! "splits_rig".
Proof.
  split; [|split; [|split]].
  - apply set_eq. intros k.
    rewrite elem_of_dom, elem_of_union, elem_of_list_to_set.
    unfold Demo.mc_dict. destruct (Demo.pw_rigid p); cbv zeta.
    + key_cases ltac:(first [left; in_keys | right; by apply elem_of_singleton])
                ltac:(fun H => destruct H as [H|H];
                        [not_in_keys H | apply elem_of_singleton in H; congruence]).
    + key_cases ltac:(left; in_keys)
                ltac:(fun H => destruct H as [H|H];
                        [not_in_keys H | by apply elem_of_empty in H]).
  - apply set_eq. intros k.
    rewrite elem_of_dom, elem_of_list_to_set.
    unfold CorrectStack.mc_dict.
    key_cases ltac:(in_keys) ltac:(fun H => not_in_keys H).
  - unfold Demo.mc_dict. by simplify_map_eq.
  - unfold CorrectStack.mc_dict. by simplify_map_eq.
Qed.

End PassedOptions.

(* ===================================================================== *)
(** * Chunk counts at the edges                                           *)
(* ===================================================================== *)

Section ChunkCountEdges.
Import SpecModel.

(** X9. For a dataset of [T >= 0] frames and a positive chunk length,
    both entry points compute a chunk count [n] with [0 <= n <= T]: never
    more chunks than frames. It is 0 exactly for an empty dataset, 1
    exactly when all the frames fit one chunk, [T] for chunks of one
    frame, and it does not decrease when frames are added. *)
Theorem chunk_count_edges (T frames_per_split : Z) :
  0 <= T -> 0 < frames_per_split ->
  exists n : Z,
    Demo.num_chunks T frames_per_split = Ok n
    /\ CorrectStack.num_chunks T frames_per_split = Ok n
    /\ 0 <= n <= T
    /\ (n = 0 <-> T = 0)
    /\ (n = 1 <-> 0 < T <= frames_per_split)
    /\ (frames_per_split = 1 -> n = T)
    /\ (forall T' n' : Z,
          T <= T' -> Demo.num_chunks T' frames_per_split = Ok n' -> n <= n').
Proof.
  intros HT Hf. exists (ceil_div T frames_per_split).
  pose proof (ceil_div_bounds T frames_per_split Hf) as B.
  split; [apply demo_num_chunks_ceil; lia|].
  split; [apply stack_num_chunks_ceil; lia|].
  split; [nia|]. split; [nia|]. split; [nia|]. split; [nia|].
  intros T' n' HT' Hn'.
  rewrite demo_num_chunks_ceil in Hn' by lia. injection Hn' as <-.
  pose proof (ceil_div_bounds T' frames_per_split Hf). nia.
Qed.

Lemma chunk_count_edges_witness :
  exists n : Z,
    Demo.num_chunks 3 1000 = Ok n
    /\ CorrectStack.num_chunks 3 1000 = Ok n
    /\ 0 <= n <= 3
    /\ (n = 0 <-> 3 = 0)
    /\ (n = 1 <-> 0 < 3 <= 1000)
    /\ (1000 = 1 -> n = 3)
    /\ (forall T' n' : Z,
          3 <= T' -> Demo.num_chunks T' 1000 = Ok n' -> n <= n').
Proof. apply (chunk_count_edges 3 1000); lia. Defined.

End ChunkCountEdges.

(* ===================================================================== *)
(** * The time axis of [compute_shifts]                                   *)
(* ===================================================================== *)

Section TimeAxis.
Import CorrectStack.

(** X10. [compute_shifts] takes a stack in [(x, y, t)] order and hands
    the engine the stack in [(t, y, x)] order: entry [[t, y, x]] of what
    the constructor receives is entry [[x, y, t]] of the stack, and the
    chunk count it receives is computed from the length [nt] of the last
    axis of the stack, [ceil(nt / splits)]. *)
Theorem engine_sees_time_first
    (E : MotionCorrectClass) (a : args) (nx ny nt : Z) :
  shape (stack a) = [nx; ny; nt] ->
  is_ok (configure a) = true ->
  exists data kwargs rest,
    calls (compute_shifts E a) = CallInit data kwargs :: rest
    /\ shape data = [nt; ny; nx]
    /\ (forall t y x : Z, item data [t; y; x] = item (stack a) [x; y; t])
    /\ kwargs !! "splits_rig" = Some (PyInt (SpecModel.ceil_div nt (splits a)))
    /\ kwargs !! "splits_els" = Some (PyInt (SpecModel.ceil_div nt (splits a))).
Proof.
  intros Hsh Hok.
  destruct (configure a) as [kw|e] eqn:Hcfg; [|done].
  destruct (compute_shifts_first_call E a kw Hcfg) as [rest Hcalls].
  exists (ndarray_T (stack a)), (<["pw_rigid" := PyBool false]> kw), rest.
  split; [done|]. split; [by unfold ndarray_T; simpl; rewrite Hsh|].
  split; [done|].
  unfold configure in Hcfg. rewrite Hsh in Hcfg. cbn [unpack3 rbind] in Hcfg.
  destruct (Z.eq_dec (splits a) 0) as [Hs|Hs].
  { rewrite Hs in Hcfg. by vm_compute in Hcfg. }
  rewrite stack_num_chunks_ceil in Hcfg by done. cbn [rbind] in Hcfg.
  destruct (translate a) as [[ms st]|e]; [|done]. cbn [rbind] in Hcfg.
  injection Hcfg as <-. unfold mc_dict. by simplify_map_eq.
Qed.

Lemma engine_sees_time_first_witness :
  exists data kwargs rest,
    calls (compute_shifts Toy.engine (with_defaults Toy.stack (Scalar 1)))
    = CallInit data kwargs :: rest
    /\ shape data = [2; 2; 3]
    /\ (forall t y x : Z, item data [t; y; x] = item Toy.stack [x; y; t])
    /\ kwargs !! "splits_rig" = Some (PyInt (SpecModel.ceil_div 2 200))
    /\ kwargs !! "splits_els" = Some (PyInt (SpecModel.ceil_div 2 200)).
Proof.
  apply (engine_sees_time_first
           Toy.engine (with_defaults Toy.stack (Scalar 1)) 3 2 2); reflexivity.
Defined.

End TimeAxis.

(* ===================================================================== *)
(** * Rounding                                                            *)
(* ===================================================================== *)

Section Rounding.

Lemma floor_bounds (x : Q) :
  (inject_Z (Qfloor x) <= x)%Q /\ (x < inject_Z (Qfloor x) + 1)%Q.
Proof.
  split; [apply Qfloor_le|].
  pose proof (Qlt_floor x) as H. by rewrite inject_Z_plus in H.
Qed.

Lemma floor_unique (x : Q) (z : Z) :
  (inject_Z z <= x)%Q -> (x < inject_Z z + 1)%Q -> Qfloor x = z.
Proof.
  intros H1 H2. destruct (floor_bounds x) as [F1 F2].
  assert (inject_Z (Qfloor x) < inject_Z (z + 1))%Q as A
    by (rewrite inject_Z_plus; change (inject_Z 1) with 1%Q; lra).
  assert (inject_Z z < inject_Z (Qfloor x + 1))%Q as B
    by (rewrite inject_Z_plus; change (inject_Z 1) with 1%Q; lra).
  rewrite <- Zlt_Qlt in A, B. lia.
Qed.

(** [py_round x] by the fractional part of [x]. *)
Lemma py_round_cases (x : Q) :
  ((x - inject_Z (Qfloor x) < 1 # 2)%Q /\ py_round x = Qfloor x)
  \/ ((1 # 2 < x - inject_Z (Qfloor x))%Q /\ py_round x = Qfloor x + 1)
  \/ ((x - inject_Z (Qfloor x) == 1 # 2)%Q
      /\ py_round x = if Z.even (Qfloor x) then Qfloor x else Qfloor x + 1).
Proof.
  unfold py_round. cbv zeta.
  destruct (x - inject_Z (Qfloor x) ?= 1 # 2)%Q eqn:E.
  - right. right. split; [by apply Qeq_alt|done].
  - left. split; [by apply Qlt_alt|done].
  - right. left. split; [by apply Qgt_alt in E|done].
Qed.

Lemma py_round_near (x : Q) :
  (inject_Z (py_round x) - (1 # 2) <= x)%Q /\ (x <= inject_Z (py_round x) + (1 # 2))%Q.
Proof.
  destruct (floor_bounds x) as [F1 F2].
  destruct (py_round_cases x) as [[H ->]|[[H ->]|[H ->]]].
  - lra.
  - rewrite inject_Z_plus. change (inject_Z 1) with 1%Q. lra.
  - destruct (Z.even (Qfloor x)); [lra|].
    rewrite inject_Z_plus. change (inject_Z 1) with 1%Q. lra.
Qed.

Lemma py_round_comp (x y : Q) : (x == y)%Q -> py_round x = py_round y.
Proof.
  intros H. unfold py_round. cbv zeta.
  rewrite (Qfloor_comp _ _ H).
  assert (x - inject_Z (Qfloor y) == y - inject_Z (Qfloor y))%Q as E by (by rewrite H).
  by rewrite (Qcompare_comp _ _ E _ _ (Qeq_refl (1 # 2))).
Qed.

Lemma py_round_Z (z : Z) : py_round (inject_Z z) = z.
Proof.
  destruct (py_round_cases (inject_Z z)) as [[H ->]|[[H _]|[H _]]];
    rewrite Qfloor_Z in *; [done| |]; lra.
Qed.

Lemma py_round_mono (x y : Q) : (x <= y)%Q -> py_round x <= py_round y.
Proof.
  intros Hxy.
  pose proof (Qfloor_resp_le _ _ Hxy) as Hf.
  destruct (floor_bounds x) as [X1 X2]. destruct (floor_bounds y) as [Y1 Y2].
  assert (Qfloor x <= py_round x <= Qfloor x + 1) as Bx.
  { destruct (py_round_cases x) as [[_ ->]|[[_ ->]|[_ ->]]]; [lia|lia|].
    destruct (Z.even _); lia. }
  assert (Qfloor y <= py_round y <= Qfloor y + 1) as By.
  { destruct (py_round_cases y) as [[_ ->]|[[_ ->]|[_ ->]]]; [lia|lia|].
    destruct (Z.even _); lia. }
  destruct (Z.eq_dec (Qfloor x) (Qfloor y)) as [E|NE]; [|lia].
  destruct (py_round_cases x) as [[Hx ->]|[[Hx ->]|[Hx ->]]]; [lia| |].
  - destruct (py_round_cases y) as [[Hy ->]|[[Hy ->]|[Hy ->]]]; [|lia|].
    + rewrite E in Hx. lra.
    + rewrite E in Hx. lra.
  - destruct (py_round_cases y) as [[Hy ->]|[[Hy ->]|[Hy ->]]].
    + rewrite E in Hx. lra.
    + destruct (Z.even _); lia.
    + rewrite E. destruct (Z.even _); lia.
Qed.

End Rounding.

(* ===================================================================== *)
(** * Evenly spaced samples                                               *)
(* ===================================================================== *)

Section Linspace.
Import Simulate.

Lemma linspace_length (start stop : Q) (n : nat) :
  length (linspace start stop n) = n.
Proof.
  destruct n as [|[|n]]; [done|done|].
  unfold linspace. by rewrite length_map, length_seq.
Qed.

(** Entry [i] of [linspace start stop n], up to equality of rationals. *)
Lemma linspace_lookup (start stop : Q) (n i : nat) :
  (i < n)%nat ->
  exists e : Q,
    linspace start stop n !! i = Some e
    /\ (e == start + inject_Z (Z.of_nat i)
                     * ((stop - start) / inject_Z (Z.of_nat (n - 1))))%Q.
Proof.
  intros Hi. destruct n as [|[|n]]; [lia| |].
  - assert (i = 0%nat) as -> by lia. exists start. split; [done|].
    simpl. unfold Qdiv. change (/ inject_Z 0)%Q with 0%Q. ring.
  - eexists. split; [|reflexivity].
    unfold linspace. change (map ?f ?l) with (f <$> l).
    rewrite list_lookup_fmap, lookup_seq_lt by lia. simpl.
    by replace (S n - 0)%nat with (S n) by lia.
Qed.

Section Rounded.
(** A rounding that is monotone on the non-negative rationals and takes
    equal rationals to one integer, and 0 to 0. *)
Variable rho : Q -> Z.
Hypothesis rho_mono : forall x y : Q, (0 <= x)%Q -> (x <= y)%Q -> rho x <= rho y.
Hypothesis rho_comp : forall x y : Q, (0 <= x)%Q -> (x == y)%Q -> rho x = rho y.
Hypothesis rho_0 : rho 0%Q = 0.

Lemma rounded_linspace_rises (stop : Q) (n : nat) :
  (0 <= stop)%Q ->
  rises_to (rho stop) n (rho <$> linspace 0 stop n).
Proof.
  intros Hstop. set (step := ((stop - 0) / inject_Z (Z.of_nat (n - 1)))%Q).
  assert (0 <= step)%Q as Hstep.
  { unfold step, Qdiv. apply Qmult_le_0_compat; [lra|].
    apply Qinv_le_0_compat. change 0%Q with (inject_Z 0).
    rewrite <- Zle_Qle. lia. }
  assert (forall i : nat, (i < n)%nat ->
            (inject_Z (Z.of_nat i) * step <= stop)%Q) as Hup.
  { intros i Hi. destruct (decide (n = 1%nat)) as [->|Hn].
    - assert (i = 0%nat) as -> by lia. change (inject_Z (Z.of_nat 0)) with 0%Q. lra.
    - assert (~ inject_Z (Z.of_nat (n - 1)) == 0)%Q as Hnz.
      { change 0%Q with (inject_Z 0). rewrite inject_Z_injective. lia. }
      assert (inject_Z (Z.of_nat (n - 1)) * step == stop)%Q as E
        by (unfold step; field; exact Hnz).
      rewrite <- E. apply Qmult_le_compat_r; [|done].
      rewrite <- Zle_Qle. lia. }
  assert (forall (i : nat) (v : Z),
            (rho <$> linspace 0 stop n) !! i = Some v ->
            (i < n)%nat
            /\ exists e, (0 <= e)%Q
                 /\ (e == inject_Z (Z.of_nat i) * step)%Q /\ v = rho e) as Hget.
  { intros i v Hv.
    assert (i < n)%nat as Hi.
    { apply lookup_lt_Some in Hv. by rewrite length_fmap, linspace_length in Hv. }
    split; [done|].
    destruct (linspace_lookup 0 stop n i Hi) as (e & He & Ee).
    rewrite list_lookup_fmap, He in Hv. injection Hv as <-.
    assert (e == inject_Z (Z.of_nat i) * step)%Q as Ee'
      by (rewrite Ee; unfold step; ring).
    exists e. split; [|by split]. rewrite Ee'.
    apply Qmult_le_0_compat; [|done].
    change 0%Q with (inject_Z 0). rewrite <- Zle_Qle. lia. }
  unfold rises_to. split; [by rewrite length_fmap, linspace_length|].
  split; [|split; [|split]].
  - intros i v Hv. destruct (Hget i v Hv) as (Hi & e & He0 & Ee & ->).
    split.
    + rewrite <- rho_0. apply rho_mono; [done|exact He0].
    + apply rho_mono; [done|]. rewrite Ee. by apply Hup.
  - intros i j v w Hij Hv Hw.
    destruct (Hget i v Hv) as (Hi & e & He0 & Ee & ->).
    destruct (Hget j w Hw) as (Hj & e' & He0' & Ee' & ->).
    apply rho_mono; [done|]. rewrite Ee, Ee'.
    apply Qmult_le_compat_r; [|done]. rewrite <- Zle_Qle. lia.
  - intros Hn.
    destruct (linspace_lookup 0 stop n 0 ltac:(lia)) as (e & He & Ee).
    rewrite list_lookup_fmap, He. simpl. f_equal.
    assert (0 == e)%Q as E0
      by (rewrite Ee; change (inject_Z (Z.of_nat 0)) with 0%Q; ring).
    rewrite <- rho_0. symmetry. by apply rho_comp.
  - intros Hn.
    destruct (linspace_lookup 0 stop n (n - 1) ltac:(lia)) as (e & He & Ee).
    rewrite list_lookup_fmap, He. simpl. f_equal.
    assert (~ inject_Z (Z.of_nat (n - 1)) == 0)%Q as Hnz.
    { change 0%Q with (inject_Z 0). rewrite inject_Z_injective. lia. }
    assert (stop == e)%Q as E1 by (rewrite Ee; field; exact Hnz).
    symmetry. by apply rho_comp.
Qed.

End Rounded.

Lemma py_int_Z (z : Z) : py_int (inject_Z z) = z.
Proof. unfold py_int. simpl. apply Z.quot_1_r. Qed.

Lemma py_int_mono_nonneg (x y : Q) : (0 <= x)%Q -> (x <= y)%Q -> py_int x <= py_int y.
Proof.
  intros Hx Hxy. rewrite !py_int_floor by lra. by apply Qfloor_resp_le.
Qed.

Lemma py_int_comp_nonneg (x y : Q) : (0 <= x)%Q -> (x == y)%Q -> py_int x = py_int y.
Proof.
  intros Hx E. rewrite !py_int_floor by lra. by apply Qfloor_comp.
Qed.

Lemma shift_profile_rises (maxv : Q) (nt : nat) :
  (0 <= maxv)%Q -> rises_to (py_round maxv) nt (shift_profile maxv nt).
Proof.
  intros H. unfold shift_profile. change (map py_round ?l) with (py_round <$> l).
  apply rounded_linspace_rises; auto using py_round_mono, py_round_comp.
Qed.

(** X11. The two ground-truth profiles that [create_test_data] returns
    for non-negative [maxx] and [maxy] each have [nt] entries, start at 0,
    never decrease, and end at the rounded maximum ([round(maxx)],
    [round(maxy)]), which no entry exceeds. *)
Theorem ground_truth_profiles_rise (nt : nat) (maxx maxy : Q) :
  (0 <= maxx)%Q -> (0 <= maxy)%Q ->
  rises_to (py_round maxx) nt (fst (create_test_data_shifts nt maxx maxy))
  /\ rises_to (py_round maxy) nt (snd (create_test_data_shifts nt maxx maxy)).
Proof.
  intros Hx Hy. unfold create_test_data_shifts, shift_profile. simpl.
  change (map py_round ?l) with (py_round <$> l).
  split; apply rounded_linspace_rises; try done;
    auto using py_round_mono, py_round_comp.
Qed.

Lemma ground_truth_profiles_rise_witness :
  rises_to (py_round 10) 500 (fst (create_test_data_shifts 500 10 0))
  /\ rises_to (py_round 0) 500 (snd (create_test_data_shifts 500 10 0)).
Proof. apply (ground_truth_profiles_rise 500 10 0); vm_compute; discriminate. Defined.

Lemma frame_indices_rise (nt : Z) (n : nat) :
  1 <= nt ->
  rises_to (nt - 1) n (SimulatePlots.frame_indices nt n).
Proof.
  intros Hnt. unfold SimulatePlots.frame_indices.
  rewrite <- (py_int_Z (nt - 1)) at 1.
  apply rounded_linspace_rises;
    auto using py_int_mono_nonneg, py_int_comp_nonneg.
  change 0%Q with (inject_Z 0). rewrite <- Zle_Qle. lia.
Qed.

(** X12. The frames the plots show, [np.linspace(0, nt - 1,
    n).astype(int)] for a stack of [nt >= 1] frames and [n] axes: [n]
    frame numbers within [0, nt - 1] that never decrease, the first
    frame first (when [n >= 1]) and the last frame last (when
    [n >= 2]). *)
Theorem plotted_frames_span_the_stack (nt : Z) (n : nat) :
  1 <= nt ->
  rises_to (nt - 1) n (SimulatePlots.frame_indices nt n).
Proof. apply frame_indices_rise. Qed.

Lemma plotted_frames_span_the_stack_witness :
  rises_to (500 - 1) 4 (SimulatePlots.frame_indices 500 4).
Proof. apply (plotted_frames_span_the_stack 500 4). lia. Defined.

End Linspace.

(* ===================================================================== *)
(** * The overlaps of [main]                                              *)
(* ===================================================================== *)

Section MainOverlaps.
Import Demo.

(** [round(s / 4)] for an integer [s]. *)
Lemma quarter_round (s : Z) :
  4 * py_round (inject_Z s / 4) - 2 <= s <= 4 * py_round (inject_Z s / 4) + 2
  /\ (s mod 4 = 2 -> Z.even (py_round (inject_Z s / 4)) = true).
Proof.
  assert (inject_Z s / 4 == inject_Z s * (1 # 4))%Q as Eq by reflexivity.
  remember (inject_Z s / 4)%Q as q eqn:Hq.
  set (o := py_round q).
  destruct (py_round_near q) as [N1 N2]. fold o in N1, N2.
  split.
  - split; rewrite Zle_Qle.
    + unfold Z.sub. rewrite inject_Z_plus, inject_Z_mult.
      change (inject_Z 4) with 4%Q. change (inject_Z (Z.opp 2)) with (- (2))%Q. lra.
    + rewrite inject_Z_plus, inject_Z_mult.
      change (inject_Z 4) with 4%Q. change (inject_Z 2) with 2%Q. lra.
  - intros Hmod.
    assert (s = 4 * (s / 4) + 2) as Hs by (rewrite <- Hmod; apply Z.div_mod; lia).
    set (k := s / 4) in *.
    assert (inject_Z s == 4 * inject_Z k + 2)%Q as Es.
    { rewrite Hs at 1. rewrite inject_Z_plus, inject_Z_mult. reflexivity. }
    assert (Qfloor q = k) as Hf by (apply floor_unique; lra).
    unfold o.
    destruct (py_round_cases q) as [[H _]|[[H _]|[_ ->]]];
      rewrite Hf in *; [lra|lra|].
    destruct (Z.even k) eqn:Hk; [done|].
    by rewrite Z.even_add, Hk.
Qed.

(** X13. In [main], each overlap is the quarter of its stride rounded
    to the nearest integer, ties going to the even one: four times the
    overlap is within 2 of the stride, it is even when the stride leaves
    the remainder 2 modulo 4, and for a non-negative stride it lies
    between 0 and the stride. Only the first two strides get an overlap;
    with fewer than two strides [main] raises [IndexError]. *)
Theorem overlaps_are_quarter_strides (strides : list Z) :
  match strides with
  | s0 :: s1 :: _ =>
      exists o0 o1 : Z,
        overlaps_of strides = Ok (PyTuple [PyInt o0; PyInt o1])
        /\ Forall (fun '(s, o) =>
                     4 * o - 2 <= s <= 4 * o + 2
                     /\ (s mod 4 = 2 -> Z.even o = true)
                     /\ (0 <= s -> 0 <= o <= s))
                  [(s0, o0); (s1, o1)]
  | _ => overlaps_of strides = Err IndexError
  end
  /\ (forall (dxy patch_motion_um max_shift_um : list Q) (p : parameters),
        physical_parameters dxy patch_motion_um max_shift_um = Ok p ->
        exists st : list Z,
          int_div_zip patch_motion_um dxy = Ok st
          /\ p_strides p = PyTuple (PyInt <$> st)
          /\ overlaps_of st = Ok (p_overlaps p)).
Proof.
  split.
  - destruct strides as [|s0 [|s1 rest]]; [done|done|].
    exists (py_round (inject_Z s0 / 4)), (py_round (inject_Z s1 / 4)).
    split; [reflexivity|].
    destruct (quarter_round s0) as [B0 E0]. destruct (quarter_round s1) as [B1 E1].
    apply Forall_cons. split; [repeat split; try done; lia|].
    apply Forall_cons. split; [repeat split; try done; lia|]. constructor.
  - intros dxy patch ms p. unfold physical_parameters.
    destruct (int_div_zip patch dxy) as [st|e]; [|done]. cbn [rbind].
    destruct (int_div_zip ms dxy) as [m|e]; [|done]. cbn [rbind].
    destruct (overlaps_of st) as [o|e] eqn:Ho; [|done]. cbn [rbind].
    intros [= <-]. by exists st.
Qed.

End MainOverlaps.

(* ===================================================================== *)
(** * What the test checks                                                *)
(* ===================================================================== *)

Section TestVerdict.
Import CorrectStack TestMotionCorrect Simulate.

Lemma test_configure (dat : ndarray) (nx ny nt : Z) :
  shape dat = [nx; ny; nt] ->
  configure (test_args dat)
  = Ok (mc_dict (test_args dat) (SpecModel.ceil_div nt 4) [6; 6] [100; 100]).
Proof.
  intros Hsh. unfold configure. simpl stack. rewrite Hsh. cbn [unpack3 rbind].
  simpl splits. rewrite stack_num_chunks_ceil by lia. reflexivity.
Qed.

Lemma Qopp_opp_eq (q : Q) : Qopp (Qopp q) = q.
Proof. destruct q as [n d]. unfold Qopp. cbn [Qnum Qden]. f_equal. lia. Qed.

Lemma Qsquare_nonneg (q : Q) : (0 <= q * q)%Q.
Proof. destruct q as [n d]. unfold Qle, Qmult. cbn [Qnum Qden]. nia. Qed.

Lemma Qsquare_pos (q : Q) : ~ (q == 0)%Q -> (0 < q * q)%Q.
Proof.
  destruct q as [n d]. unfold Qlt, Qeq, Qmult. cbn [Qnum Qden]. nia.
Qed.

(** A sum of squared deviations is at least each of its terms. *)
Lemma sum_squares_bounds (m : Q) (xs : list Q) :
  (0 <= qsum (zip_with (fun x y => (x - m) * (y - m)) xs xs))%Q
  /\ forall x, In x xs ->
       ((x - m) * (x - m)
        <= qsum (zip_with (fun x y => (x - m) * (y - m)) xs xs))%Q.
Proof.
  induction xs as [|a xs [IH0 IH]]; cbn [zip_with qsum fold_right].
  { split; [apply Qle_refl|]. intros x []. }
  fold (qsum (zip_with (fun x y => ((x - m) * (y - m))%Q) xs xs)).
  pose proof (Qsquare_nonneg (a - m)) as Ha.
  split; [lra|]. intros x [<-|Hx]; [lra|]. specialize (IH x Hx). lra.
Qed.

Lemma codev_self_nonneg (xs : list Q) : (0 <= codev xs xs)%Q.
Proof. apply sum_squares_bounds. Qed.

(** Two different entries give a positive variance. *)
Lemma codev_self_pos (xs : list Q) (a b : Q) :
  In a xs -> In b xs -> ~ (a == b)%Q -> (0 < codev xs xs)%Q.
Proof.
  intros Ha Hb Hab. unfold codev. cbv zeta. set (m := mean xs).
  destruct (sum_squares_bounds m xs) as [_ H].
  destruct (Qeq_dec a m) as [Ham|Ham].
  - assert (~ (b == m)%Q) as Hbm by (intros Hbm; apply Hab; by rewrite Ham, Hbm).
    specialize (H b Hb).
    assert (0 < (b - m) * (b - m))%Q; [|lra].
    apply Qsquare_pos. intros Heq. apply Hbm. lra.
  - specialize (H a Ha).
    assert (0 < (a - m) * (a - m))%Q; [|lra].
    apply Qsquare_pos. intros Heq. apply Ham. lra.
Qed.

Lemma qsum_opp (xs : list Q) : (qsum (Qopp <$> xs) == - qsum xs)%Q.
Proof.
  induction xs as [|x xs IH]; [reflexivity|].
  cbn [fmap list_fmap qsum fold_right].
  change (fold_right Qplus 0%Q (list_fmap Q Q Qopp xs)) with (qsum (Qopp <$> xs)).
  change (fold_right Qplus 0%Q xs) with (qsum xs). rewrite IH. ring.
Qed.

Lemma mean_opp (xs : list Q) : (mean (Qopp <$> xs) == - mean xs)%Q.
Proof.
  unfold mean. rewrite length_fmap, qsum_opp. unfold Qdiv. ring.
Qed.

Lemma qsum_zip_opp (mx my my' : Q) (xs ys : list Q) :
  (my' == - my)%Q ->
  (qsum (zip_with (fun x y => (x - mx) * (y - my')) xs (Qopp <$> ys))
   == - qsum (zip_with (fun x y => (x - mx) * (y - my)) xs ys))%Q.
Proof.
  intros Hm. revert ys. induction xs as [|x xs IH]; intros [|y ys];
    try reflexivity.
  cbn [fmap list_fmap zip_with qsum fold_right].
  specialize (IH ys). unfold qsum in IH. cbn [fmap] in IH.
  rewrite IH, Hm. ring.
Qed.

Lemma codev_opp_r (xs ys : list Q) : (codev xs (Qopp <$> ys) == - codev xs ys)%Q.
Proof. unfold codev. cbv zeta. apply qsum_zip_opp, mean_opp. Qed.

(** A sequence with some variance correlates perfectly with itself... *)
Lemma perfect_recovery_correlates (t : Q) (xs : list Q) :
  (t * t < 1)%Q -> (0 < codev xs xs)%Q -> corr_exceeds t xs xs = true.
Proof.
  intros Ht Hpos. unfold corr_exceeds. cbv zeta.
  set (s := codev xs xs) in *.
  assert (0 < s * s)%Q as Hss by (apply Qsquare_pos; lra).
  rewrite Nat.eqb_refl. cbn [andb].
  assert (Qeq_bool (s * s) 0 = false) as ->.
  { apply not_true_is_false. intros H. apply Qeq_bool_iff in H. lra. }
  assert (Qle_bool 0 s = true) as -> by (apply Qle_bool_iff; lra).
  assert (Qle_bool (s * s) (t * t * (s * s)) = false) as ->; [|done].
  apply not_true_is_false. intros H. apply Qle_bool_iff in H. nra.
Qed.

(** ... and never with its negation. *)
Lemma flipped_recovery_anticorrelates (t : Q) (xs : list Q) :
  corr_exceeds t xs (Qopp <$> xs) = false.
Proof.
  destruct (Qeq_dec (codev xs xs) 0) as [H0|H0].
  { by apply corr_exceeds_zero_variance. }
  pose proof (codev_self_nonneg xs) as Hge.
  pose proof (codev_opp_r xs xs) as Hopp.
  unfold corr_exceeds. cbv zeta.
  assert (Qle_bool 0 (codev xs (Qopp <$> xs)) = false) as ->.
  { apply not_true_is_false. intros H. apply Qle_bool_iff in H. lra. }
  by rewrite andb_false_r.
Qed.

Lemma test_profile_varies :
  (0 < codev (inject_Z <$> fst (create_test_data_shifts 500 10 0))
             (inject_Z <$> fst (create_test_data_shifts 500 10 0)))%Q.
Proof.
  destruct profile_x_ends as (_ & Hhead & Hlast).
  apply (codev_self_pos _ (inject_Z 0) (inject_Z 10)); [| |done].
  - apply in_map. destruct (fst _) as [|z l]; [done|].
    injection Hhead as ->. by left.
  - apply in_map. apply last_Some in Hlast as [l' ->].
    apply in_or_app. right. by left.
Qed.

(** X14. What [test_motion_correct_simple_rigid] decides, once the
    engine has accumulated the rigid records [recs] on the test's stack:
    its verdict is the comparison of the ground-truth x profile with the
    negated second components of the records, and the first components
    (the y axis) play no part in it. The test passes when the second
    components are the negated ground truth, and fails when they are the
    ground truth itself: it pins the sign of the returned shifts. *)
Theorem test_pins_the_sign_of_x
    (E : MotionCorrectClass) (dat : ndarray) (nx ny nt : Z)
    (c0 c1 : corrector E) (r : frame_corrector E * option string)
    (recs : list (Q * Q)) :
  shape dat = [nx; ny; nt] ->
  mc_init E (ndarray_T dat)
    (<["pw_rigid" := PyBool false]>
       (mc_dict (test_args dat) (SpecModel.ceil_div nt 4) [6; 6] [100; 100]))
  = Ok c0 ->
  mc_motion_correct E c0 None false = Ok (c1, r) ->
  shifts_rig E c1 = record_row <$> recs ->
  recs <> [] ->
  test_motion_correct_simple_rigid E dat
  = Ok (corr_exceeds (95 # 100)
          (inject_Z <$> fst (create_test_data_shifts 500 10 0))
          (Qopp <$> (snd <$> recs)))
  /\ (snd <$> recs
      = (fun z => - inject_Z z)%Q <$> fst (create_test_data_shifts 500 10 0) ->
      test_motion_correct_simple_rigid E dat = Ok true)
  /\ (snd <$> recs = inject_Z <$> fst (create_test_data_shifts 500 10 0) ->
      test_motion_correct_simple_rigid E dat = Ok false).
Proof.
  intros Hsh Hinit Hmc Hrig Hne.
  assert (test_motion_correct_simple_rigid E dat
          = Ok (corr_exceeds (95 # 100)
                  (inject_Z <$> fst (create_test_data_shifts 500 10 0))
                  (Qopp <$> (snd <$> recs)))) as Hverdict.
  { unfold test_motion_correct_simple_rigid.
    rewrite compute_shifts_unfold, (test_configure dat nx ny nt Hsh).
    cbv zeta. simpl stack. rewrite Hinit, Hmc, Hrig. unfold outcome. cbn [snd].
    rewrite (unpack_shifts_records _ Hne).
    destruct (create_test_data_shifts 500 10 0) as [sx sy]. cbn [rbind fst].
    by rewrite <- list_fmap_compose. }
  split; [exact Hverdict|]. split; intros Hsnd; rewrite Hverdict, Hsnd.
  - rewrite <- list_fmap_compose.
    rewrite (list_fmap_ext (Qopp ∘ (fun z => - inject_Z z)%Q) inject_Z
               (fst (create_test_data_shifts 500 10 0))
               (fun _ z _ => Qopp_opp_eq (inject_Z z))).
    by rewrite perfect_recovery_correlates by (done || apply test_profile_varies).
  - by rewrite flipped_recovery_anticorrelates.
Qed.

Lemma test_pins_the_sign_of_x_witness :
  test_motion_correct_simple_rigid
    (CallLog.recording_engine
       (record_row <$> ((fun z => (0, - inject_Z z)%Q)
                          <$> fst (create_test_data_shifts 500 10 0))))
    (zeros [30; 20; 500])
  = Ok true.
Proof.
  eapply (test_pins_the_sign_of_x
            (CallLog.recording_engine
               (record_row <$> ((fun z => (0, - inject_Z z)%Q)
                                  <$> fst (create_test_data_shifts 500 10 0))))
            (zeros [30; 20; 500]) 30 20 500 tt tt (tt, None)
            ((fun z => (0, - inject_Z z)%Q) <$> fst (create_test_data_shifts 500 10 0))).
  - reflexivity.
  - reflexivity.
  - reflexivity.
  - reflexivity.
  - vm_compute. discriminate.
  - vm_compute. reflexivity.
Defined.

End TestVerdict.

(* ===================================================================== *)
(** * What the plots draw                                                 *)
(* ===================================================================== *)

Section Plots.
Import SimulatePlots.

Lemma take_frame_3d (dat : ndarray) (n0 n1 nt f : Z) :
  shape dat = [n0; n1; nt] -> 0 <= f < nt ->
  exists image,
    take_frame dat f = Ok image
    /\ shape image = [n1; n0]
    /\ forall x y : Z, item image [y; x] = item dat [x; y; f].
Proof.
  intros Hsh Hf. unfold take_frame. rewrite Hsh.
  destruct (Z.leb_spec (- nt) f); [|lia].
  destruct (Z.ltb_spec f nt); [|lia].
  destruct (Z.ltb_spec f 0); [lia|].
  eexists. split; [reflexivity|]. by split.
Qed.

Lemma take_frame_empty (dat : ndarray) (n0 n1 : Z) (rest : list Z) (f : Z) :
  shape dat = n0 :: n1 :: 0 :: rest -> take_frame dat f = Err IndexError.
Proof.
  intros Hsh. unfold take_frame. rewrite Hsh.
  destruct (Z.leb_spec (- 0) f), (Z.ltb_spec f 0); try done; lia.
Qed.

(** A loop whose passes all succeed makes the calls of its passes, in
    order. *)
Lemma for_each_ok {A} (body : nat -> A -> plot unit) (i : nat) (xs : list A) :
  (forall (k : nat) (x : A), xs !! k = Some x -> snd (body (i + k)%nat x) = Ok tt) ->
  for_each body i xs
  = (concat (imap (fun k x => fst (body (i + k)%nat x)) xs), Ok tt).
Proof.
  revert i. induction xs as [|x xs IH]; intros i Hok; [done|].
  cbn [for_each]. pose proof (Hok 0%nat x eq_refl) as H0.
  rewrite Nat.add_0_r in H0. destruct (body i x) as [l r] eqn:Hb.
  simpl in H0. subst r. unfold plot_bind.
  rewrite IH.
  - cbn [imap concat]. rewrite Nat.add_0_r, Hb. cbn [fst]. f_equal. f_equal.
    f_equal. apply imap_ext. intros k y _. simpl. f_equal. f_equal. lia.
  - intros k y Hy. replace (S i + k)%nat with (i + S k)%nat by lia. by apply Hok.
Qed.

(** A property of every call of every pass holds of every call of the
    loop, whether it completes or not. *)
Lemma for_each_forall {A} (P : plot_call -> Prop) (body : nat -> A -> plot unit)
    (i : nat) (xs : list A) :
  (forall (k : nat) (x : A), xs !! k = Some x -> Forall P (fst (body (i + k)%nat x))) ->
  Forall P (fst (for_each body i xs)).
Proof.
  revert i. induction xs as [|x xs IH]; intros i HP; [constructor|].
  cbn [for_each]. pose proof (HP 0%nat x eq_refl) as H0.
  rewrite Nat.add_0_r in H0. destruct (body i x) as [l [[]|e]]; [|done].
  unfold plot_bind. destruct (for_each body (S i) xs) as [l' r] eqn:Hrest.
  cbn [fst] in *. apply Forall_app. split; [done|].
  specialize (IH (S i)). rewrite Hrest in IH. apply IH.
  intros k y Hy. replace (S i + k)%nat with (i + S k)%nat by lia. by apply HP.
Qed.

Lemma plot_bind_ok {A B} (l : list plot_call) (a : A) (f : A -> plot B) :
  plot_bind (l, Ok a) f = (l ++ fst (f a), snd (f a)).
Proof. unfold plot_bind. by destruct (f a). Qed.

Lemma plot_bind_err {A B} (l : list plot_call) (e : exn) (f : A -> plot B) :
  plot_bind (l, Err e) f = (l, Err e).
Proof. done. Qed.

Lemma plot_bind_ret {A B} (a : A) (f : A -> plot B) :
  plot_bind (plot_ret a) f = f a.
Proof. unfold plot_bind, plot_ret. by destruct (f a). Qed.

Lemma plot_bind_lift_ok {A B} (a : A) (f : A -> plot B) :
  plot_bind (plot_lift (Ok a)) f = f a.
Proof. apply plot_bind_ret. Qed.

Lemma plot_bind_lift_err {A B} (e : exn) (f : A -> plot B) :
  plot_bind (plot_lift (Err e)) f = ([], Err e).
Proof. done. Qed.

Lemma plot_bind_draw {B} (c : plot_call) (f : unit -> plot B) :
  plot_bind (draw c) f = (c :: fst (f tt), snd (f tt)).
Proof. unfold plot_bind, draw. by destruct (f tt). Qed.

Ltac plot_steps :=
  repeat first [ rewrite plot_bind_ret | rewrite plot_bind_lift_ok
               | rewrite plot_bind_lift_err | rewrite plot_bind_draw
               | rewrite plot_bind_ok | rewrite plot_bind_err
               | progress unfold plot_ret
               | progress cbn [fst snd app] ].

Lemma frame_indices_in_range (nt : Z) (n : nat) :
  1 <= nt -> Forall (fun f => 0 <= f < nt) (frame_indices nt n).
Proof.
  intros Hnt. destruct (frame_indices_rise nt n Hnt) as (_ & Hb & _).
  apply Forall_lookup. intros i f Hf. specialize (Hb i f Hf). lia.
Qed.

Lemma frame_indices_pair (nt : Z) : 1 <= nt -> frame_indices nt 2 = [0; nt - 1].
Proof.
  intros Hnt. destruct (frame_indices_rise nt 2 Hnt) as (Hlen & _ & _ & H0 & H1).
  destruct (frame_indices nt 2) as [|a [|b [|c l]]]; try done.
  specialize (H0 ltac:(lia)). specialize (H1 ltac:(lia)). simpl in H0, H1.
  congruence.
Qed.

(** The loop of [plot_test_data] over frames of the stack. *)
Lemma plot_test_data_loop (dat : ndarray) (n0 n1 nt : Z) (i : nat) (fs : list Z) :
  shape dat = [n0; n1; nt] ->
  Forall (fun f => 0 <= f < nt) fs ->
  exists l,
    for_each (fun i frame_i =>
                plot_bind (draw (SetTitle [i] frame_i)) (fun _ =>
                plot_bind (plot_lift (take_frame dat frame_i)) (fun image =>
                draw (Imshow [i] image)))) i fs
    = (l, Ok tt)
    /\ titles l = imap (fun k f => ([(i + k)%nat], f)) fs
    /\ (fst <$> images l) = imap (fun k _ => [(i + k)%nat]) fs
    /\ Forall2 (fun f image =>
                  shape image = [n1; n0]
                  /\ forall x y : Z, item image [y; x] = item dat [x; y; f])
               fs (snd <$> images l).
Proof.
  intros Hsh Hfs. revert i.
  induction Hfs as [|f fs Hf _ IH]; intros i.
  { exists []. repeat split; constructor. }
  destruct (take_frame_3d dat n0 n1 nt f Hsh Hf) as (image & Him & Hshape & Hitem).
  destruct (IH (S i)) as (l & Hl & Ht & Hax & Himg).
  exists (SetTitle [i] f :: Imshow [i] image :: l).
  set (body := fun (i : nat) (frame_i : Z) => _) in *.
  cbn [for_each]. rewrite Hl. subst body. cbn beta.
  unfold plot_bind, draw, plot_lift. rewrite Him. cbn [app].
  split; [done|].
  change (titles (SetTitle [i] f :: Imshow [i] image :: l))
    with (([i], f) :: titles l).
  change (images (SetTitle [i] f :: Imshow [i] image :: l))
    with (([i], image) :: images l).
  cbn [fmap list_fmap imap fst snd].
  split; [|split].
  - rewrite Nat.add_0_r. f_equal. rewrite Ht. apply imap_ext.
    intros k y _. simpl. do 2 f_equal. lia.
  - rewrite Nat.add_0_r. f_equal. rewrite Hax. apply imap_ext.
    intros k y _. simpl. do 2 f_equal. lia.
  - by constructor.
Qed.

(** X15. [plot_test_data] on a 3-D stack of [nt >= 1] frames, with [n]
    axes (4 when it makes them itself), returns the axes after titling
    axes [i] with the [i]-th of the [n] spread frame numbers and showing
    on it that frame of the stack, transposed: [n] titles and [n] images,
    in the order of the axes. On a stack without frames it raises
    [IndexError] as soon as there is one axes to draw on. *)
Theorem plot_test_data_shows_spread_frames
    (dat : ndarray) (axs : option nat) (n0 n1 nt : Z) :
  shape dat = [n0; n1; nt] ->
  (1 <= nt ->
   snd (plot_test_data dat axs) = Ok (default 4%nat axs)
   /\ titles (fst (plot_test_data dat axs))
      = imap (fun i f => ([i], f)) (frame_indices nt (default 4%nat axs))
   /\ (fst <$> images (fst (plot_test_data dat axs)))
      = imap (fun i _ => [i]) (frame_indices nt (default 4%nat axs))
   /\ Forall2 (fun f image =>
                 shape image = [n1; n0]
                 /\ forall x y : Z, item image [y; x] = item dat [x; y; f])
              (frame_indices nt (default 4%nat axs))
              (snd <$> images (fst (plot_test_data dat axs))))
  /\ (nt = 0 -> (1 <= default 4%nat axs)%nat ->
      snd (plot_test_data dat axs) = Err IndexError).
Proof.
  intros Hsh. split.
  - intros Hnt.
    destruct (plot_test_data_loop dat n0 n1 nt 0 _ Hsh
                (frame_indices_in_range nt (default 4%nat axs) Hnt))
      as (l & Hl & Ht & Hax & Himg).
    unfold plot_test_data, shape2. rewrite Hsh.
    destruct axs as [n|]; simpl default in *;
      plot_steps; rewrite Hl; plot_steps; unfold plot_ret;
      cbn [fst snd app]; rewrite ?app_nil_r; by repeat split.
  - intros -> Hn. unfold plot_test_data, shape2. rewrite Hsh.
    assert (exists fs, frame_indices 0 (default 4%nat axs) = 0 :: fs) as [fs Hfs].
    { unfold frame_indices. destruct (default 4%nat axs) as [|[|n]]; [lia| |];
        by eexists. }
    destruct axs as [n|]; simpl default in *;
      plot_steps; rewrite Hfs; cbn [for_each]; plot_steps;
      rewrite (take_frame_empty dat n0 n1 [] 0 Hsh); by plot_steps.
Qed.

Lemma plot_test_data_shows_spread_frames_witness :
  (1 <= 2 ->
   snd (plot_test_data Toy.stack None) = Ok (default 4%nat None)
   /\ titles (fst (plot_test_data Toy.stack None))
      = imap (fun i f => ([i], f)) (frame_indices 2 (default 4%nat None))
   /\ (fst <$> images (fst (plot_test_data Toy.stack None)))
      = imap (fun i _ => [i]) (frame_indices 2 (default 4%nat None))
   /\ Forall2 (fun f image =>
                 shape image = [2; 3]
                 /\ forall x y : Z, item image [y; x] = item Toy.stack [x; y; f])
              (frame_indices 2 (default 4%nat None))
              (snd <$> images (fst (plot_test_data Toy.stack None))))
  /\ (2 = 0 -> (1 <= default 4%nat None)%nat ->
      snd (plot_test_data Toy.stack None) = Err IndexError).
Proof. apply (plot_test_data_shows_spread_frames Toy.stack None 3 2 2). reflexivity. Defined.

Lemma frame_indices_length (nt : Z) (n : nat) : length (frame_indices nt n) = n.
Proof. unfold frame_indices. by rewrite length_fmap, linspace_length. Qed.

Lemma axes_at_ok (grid : nat * nat) (r c : nat) (pos : list nat) :
  axes_at grid r c = Ok pos ->
  pos = [r; c] /\ (r < fst grid)%nat /\ (c < snd grid)%nat.
Proof.
  unfold axes_at. destruct (_ && _) eqn:Hb; [|done].
  apply andb_prop in Hb as [Hr Hc]. apply Nat.ltb_lt in Hr, Hc.
  intros [= <-]. done.
Qed.

(** X16. [plot_test_data_and_corrected_test_data] takes the number of
    frames to show from [len(axs)], the number of ROWS of the grid, and
    uses the frame's position as the COLUMN. Whatever the stacks and the
    grid, and whether it completes or raises, it only ever draws on
    positions [(r, c)] of the grid with [r] among the two first rows and
    [c] below the number of rows. With the grid of 2 by 4 axes it makes
    itself and stacks of [nt >= 1] frames ([dat_corr] with at least as
    many) it completes after showing frames [0] and [nt - 1] only, each
    frame of [dat] above the same frame of [dat_corr], in columns 0 and
    1: the columns 2 and 3 stay empty. *)
Theorem corrected_plot_fills_as_many_columns_as_rows
    (dat dat_corr : ndarray) (axs : option (nat * nat)) :
  Forall (fun call =>
            Forall (fun pos => exists r c : nat,
                        pos = [r; c] /\ (r < 2)%nat
                        /\ (r < fst (default (2, 4)%nat axs))%nat
                        /\ (c < fst (default (2, 4)%nat axs))%nat
                        /\ (c < snd (default (2, 4)%nat axs))%nat)
                   (drawn_on call))
         (fst (plot_test_data_and_corrected_test_data dat dat_corr axs))
  /\ (forall n0 n1 nt m0 m1 mt : Z,
        axs = None ->
        shape dat = [n0; n1; nt] -> shape dat_corr = [m0; m1; mt] ->
        1 <= nt <= mt ->
        exists a0 b0 a1 b1 : ndarray,
          take_frame dat 0 = Ok a0 /\ take_frame dat_corr 0 = Ok b0
          /\ take_frame dat (nt - 1) = Ok a1
          /\ take_frame dat_corr (nt - 1) = Ok b1
          /\ plot_test_data_and_corrected_test_data dat dat_corr axs
             = ([Subplots 2 4;
                 SetTitle [0; 0]%nat 0; Imshow [0; 0]%nat a0; Imshow [1; 0]%nat b0;
                 SetTitle [0; 1]%nat (nt - 1); Imshow [0; 1]%nat a1;
                 Imshow [1; 1]%nat b1],
                Ok (2, 4)%nat)).
Proof.
  split.
  - set (g := default (2, 4)%nat axs).
    set (P := fun call : plot_call => Forall _ (drawn_on call)).
    assert (Hpre : forall l : list plot_call, l = [] \/ l = [Subplots 2 4] ->
                                             Forall P l).
    { intros l [->| ->]; repeat constructor. }
    unfold plot_test_data_and_corrected_test_data.
    assert (exists pre, (pre = [] \/ pre = [Subplots 2 4])
              /\ match axs with
                 | None => plot_bind (draw (Subplots 2 4))
                             (fun _ => plot_ret (2, 4)%nat)
                 | Some g => plot_ret g
                 end = (pre, Ok g)) as (pre & Hp & ->).
    { destruct axs as [g'|]; eexists; (split; [|reflexivity]); auto. }
    rewrite plot_bind_ok. cbn [fst].
    apply Forall_app. split; [by apply Hpre|].
    unfold shape2. destruct (shape dat) as [|? [|? [|nt ?]]];
      try (rewrite plot_bind_lift_err; constructor).
    rewrite plot_bind_lift_ok.
    match goal with
    | |- context [for_each ?b ?i ?xs] =>
        pose proof (for_each_forall P b i xs) as Hloop;
        destruct (for_each b i xs) as [lg [[]|e]]
    end; cbn [fst] in Hloop; plot_steps; rewrite ?app_nil_r; apply Hloop;
      intros k f Hk; apply lookup_lt_Some in Hk;
      rewrite frame_indices_length in Hk; cbn [Nat.add];
      (destruct (axes_at g 0 k) as [p0|] eqn:H0; plot_steps; [|constructor]);
      apply axes_at_ok in H0 as (-> & Hr0 & Hc0);
      (assert (P (SetTitle [0%nat; k] f))
         by (repeat constructor; exists 0%nat, k; repeat split; lia));
      (apply Forall_cons; split; [done|]);
      (destruct (take_frame dat f) as [a|]; plot_steps; [|constructor]);
      (apply Forall_cons; split;
         [repeat constructor; exists 0%nat, k; repeat split; lia|]);
      (destruct (axes_at g 1 k) as [p1|] eqn:H1; plot_steps; [|constructor]);
      apply axes_at_ok in H1 as (-> & Hr1 & Hc1);
      (destruct (take_frame dat_corr f) as [b|]; plot_steps; [|constructor]);
      repeat constructor; exists 1%nat, k; repeat split; lia.
  - intros n0 n1 nt m0 m1 mt -> Hd Hc Hnt.
    destruct (take_frame_3d dat n0 n1 nt 0 Hd) as (a0 & Ha0 & _); [lia|].
    destruct (take_frame_3d dat_corr m0 m1 mt 0 Hc) as (b0 & Hb0 & _); [lia|].
    destruct (take_frame_3d dat n0 n1 nt (nt - 1) Hd) as (a1 & Ha1 & _); [lia|].
    destruct (take_frame_3d dat_corr m0 m1 mt (nt - 1) Hc) as (b1 & Hb1 & _);
      [lia|].
    exists a0, b0, a1, b1. repeat (split; [done|]).
    unfold plot_test_data_and_corrected_test_data, shape2. rewrite Hd.
    plot_steps. rewrite (frame_indices_pair nt) by lia.
    cbn [for_each]. unfold axes_at. cbn [Nat.ltb Nat.leb andb fst snd].
    plot_steps. rewrite Ha0, Hb0. plot_steps. rewrite Ha1, Hb1. by plot_steps.
Qed.

Lemma corrected_plot_fills_as_many_columns_as_rows_witness :
  exists a0 b0 a1 b1 : ndarray,
    take_frame Toy.stack 0 = Ok a0 /\ take_frame Toy.stack 0 = Ok b0
    /\ take_frame Toy.stack (2 - 1) = Ok a1
    /\ take_frame Toy.stack (2 - 1) = Ok b1
    /\ plot_test_data_and_corrected_test_data Toy.stack Toy.stack None
       = ([Subplots 2 4;
           SetTitle [0; 0]%nat 0; Imshow [0; 0]%nat a0; Imshow [1; 0]%nat b0;
           SetTitle [0; 1]%nat (2 - 1); Imshow [0; 1]%nat a1;
           Imshow [1; 1]%nat b1],
          Ok (2, 4)%nat).
Proof.
  apply (proj2 (corrected_plot_fills_as_many_columns_as_rows
                  Toy.stack Toy.stack None) 3 2 2 3 2 2);
    [reflexivity | reflexivity | reflexivity | lia].
Defined.

End Plots.

(* ===================================================================== *)
(** * The side-by-side movie of jnormcorre/utils/diagnostics.py           *)
(* ===================================================================== *)

Section SideBySide.
Import Diagnostics.

Variable imread : string -> option (list Z) -> result ndarray.
Variable float32 : Q -> Q.

Lemma transpose_120_3d (a : ndarray) (s0 s1 s2 : Z) :
  shape a = [s0; s1; s2] ->
  exists m, transpose_120 a = Ok m /\ shape m = [s1; s2; s0]
            /\ forall i j k : Z, item m [i; j; k] = item a [k; i; j].
Proof. intros H. unfold transpose_120. rewrite H. by eexists. Qed.

Lemma transpose_120_not_3d (a : ndarray) :
  length (shape a) <> 3%nat -> transpose_120 a = Err ValueError.
Proof.
  unfold transpose_120. by destruct (shape a) as [|? [|? [|? [|? ?]]]].
Qed.

Lemma left_half_bounds (d2 : Z) :
  0 <= d2 -> slice_bounds (d2 * 2) None (Some d2) = (0, d2).
Proof. intros H. unfold slice_bounds, clip_index. f_equal. case Z.ltb_spec; lia. Qed.

Lemma right_half_bounds (d2 : Z) :
  0 <= d2 -> slice_bounds (d2 * 2) (Some d2) None = (d2, d2 * 2).
Proof. intros H. unfold slice_bounds, clip_index. f_equal. case Z.ltb_spec; lia. Qed.

Lemma broadcastable_refl (s : list Z) : broadcastable s s = true.
Proof. induction s as [|d s IH]; [done|]. simpl. by rewrite Z.eqb_refl. Qed.

(** X17. [motion_correction_diagnostic] on two movies that [tifffile]
    reads as 3-D arrays, the original of [T] frames of [d1] by [d2]
    pixels: it succeeds exactly when each dimension of the registered
    movie is the original's or 1, and otherwise raises [ValueError]. The
    movie it returns has [d1] by [2 * d2] pixels and [T] frames; pixel
    [(x, y)] of frame [t] is, as [float32], pixel [(x, y)] of frame [t] of
    the original for [y < d2] and pixel [(x, y - d2)] of frame [t] of the
    registered movie for [y >= d2], where a dimension 1 of the registered
    movie is repeated along its axis. *)
Theorem diagnostic_places_movies_side_by_side
    (original_file registered_file : string) (frame_list : option (list Z))
    (o r : ndarray) (T d1 d2 T' e1 e2 : Z) :
  imread original_file frame_list = Ok o -> shape o = [T; d1; d2] ->
  imread registered_file frame_list = Ok r -> shape r = [T'; e1; e2] ->
  0 <= d2 ->
  match motion_correction_diagnostic imread float32
          original_file registered_file frame_list with
  | Ok m =>
      broadcastable [e1; e2; T'] [d1; d2; T] = true
      /\ shape m = [d1; d2 * 2; T]
      /\ forall x y t : Z, 0 <= x < d1 -> 0 <= t < T ->
           (0 <= y < d2 -> item m [x; y; t] = float32 (item o [t; x; y]))
           /\ (d2 <= y < d2 * 2 ->
               item m [x; y; t]
               = float32 (item r [if T' =? 1 then 0 else t;
                                  if e1 =? 1 then 0 else x;
                                  if e2 =? 1 then 0 else y - d2]))
  | Err e => e = ValueError /\ broadcastable [e1; e2; T'] [d1; d2; T] = false
  end.
Proof.
  intros Ho Hso Hr Hsr Hd2.
  destruct (transpose_120_3d o _ _ _ Hso) as (om & Hom & Hsom & Hiom).
  destruct (transpose_120_3d r _ _ _ Hsr) as (rm & Hrm & Hsrm & Hirm).
  unfold motion_correction_diagnostic. rewrite Ho, Hr. cbn [rbind].
  rewrite Hom, Hrm. cbn [rbind]. rewrite Hsom. cbn [unpack3 rbind].
  unfold assign_columns. cbn [zeros shape]. cbn zeta.
  rewrite left_half_bounds by done.
  unfold slice_len at 1. cbn [fst snd].
  rewrite Hsom. replace (Z.max 0 (d2 - 0)) with d2 by lia.
  rewrite broadcastable_refl. cbn [rbind shape].
  rewrite right_half_bounds by done.
  unfold slice_len. cbn [fst snd].
  rewrite Hsrm. replace (Z.max 0 (d2 * 2 - d2)) with d2 by lia.
  destruct (broadcastable [e1; e2; T'] [d1; d2; T]) eqn:Hb; cbn [rbind]; [|done].
  split; [done|]. split; [done|]. intros x y t Hx Ht. cbn [item].
  split; intros Hy.
  - replace ((d2 <=? y) && (y <? d2 * 2)) with false
      by (symmetry; apply andb_false_iff; left; lia).
    replace ((0 <=? y) && (y <? d2)) with true
      by (symmetry; apply andb_true_iff; lia).
    cbn [bcast_index]. f_equal. rewrite <- Hiom. f_equal.
    repeat case Z.eqb_spec; intros; repeat f_equal; lia.
  - replace ((d2 <=? y) && (y <? d2 * 2)) with true
      by (symmetry; apply andb_true_iff; lia).
    cbn [bcast_index]. f_equal. by rewrite <- Hirm.
Qed.

(** X18. A movie that [tifffile] reads as anything but a 3-D array (a
    single frame, say) makes [motion_correction_diagnostic] raise
    [ValueError]; an error of the reader is the error of the call. *)
Theorem diagnostic_needs_3d_movies
    (original_file registered_file : string) (frame_list : option (list Z)) :
  (forall e, imread original_file frame_list = Err e ->
     motion_correction_diagnostic imread float32
       original_file registered_file frame_list = Err e)
  /\ (forall o, imread original_file frame_list = Ok o ->
      length (shape o) <> 3%nat ->
      motion_correction_diagnostic imread float32
        original_file registered_file frame_list = Err ValueError)
  /\ (forall o e, imread original_file frame_list = Ok o ->
      length (shape o) = 3%nat ->
      imread registered_file frame_list = Err e ->
      motion_correction_diagnostic imread float32
        original_file registered_file frame_list = Err e)
  /\ (forall o r, imread original_file frame_list = Ok o ->
      imread registered_file frame_list = Ok r ->
      length (shape r) <> 3%nat ->
      motion_correction_diagnostic imread float32
        original_file registered_file frame_list = Err ValueError).
Proof.
  unfold motion_correction_diagnostic. repeat split.
  - by intros e ->.
  - intros o -> H. cbn [rbind]. by rewrite transpose_120_not_3d.
  - intros o e -> H ->. cbn [rbind].
    destruct (shape o) as [|s0 [|s1 [|s2 [|? ?]]]] eqn:Hs; try done.
    destruct (transpose_120_3d o _ _ _ Hs) as (om & -> & _). done.
  - intros o r -> -> H. cbn [rbind]. rewrite (transpose_120_not_3d r H).
    unfold transpose_120. by destruct (shape o) as [|? [|? [|? [|? ?]]]].
Qed.

End SideBySide.

Lemma diagnostic_places_movies_side_by_side_witness :
  match Diagnostics.motion_correction_diagnostic
          (fun _ _ => Ok (zeros [5; 3; 2])) (fun q => q) "a.tif" "b.tif" None with
  | Ok m =>
      broadcastable [3; 2; 5] [3; 2; 5] = true
      /\ shape m = [3; 2 * 2; 5]
      /\ forall x y t : Z, 0 <= x < 3 -> 0 <= t < 5 ->
           (0 <= y < 2 ->
            item m [x; y; t] = (fun q => q) (item (zeros [5; 3; 2]) [t; x; y]))
           /\ (2 <= y < 2 * 2 ->
               item m [x; y; t]
               = (fun q => q)
                   (item (zeros [5; 3; 2])
                      [if 5 =? 1 then 0 else t;
                       if 3 =? 1 then 0 else x;
                       if 2 =? 1 then 0 else y - 2]))
  | Err e => e = ValueError /\ broadcastable [3; 2; 5] [3; 2; 5] = false
  end.
Proof.
  apply (diagnostic_places_movies_side_by_side
           (fun _ _ => Ok (zeros [5; 3; 2])) (fun q => q) "a.tif" "b.tif" None
           (zeros [5; 3; 2]) (zeros [5; 3; 2]) 5 3 2 5 3 2);
    [reflexivity | reflexivity | reflexivity | reflexivity | lia].
Defined.

(* ===================================================================== *)
(** * The data of create_test_data                                        *)
(* ===================================================================== *)

Section TestData.
Import SimulateData.

Variable rng : Type.
Variable seed_rng : Z -> rng.
Variable uniform : rng -> Q -> Q -> list Z -> (list Z -> Q) * rng.
Variable normal : rng -> Q -> Q -> list Z -> (list Z -> Q) * rng.

Local Abbreviation place_patches := (SimulateData.place_patches rng normal).
Local Abbreviation place_frames := (SimulateData.place_frames rng normal).
Local Abbreviation rng_after := (SimulateData.rng_after rng normal).
Local Abbreviation np_random_normal := (SimulateData.np_random_normal rng normal).

Lemma slice_fits (n a s : Z) :
  0 <= a -> 0 <= s -> a + s <= n ->
  slice_bounds n (Some a) (Some (a + s)) = (a, a + s).
Proof.
  intros Ha Hs Hn. unfold slice_bounds, clip_index.
  f_equal; case Z.ltb_spec; lia.
Qed.

Lemma slice_misfit (n a s : Z) :
  0 <= n -> 0 <= a -> 2 <= s -> n < a + s ->
  (s =? slice_len (slice_bounds n (Some a) (Some (a + s)))) || (s =? 1) = false.
Proof.
  intros Hn Ha Hs Hlt. unfold slice_len, slice_bounds, clip_index. cbn [fst snd].
  apply orb_false_iff. split; apply Z.eqb_neq; repeat case Z.ltb_spec; lia.
Qed.

Lemma assign_patch_shape (dst d src : ndarray) (x0 x1 y0 y1 : Z) (i : nat) :
  assign_patch dst x0 x1 y0 y1 i src = Ok d -> shape d = shape dst.
Proof.
  unfold assign_patch. destruct (shape dst) as [|n0 [|n1 [|n2 [|? ?]]]]; try done.
  destruct (_ <? _); [|done]. cbv zeta. destruct (broadcastable _ _); [|done].
  by intros [= <-].
Qed.

Lemma assign_patch_err (dst src : ndarray) (x0 x1 y0 y1 n0 n1 n2 : Z) (i : nat) (e : exn) :
  shape dst = [n0; n1; n2] -> Z.of_nat i < n2 ->
  assign_patch dst x0 x1 y0 y1 i src = Err e -> e = ValueError.
Proof.
  intros Hs Hi. unfold assign_patch. rewrite Hs.
  case Z.ltb_spec; [intros _|lia]. cbv zeta.
  destruct (broadcastable _ _); [done|]. by intros [= <-].
Qed.

Lemma assign_patch_fits (dst src : ndarray) (n0 n1 n2 sx sy a c : Z) (i : nat) :
  shape dst = [n0; n1; n2] -> Z.of_nat i < n2 -> shape src = [sx; sy] ->
  0 <= a -> 0 <= c -> 0 <= sx -> 0 <= sy -> a + sx <= n0 -> c + sy <= n1 ->
  exists d,
    assign_patch dst a (a + sx) c (c + sy) i src = Ok d
    /\ shape d = [n0; n1; n2]
    /\ (forall x y, a <= x < a + sx -> c <= y < c + sy ->
          item d [x; y; Z.of_nat i] = item src [x - a; y - c])
    /\ (forall x y t, ~ (a <= x < a + sx /\ c <= y < c + sy /\ t = Z.of_nat i) ->
          item d [x; y; t] = item dst [x; y; t]).
Proof.
  intros Hs Hi Hsrc Ha Hc Hsx Hsy Hfx Hfy. unfold assign_patch.
  rewrite Hs, Hsrc. case Z.ltb_spec; [intros _|lia]. cbv zeta.
  rewrite !slice_fits by done. unfold slice_len. cbn [fst snd].
  replace (Z.max 0 (a + sx - a)) with sx by lia.
  replace (Z.max 0 (c + sy - c)) with sy by lia.
  rewrite broadcastable_refl. eexists. split; [done|]. split; [done|].
  cbn [item]. unfold selects. cbn [fst snd bcast_index]. split.
  - intros x y Hx Hy.
    replace ((a <=? x) && (x <? a + sx)) with true
      by (symmetry; apply andb_true_iff; lia).
    replace ((c <=? y) && (y <? c + sy)) with true
      by (symmetry; apply andb_true_iff; lia).
    rewrite Z.eqb_refl. cbn [andb]. f_equal.
    repeat case Z.eqb_spec; intros; repeat f_equal; lia.
  - intros x y t Hout.
    destruct ((a <=? x) && (x <? a + sx) && ((c <=? y) && (y <? c + sy))
              && (t =? Z.of_nat i)) eqn:Hb; [|done].
    exfalso. apply Hout.
    apply andb_prop in Hb as [Hb Ht]. apply andb_prop in Hb as [Hx Hy].
    apply andb_prop in Hx as [Hx1 Hx2]. apply andb_prop in Hy as [Hy1 Hy2]. lia.
Qed.

Lemma assign_patch_misfit (dst src : ndarray) (n0 n1 n2 sx sy a c : Z) (i : nat) :
  shape dst = [n0; n1; n2] -> Z.of_nat i < n2 -> shape src = [sx; sy] ->
  0 <= n0 -> 0 <= n1 -> 0 <= a -> 0 <= c -> 2 <= sx -> 2 <= sy ->
  ~ (a + sx <= n0 /\ c + sy <= n1) ->
  assign_patch dst a (a + sx) c (c + sy) i src = Err ValueError.
Proof.
  intros Hs Hi Hsrc Hn0 Hn1 Ha Hc Hsx Hsy Hmis. unfold assign_patch.
  rewrite Hs, Hsrc. case Z.ltb_spec; [intros _|lia]. cbv zeta.
  cbn [broadcastable].
  destruct (Z_le_gt_dec (a + sx) n0) as [Hx|Hx].
  - assert (n1 < c + sy) as Hy by lia.
    by rewrite (slice_misfit n1 c sy), andb_false_r.
  - by rewrite (slice_misfit n0 a sx) by lia.
Qed.

Lemma normal_err (g : rng) (loc scale : Q) (size : list Z) (e : exn) :
  np_random_normal g loc scale size = Err e -> e = ValueError.
Proof.
  unfold SimulateData.np_random_normal. destruct (_ && _); [done|]. by intros [= <-].
Qed.

Lemma normal_ok (g : rng) (scale : Q) (sx sy : Z) :
  (0 <= scale)%Q -> 0 <= sx -> 0 <= sy ->
  np_random_normal g 1 scale [sx; sy]
  = Ok ({| shape := [sx; sy]; item := fst (normal g 1 scale [sx; sy]) |},
        snd (normal g 1 scale [sx; sy])).
Proof.
  intros Hs Hx Hy. unfold SimulateData.np_random_normal.
  apply Qle_bool_iff in Hs. rewrite Hs. cbn [forallb andb].
  by rewrite !(proj2 (Z.leb_le _ _)).
Qed.

Section Loops.
Variables (nx ny : Z) (nt : nat) (sx sy : Z) (noise_std : Q).

Lemma rng_after_succ (k : nat) (g : rng) :
  rng_after sx sy noise_std k (snd (normal g 1 noise_std [sx; sy]))
  = rng_after sx sy noise_std (S k) g.
Proof. induction k as [|k IH]; [done|]. cbn [SimulateData.rng_after]. by rewrite IH. Qed.

Lemma rng_after_add (k j : nat) (g : rng) :
  rng_after sx sy noise_std (k + j) g
  = rng_after sx sy noise_std k (rng_after sx sy noise_std j g).
Proof. induction k as [|k IH]; [done|]. cbn [Nat.add SimulateData.rng_after]. by rewrite IH. Qed.

(** Whatever the arguments, the loops keep the shape of the data and
    raise nothing but [ValueError]. *)
Lemma place_patches_inv (i : nat) (shx shy : Z) (offs : list (Z * Z))
    (st : ndarray * rng) :
  shape (fst st) = [nx; ny; Z.of_nat nt] -> (i < nt)%nat ->
  match place_patches sx sy noise_std i shx shy offs st with
  | Ok st' => shape (fst st') = [nx; ny; Z.of_nat nt]
  | Err e => e = ValueError
  end.
Proof.
  revert st. induction offs as [|[ox oy] offs IH]; intros st Hs Hi; [done|].
  cbn [SimulateData.place_patches].
  destruct (np_random_normal _ _ _ _) as [[patch g]|e] eqn:Hn; cbn [rbind];
    [|by apply normal_err in Hn].
  destruct (assign_patch _ _ _ _ _ _ _) as [d|e] eqn:Ha; cbn [rbind].
  - apply IH; [|done]. cbn [fst]. by rewrite (assign_patch_shape _ _ _ _ _ _ _ _ Ha).
  - eapply assign_patch_err; [exact Hs| |exact Ha]. lia.
Qed.

Lemma place_frames_inv (offs : list (Z * Z)) (i : nat) (shifts : list (Z * Z))
    (st : ndarray * rng) :
  shape (fst st) = [nx; ny; Z.of_nat nt] -> (i + length shifts <= nt)%nat ->
  match place_frames sx sy noise_std offs i shifts st with
  | Ok st' => shape (fst st') = [nx; ny; Z.of_nat nt]
  | Err e => e = ValueError
  end.
Proof.
  revert i st. induction shifts as [|[shx shy] shifts IH]; intros i st Hs Hi;
    [done|].
  cbn [SimulateData.place_frames]. cbn [length] in Hi.
  pose proof (place_patches_inv i shx shy offs st Hs ltac:(lia)) as Hp.
  destruct (place_patches _ _ _ _ _ _ _ _) as [st1|e]; cbn [rbind]; [|done].
  apply IH; [done|lia].
Qed.

Hypothesis Hnx : 0 <= nx.
Hypothesis Hny : 0 <= ny.
Hypothesis Hsx : 2 <= sx.
Hypothesis Hsy : 2 <= sy.
Hypothesis Hnoise : (0 <= noise_std)%Q.

(** Patches that fit are all placed; a pixel keeps its value unless a
    patch covers it, and then gets the entry of the last patch that
    does. *)
Lemma place_patches_fit (i : nat) (shx shy : Z) (offs : list (Z * Z))
    (st : ndarray * rng) :
  shape (fst st) = [nx; ny; Z.of_nat nt] -> (i < nt)%nat ->
  Forall (fun o => 0 <= fst o + shx /\ fst o + shx + sx <= nx
                   /\ 0 <= snd o + shy /\ snd o + shy + sy <= ny) offs ->
  exists d,
    place_patches sx sy noise_std i shx shy offs st
    = Ok (d, rng_after sx sy noise_std (length offs) (snd st))
    /\ shape d = [nx; ny; Z.of_nat nt]
    /\ (forall x y t,
          t <> Z.of_nat i
          \/ Forall (fun o => ~ on_patch sx sy (fst o + shx) (snd o + shy) x y) offs ->
          item d [x; y; t] = item (fst st) [x; y; t])
    /\ (forall j o x y,
          offs !! j = Some o ->
          on_patch sx sy (fst o + shx) (snd o + shy) x y ->
          Forall (fun o' => ~ on_patch sx sy (fst o' + shx) (snd o' + shy) x y)
                 (drop (S j) offs) ->
          item d [x; y; Z.of_nat i]
          = fst (normal (rng_after sx sy noise_std j (snd st)) 1 noise_std [sx; sy])
                [x - (fst o + shx); y - (snd o + shy)]).
Proof.
  revert st. induction offs as [|[ox oy] offs IH]; intros st Hs Hi Hfit.
  { exists (fst st). destruct st as [d g]. by repeat split. }
  apply Forall_cons in Hfit as [(Ha0 & Ha1 & Hc0 & Hc1) Hfit]. cbn [fst snd] in *.
  cbn [SimulateData.place_patches]. rewrite normal_ok by (done || lia). cbn [rbind].
  destruct (assign_patch_fits (fst st)
              {| shape := [sx; sy];
                 item := fst (normal (snd st) 1 noise_std [sx; sy]) |}
              nx ny (Z.of_nat nt) sx sy (ox + shx) (oy + shy) i Hs)
    as (d1 & Hd1 & Hs1 & Hin & Hout); try done; try lia.
  rewrite Hd1. cbn [rbind].
  destruct (IH (d1, snd (normal (snd st) 1 noise_std [sx; sy])) Hs1 Hi Hfit)
    as (d & Hd & Hsd & Hkeep & Hpatch).
  cbn [fst snd] in *. exists d. rewrite Hd, rng_after_succ. cbn [length].
  split; [done|]. split; [done|]. split.
  - intros x y t Hfree. rewrite Hkeep.
    + apply Hout. intros (Hx & Hy & Ht). destruct Hfree as [Hne|Hall]; [done|].
      apply Forall_cons in Hall as [Hhead _]. apply Hhead. by split.
    + destruct Hfree as [Hne|Hall]; [by left|right].
      by apply Forall_cons in Hall as [_ Hall].
  - intros [|j] o x y Hj Hon Hlater.
    + injection Hj as <-. cbn [fst snd drop] in *.
      rewrite Hkeep by (by right). destruct Hon as [Hx Hy].
      by rewrite Hin.
    + cbn [lookup list_lookup drop] in *.
      rewrite (Hpatch j o x y Hj Hon Hlater). by rewrite rng_after_succ.
Qed.

(** A patch that would cross the edge is not clipped: [ValueError]. *)
Lemma place_patches_misfit (i : nat) (shx shy : Z) (offs : list (Z * Z))
    (st : ndarray * rng) :
  shape (fst st) = [nx; ny; Z.of_nat nt] -> (i < nt)%nat ->
  Forall (fun o => 0 <= fst o + shx /\ 0 <= snd o + shy) offs ->
  Exists (fun o => ~ (fst o + shx + sx <= nx /\ snd o + shy + sy <= ny)) offs ->
  place_patches sx sy noise_std i shx shy offs st = Err ValueError.
Proof.
  revert st. induction offs as [|[ox oy] offs IH]; intros st Hs Hi Hpos Hmis.
  { by apply Exists_nil in Hmis. }
  apply Forall_cons in Hpos as [[Ha0 Hc0] Hpos]. cbn [fst snd] in *.
  cbn [SimulateData.place_patches]. rewrite normal_ok by (done || lia). cbn [rbind].
  destruct (decide (ox + shx + sx <= nx /\ oy + shy + sy <= ny)) as [[Hx Hy]|Hno].
  - destruct (assign_patch_fits (fst st)
                {| shape := [sx; sy];
                   item := fst (normal (snd st) 1 noise_std [sx; sy]) |}
                nx ny (Z.of_nat nt) sx sy (ox + shx) (oy + shy) i Hs)
      as (d1 & Hd1 & Hs1 & _); try done; try lia.
    rewrite Hd1. cbn [rbind]. apply IH; try done.
    apply Exists_cons in Hmis as [Hhead|Htail]; [|done].
    exfalso. apply Hhead. by split.
  - by rewrite (assign_patch_misfit (fst st) _ nx ny (Z.of_nat nt) sx sy
                  (ox + shx) (oy + shy) i Hs) by (done || lia).
Qed.

Lemma place_frames_fit (offs : list (Z * Z)) (i : nat) (shifts : list (Z * Z))
    (st : ndarray * rng) :
  shape (fst st) = [nx; ny; Z.of_nat nt] -> (i + length shifts <= nt)%nat ->
  Forall (fun sh =>
            Forall (fun o => 0 <= fst o + fst sh /\ fst o + fst sh + sx <= nx
                             /\ 0 <= snd o + snd sh /\ snd o + snd sh + sy <= ny)
                   offs) shifts ->
  exists d,
    place_frames sx sy noise_std offs i shifts st
    = Ok (d, rng_after sx sy noise_std (length shifts * length offs) (snd st))
    /\ shape d = [nx; ny; Z.of_nat nt]
    /\ (forall x y t,
          (forall k sh, shifts !! k = Some sh -> t = Z.of_nat (i + k) ->
             Forall (fun o => ~ on_patch sx sy (fst o + fst sh) (snd o + snd sh) x y)
                    offs) ->
          item d [x; y; t] = item (fst st) [x; y; t])
    /\ (forall k sh j o x y,
          shifts !! k = Some sh -> offs !! j = Some o ->
          on_patch sx sy (fst o + fst sh) (snd o + snd sh) x y ->
          Forall (fun o' => ~ on_patch sx sy (fst o' + fst sh) (snd o' + snd sh) x y)
                 (drop (S j) offs) ->
          item d [x; y; Z.of_nat (i + k)]
          = fst (normal (rng_after sx sy noise_std (k * length offs + j) (snd st))
                        1 noise_std [sx; sy])
                [x - (fst o + fst sh); y - (snd o + snd sh)]).
Proof.
  revert i st. induction shifts as [|[shx shy] shifts IH]; intros i st Hs Hi Hfit.
  { exists (fst st). destruct st as [d g]. by repeat split. }
  apply Forall_cons in Hfit as [Hhead Hfit]. cbn [fst snd length] in *.
  cbn [SimulateData.place_frames].
  destruct (place_patches_fit i shx shy offs st Hs ltac:(lia) Hhead)
    as (d1 & Hd1 & Hs1 & Hkeep1 & Hpatch1).
  rewrite Hd1. cbn [rbind].
  destruct (IH (S i) (d1, rng_after sx sy noise_std (length offs) (snd st))
              Hs1 ltac:(lia) Hfit) as (d & Hd & Hsd & Hkeep & Hpatch).
  cbn [fst snd] in *. exists d. rewrite Hd, <- rng_after_add.
  split; [do 3 f_equal; lia|]. split; [done|]. split.
  - intros x y t Hfree. rewrite Hkeep.
    + apply Hkeep1. destruct (decide (t = Z.of_nat i)) as [->|Hne]; [right|by left].
      apply (Hfree 0%nat (shx, shy)); [done|]. f_equal. lia.
    + intros k sh Hk Ht. apply (Hfree (S k) sh); [done|]. rewrite Ht. f_equal. lia.
  - intros [|k] sh j o x y Hk Hj Hon Hlater.
    + injection Hk as <-. cbn [fst snd] in *. rewrite Nat.add_0_r.
      rewrite Hkeep; [by apply Hpatch1|].
      intros k sh Hk Ht. apply Nat2Z.inj in Ht. lia.
    + cbn [lookup list_lookup] in Hk.
      replace (i + S k)%nat with (S i + k)%nat by lia.
      rewrite (Hpatch k sh j o x y Hk Hj Hon Hlater), <- rng_after_add.
      by replace (S k * length offs + j)%nat
        with (k * length offs + j + length offs)%nat by (cbn [Nat.mul]; lia).
Qed.

Lemma place_frames_misfit (offs : list (Z * Z)) (i : nat) (shifts : list (Z * Z))
    (st : ndarray * rng) :
  shape (fst st) = [nx; ny; Z.of_nat nt] -> (i + length shifts <= nt)%nat ->
  Forall (fun sh => Forall (fun o => 0 <= fst o + fst sh /\ 0 <= snd o + snd sh) offs)
         shifts ->
  Exists (fun sh =>
            Exists (fun o => ~ (fst o + fst sh + sx <= nx /\ snd o + snd sh + sy <= ny))
                   offs) shifts ->
  place_frames sx sy noise_std offs i shifts st = Err ValueError.
Proof.
  revert i st. induction shifts as [|[shx shy] shifts IH]; intros i st Hs Hi Hpos Hmis.
  { by apply Exists_nil in Hmis. }
  apply Forall_cons in Hpos as [Hpos0 Hpos]. cbn [fst snd length] in *.
  cbn [SimulateData.place_frames].
  destruct (Forall_Exists_dec
              (fun o : Z * Z => fst o + shx + sx <= nx /\ snd o + shy + sy <= ny)
              (fun o : Z * Z => ~ (fst o + shx + sx <= nx /\ snd o + shy + sy <= ny))
              (fun o => decide _) offs) as [Hall|Hex].
  - destruct (place_patches_fit i shx shy offs st Hs ltac:(lia))
      as (d1 & Hd1 & Hs1 & _).
    { rewrite Forall_forall in *. intros o Ho.
      destruct (Hpos0 o Ho), (Hall o Ho). done. }
    rewrite Hd1. cbn [rbind]. apply IH; try done; [lia|].
    apply Exists_cons in Hmis as [Hhead|Htail]; [|done].
    exfalso. cbn [fst snd] in Hhead.
    apply Exists_exists in Hhead as (o & Ho & Hno).
    rewrite Forall_forall in Hall. by apply Hno, Hall.
  - by rewrite (place_patches_misfit i shx shy offs st Hs ltac:(lia) Hpos0 Hex).
Qed.

End Loops.

Local Abbreviation create_test_data :=
  (SimulateData.create_test_data rng seed_rng uniform normal).
Local Abbreviation background := (SimulateData.background rng seed_rng uniform).

Lemma shift_profile_length (maxv : Q) (nt : nat) :
  length (Simulate.shift_profile maxv nt) = nt.
Proof. unfold Simulate.shift_profile. by rewrite length_map, linspace_length. Qed.

Lemma shifts_length (maxx maxy : Q) (nt : nat) :
  length (zip (Simulate.shift_profile maxx nt) (Simulate.shift_profile maxy nt)) = nt.
Proof. rewrite length_zip_with, !shift_profile_length. lia. Qed.

(** X19. Whatever its arguments, [create_test_data] either raises
    [ValueError] or returns data of shape [(nx, ny, nt)] with the two
    ground-truth profiles; it can only return when the seed is between 0
    and 2**32 - 1 and neither [nx] nor [ny] is negative. *)
Theorem test_data_shape_and_errors
    (nx ny : Z) (nt : nat) (sx sy : Z) (offxs offys : list Z)
    (maxx maxy noise_std : Q) (seed : Z) :
  match create_test_data nx ny nt sx sy offxs offys maxx maxy noise_std seed with
  | Ok (dat, shifts_x, shifts_y) =>
      shape dat = [nx; ny; Z.of_nat nt]
      /\ (shifts_x, shifts_y) = Simulate.create_test_data_shifts nt maxx maxy
      /\ 0 <= seed < 2 ^ 32 /\ 0 <= nx /\ 0 <= ny
  | Err e => e = ValueError
  end.
Proof.
  unfold SimulateData.create_test_data, SimulateData.np_random_seed.
  destruct ((0 <=? seed) && (seed <? 2 ^ 32)) eqn:Hseed; cbn [rbind]; [|done].
  unfold SimulateData.np_random_uniform. cbn [forallb].
  destruct ((0 <=? nx) && ((0 <=? ny) && ((0 <=? Z.of_nat nt) && true))) eqn:Hdims;
    cbn [rbind]; [|done]. cbv zeta.
  match goal with
  | |- context [SimulateData.place_frames _ _ ?a ?b ?c ?d ?i ?s ?st] =>
      pose proof (place_frames_inv nx ny nt a b c d i s st eq_refl) as Hinv;
      destruct (SimulateData.place_frames _ _ a b c d i s st) as [[dat g]|e]
  end; cbn [rbind fst]; rewrite shifts_length in Hinv;
    specialize (Hinv ltac:(lia)); [|done].
  apply andb_prop in Hseed as [H0 H1]. apply andb_prop in Hdims as [Hx Hy].
  apply andb_prop in Hy as [Hy _]. repeat split; try done; lia.
Qed.

Section Room.
Variables (nx ny : Z) (nt : nat) (sx sy : Z) (offxs offys : list Z).
Variables (maxx maxy noise_std : Q) (seed : Z).
Hypothesis Hseed : 0 <= seed < 2 ^ 32.
Hypothesis Hnx : 0 <= nx.
Hypothesis Hny : 0 <= ny.
Hypothesis Hsx : 2 <= sx.
Hypothesis Hsy : 2 <= sy.
Hypothesis Hnoise : (0 <= noise_std)%Q.
Hypothesis Hmaxx : (0 <= maxx)%Q.
Hypothesis Hmaxy : (0 <= maxy)%Q.
Hypothesis Hoffxs : Forall (Z.le 0) offxs.
Hypothesis Hoffys : Forall (Z.le 0) offys.

Lemma create_test_data_unfold :
  create_test_data nx ny nt sx sy offxs offys maxx maxy noise_std seed
  = rbind (place_frames sx sy noise_std (zip offxs offys) 0
             (zip (Simulate.shift_profile maxx nt) (Simulate.shift_profile maxy nt))
             ({| shape := [nx; ny; Z.of_nat nt];
                 item := fst (background nx ny nt noise_std seed) |},
              snd (background nx ny nt noise_std seed)))
          (fun st => Ok (fst st, Simulate.shift_profile maxx nt,
                         Simulate.shift_profile maxy nt)).
Proof.
  unfold SimulateData.create_test_data, SimulateData.np_random_seed.
  replace ((0 <=? seed) && (seed <? 2 ^ 32)) with true
    by (symmetry; apply andb_true_iff; lia).
  cbn [rbind]. unfold SimulateData.np_random_uniform. cbn [forallb].
  by rewrite (proj2 (Z.leb_le 0 nx)), (proj2 (Z.leb_le 0 ny)),
    (proj2 (Z.leb_le 0 (Z.of_nat nt))) by lia.
Qed.

Lemma offsets_nonneg (o : Z * Z) :
  o ∈ zip offxs offys -> 0 <= fst o /\ 0 <= snd o.
Proof.
  intros Ho. destruct o as [ox oy]. cbn [fst snd].
  rewrite Forall_forall in Hoffxs, Hoffys. split.
  - apply Hoffxs. by eapply elem_of_zip_l.
  - apply Hoffys. by eapply elem_of_zip_r.
Qed.

Lemma shifts_bounded (k : nat) (sh : Z * Z) :
  zip (Simulate.shift_profile maxx nt) (Simulate.shift_profile maxy nt) !! k = Some sh ->
  0 <= fst sh <= py_round maxx /\ 0 <= snd sh <= py_round maxy.
Proof.
  intros Hk. apply lookup_zip_with_Some in Hk as (a & b & -> & Ha & Hb).
  destruct (shift_profile_rises maxx nt Hmaxx) as (_ & Bx & _).
  destruct (shift_profile_rises maxy nt Hmaxy) as (_ & By & _).
  cbn [fst snd]. split; eauto.
Qed.

Lemma room_everywhere :
  Forall (fun o => fst o + py_round maxx + sx <= nx /\ snd o + py_round maxy + sy <= ny)
         (zip offxs offys) ->
  Forall (fun sh =>
            Forall (fun o => 0 <= fst o + fst sh /\ fst o + fst sh + sx <= nx
                             /\ 0 <= snd o + snd sh /\ snd o + snd sh + sy <= ny)
                   (zip offxs offys))
         (zip (Simulate.shift_profile maxx nt) (Simulate.shift_profile maxy nt)).
Proof.
  intros Hroom. apply Forall_lookup. intros k sh Hk.
  destruct (shifts_bounded k sh Hk) as [Bx By].
  apply Forall_forall. intros o Ho.
  rewrite Forall_forall in Hroom. specialize (Hroom o Ho).
  apply offsets_nonneg in Ho. lia.
Qed.

End Room.

(** X20. With a valid seed, non-negative sizes, noise and maxima,
    non-negative offsets, patches of at least 2 by 2 pixels and at
    least two frames, [create_test_data] returns exactly when every
    patch still lies within the frame at the largest shift,
    [offx + round(maxx) + sx <= nx] and [offy + round(maxy) + sy <= ny]
    for each zipped pair of offsets: a patch that would cross the edge
    is not clipped, the call raises. *)
Theorem test_data_needs_room
    (nx ny : Z) (nt : nat) (sx sy : Z) (offxs offys : list Z)
    (maxx maxy noise_std : Q) (seed : Z) :
  0 <= seed < 2 ^ 32 -> 0 <= nx -> 0 <= ny -> (2 <= nt)%nat ->
  2 <= sx -> 2 <= sy ->
  (0 <= noise_std)%Q -> (0 <= maxx)%Q -> (0 <= maxy)%Q ->
  Forall (Z.le 0) offxs -> Forall (Z.le 0) offys ->
  is_ok (create_test_data nx ny nt sx sy offxs offys maxx maxy noise_std seed) = true
  <-> Forall (fun o => fst o + py_round maxx + sx <= nx
                       /\ snd o + py_round maxy + sy <= ny)
             (zip offxs offys).
Proof.
  intros Hseed Hnx Hny Hnt Hsx Hsy Hnoise Hmaxx Hmaxy Hoffxs Hoffys.
  rewrite (create_test_data_unfold nx ny nt sx sy offxs offys maxx maxy noise_std seed)
    by done.
  split.
  - intros Hok.
    destruct (Forall_Exists_dec
                (fun o : Z * Z => fst o + py_round maxx + sx <= nx
                                  /\ snd o + py_round maxy + sy <= ny)
                (fun o : Z * Z => ~ (fst o + py_round maxx + sx <= nx
                                     /\ snd o + py_round maxy + sy <= ny))
                (fun o => decide _) (zip offxs offys)) as [Hall|Hex]; [done|].
    exfalso.
    rewrite (place_frames_misfit nx ny nt sx sy noise_std Hnx Hny Hsx Hsy Hnoise)
      in Hok; [done|done|by rewrite shifts_length| |].
    + apply Forall_lookup. intros k sh Hk.
      destruct (shifts_bounded nt maxx maxy Hmaxx Hmaxy k sh Hk) as [Bx By].
      apply Forall_forall. intros o Ho.
      apply (offsets_nonneg offxs offys Hoffxs Hoffys) in Ho. lia.
    + apply Exists_exists. exists (py_round maxx, py_round maxy). split; [|done].
      apply list_elem_of_lookup. exists (nt - 1)%nat.
      apply lookup_zip_with_Some. do 2 eexists. split; [done|].
      destruct (shift_profile_rises maxx nt Hmaxx) as (_ & _ & _ & _ & Lx).
      destruct (shift_profile_rises maxy nt Hmaxy) as (_ & _ & _ & _ & Ly).
      split; [by apply Lx|by apply Ly].
  - intros Hroom.
    destruct (place_frames_fit nx ny nt sx sy noise_std Hsx Hsy Hnoise
                (zip offxs offys) 0
                (zip (Simulate.shift_profile maxx nt) (Simulate.shift_profile maxy nt))
                ({| shape := [nx; ny; Z.of_nat nt];
                    item := fst (background nx ny nt noise_std seed) |},
                 snd (background nx ny nt noise_std seed)))
      as (d & -> & _); [done|by rewrite shifts_length| |done].
    by apply room_everywhere.
Qed.

(** X21. Where the patches have room, the data that [create_test_data]
    returns is, on frame [i] with the shifts [(shift_x, shift_y)] of
    that frame: the uniform background at every pixel that no patch
    covers, and at a covered pixel the entry of the last patch (in the
    order of the offsets) that covers it, a patch with its corner at
    [(offx + shift_x, offy + shift_y)]; the patches are drawn from the
    generator one after the other, frame by frame, after the
    background. *)
Theorem test_data_pixels
    (nx ny : Z) (nt : nat) (sx sy : Z) (offxs offys : list Z)
    (maxx maxy noise_std : Q) (seed : Z) :
  0 <= seed < 2 ^ 32 -> 0 <= nx -> 0 <= ny -> 2 <= sx -> 2 <= sy ->
  (0 <= noise_std)%Q -> (0 <= maxx)%Q -> (0 <= maxy)%Q ->
  Forall (Z.le 0) offxs -> Forall (Z.le 0) offys ->
  Forall (fun o => fst o + py_round maxx + sx <= nx
                   /\ snd o + py_round maxy + sy <= ny)
         (zip offxs offys) ->
  exists dat,
    create_test_data nx ny nt sx sy offxs offys maxx maxy noise_std seed
    = Ok (dat, Simulate.shift_profile maxx nt, Simulate.shift_profile maxy nt)
    /\ forall (i : nat) (shift_x shift_y x y : Z),
         Simulate.shift_profile maxx nt !! i = Some shift_x ->
         Simulate.shift_profile maxy nt !! i = Some shift_y ->
         (Forall (fun o => ~ on_patch sx sy (fst o + shift_x) (snd o + shift_y) x y)
                 (zip offxs offys) ->
          item dat [x; y; Z.of_nat i]
          = fst (background nx ny nt noise_std seed) [x; y; Z.of_nat i])
         /\ (forall (j : nat) (o : Z * Z),
               zip offxs offys !! j = Some o ->
               on_patch sx sy (fst o + shift_x) (snd o + shift_y) x y ->
               Forall (fun o' => ~ on_patch sx sy (fst o' + shift_x) (snd o' + shift_y) x y)
                      (drop (S j) (zip offxs offys)) ->
               item dat [x; y; Z.of_nat i]
               = fst (normal
                        (rng_after sx sy noise_std
                           (i * length (zip offxs offys) + j)
                           (snd (background nx ny nt noise_std seed)))
                        1 noise_std [sx; sy])
                     [x - (fst o + shift_x); y - (snd o + shift_y)]).
Proof.
  intros Hseed Hnx Hny Hsx Hsy Hnoise Hmaxx Hmaxy Hoffxs Hoffys Hroom.
  rewrite (create_test_data_unfold nx ny nt sx sy offxs offys maxx maxy noise_std seed)
    by done.
  destruct (place_frames_fit nx ny nt sx sy noise_std Hsx Hsy Hnoise
              (zip offxs offys) 0
              (zip (Simulate.shift_profile maxx nt) (Simulate.shift_profile maxy nt))
              ({| shape := [nx; ny; Z.of_nat nt];
                  item := fst (background nx ny nt noise_std seed) |},
               snd (background nx ny nt noise_std seed)))
    as (d & -> & _ & Hkeep & Hpatch); [done|by rewrite shifts_length| |].
  { by apply room_everywhere. }
  cbn [fst snd rbind] in *. exists d. split; [done|].
  intros i shift_x shift_y x y Hx Hy.
  assert (zip (Simulate.shift_profile maxx nt) (Simulate.shift_profile maxy nt) !! i
          = Some (shift_x, shift_y)) as Hi.
  { apply lookup_zip_with_Some. by exists shift_x, shift_y. }
  split.
  - intros Hfree. apply Hkeep. intros k sh Hk Ht.
    apply Nat2Z.inj in Ht. cbn [Nat.add] in Ht. subst k.
    rewrite Hi in Hk. by injection Hk as <-.
  - intros j o Hj Hon Hlater.
    exact (Hpatch i (shift_x, shift_y) j o x y Hi Hj Hon Hlater).
Qed.

End TestData.

Lemma test_data_needs_room_witness :
  is_ok (SimulateData.create_test_data unit (fun _ => tt)
           (fun _ _ _ _ => (fun _ => 0%Q, tt)) (fun _ _ _ _ => (fun _ => 1%Q, tt))
           30 20 500 5 5 [1; 10] [1; 4] 10 0 (1 # 2) 42) = true
  <-> Forall (fun o => fst o + py_round 10 + 5 <= 30 /\ snd o + py_round 0 + 5 <= 20)
             (zip [1; 10] [1; 4]).
Proof.
  apply (test_data_needs_room unit (fun _ => tt)
           (fun _ _ _ _ => (fun _ => 0%Q, tt)) (fun _ _ _ _ => (fun _ => 1%Q, tt))
           30 20 500 5 5 [1; 10] [1; 4] 10 0 (1 # 2) 42);
    try lia; try (vm_compute; discriminate);
    repeat (apply Forall_cons; split;
            [first [lia | vm_compute; split; discriminate]|]);
    apply Forall_nil_2.
Defined.

Lemma test_data_pixels_witness :
  exists dat,
    SimulateData.create_test_data unit (fun _ => tt)
      (fun _ _ _ _ => (fun _ => 0%Q, tt)) (fun _ _ _ _ => (fun _ => 1%Q, tt))
      30 20 5 5 5 [1; 10] [1; 4] 10 0 (1 # 2) 42
    = Ok (dat, Simulate.shift_profile 10 5, Simulate.shift_profile 0 5)
    /\ forall (i : nat) (shift_x shift_y x y : Z),
         Simulate.shift_profile 10 5 !! i = Some shift_x ->
         Simulate.shift_profile 0 5 !! i = Some shift_y ->
         (Forall (fun o => ~ SimulateData.on_patch 5 5 (fst o + shift_x) (snd o + shift_y) x y)
                 (zip [1; 10] [1; 4]) ->
          item dat [x; y; Z.of_nat i]
          = fst (SimulateData.background unit (fun _ => tt)
                   (fun _ _ _ _ => (fun _ => 0%Q, tt)) 30 20 5 (1 # 2) 42)
                [x; y; Z.of_nat i])
         /\ (forall (j : nat) (o : Z * Z),
               zip [1; 10] [1; 4] !! j = Some o ->
               SimulateData.on_patch 5 5 (fst o + shift_x) (snd o + shift_y) x y ->
               Forall (fun o' => ~ SimulateData.on_patch 5 5 (fst o' + shift_x) (snd o' + shift_y) x y)
                      (drop (S j) (zip [1; 10] [1; 4])) ->
               item dat [x; y; Z.of_nat i]
               = fst ((fun _ _ _ _ => (fun _ => 1%Q, tt))
                        (SimulateData.rng_after unit (fun _ _ _ _ => (fun _ => 1%Q, tt))
                           5 5 (1 # 2) (i * length (zip [1; 10] [1; 4]) + j)
                           (snd (SimulateData.background unit (fun _ => tt)
                                   (fun _ _ _ _ => (fun _ => 0%Q, tt)) 30 20 5 (1 # 2) 42)))
                        1%Q (1 # 2) [5; 5])
                     [x - (fst o + shift_x); y - (snd o + shift_y)]).
Proof.
  apply (test_data_pixels unit (fun _ => tt)
           (fun _ _ _ _ => (fun _ => 0%Q, tt)) (fun _ _ _ _ => (fun _ => 1%Q, tt))
           30 20 5 5 5 [1; 10] [1; 4] 10 0 (1 # 2) 42);
    try lia; try (vm_compute; discriminate);
    repeat (apply Forall_cons; split;
            [first [lia | vm_compute; split; discriminate]|]);
    apply Forall_nil_2.
Defined.
